(** * realtime_tcn.js: streaming feature extraction and state machines

    A shallow embedding of the per-frame engine of [realtime_tcn.js]
    (debounced eye state, blink runs, prolonged closure, mouth hysteresis,
    rolling PERCLOS ring, online normalisation, 90-row temporal window)
    together with the properties stated for it.

    JavaScript numbers are IEEE-754 binary64 values: probabilities, angles,
    times, features and running sums are [PrimFloat.float], computed with
    the kernel's primitive operations.  Counters that are only ever
    incremented, reset and compared (frame counts, debounce counters,
    pulses) are [Z], array lengths and indices are [nat]; where the source
    uses such a counter in a floating-point expression it is converted
    with [Z2F].  [Float32Array] stores round to binary32 ([fround]). *)

From stdpp Require Import base list.
From Stdlib Require Import ZArith Lia Floats.
Set Warnings "-inexact-float".

(** ** JavaScript numbers *)

Module JS.

(** An integer-valued number as a binary64 value. *)
Definition Z2F (z : Z) : float :=
  if (z <? 0)%Z then (- of_uint63 (Uint63.of_Z (- z)))%float
  else of_uint63 (Uint63.of_Z z).

(** [Math.fround]: the value a [Float32Array] cell holds after a store. *)
Definition fround (x : float) : float :=
  match Prim2SF x with
  | S754_finite s m e => SF2Prim (binary_round 24 128 s m e)
  | _ => x
  end.

(** [Number.isFinite] and the global [isFinite] agree on numbers. *)
Definition isFinite (x : float) : bool := is_finite x.
Definition isNaN (x : float) : bool := is_nan x.

(** Relational operators; every comparison with NaN is false. *)
Definition lt (a b : float) : bool := (a <? b)%float.
Definition le (a b : float) : bool := (a <=? b)%float.
Definition gt (a b : float) : bool := (b <? a)%float.
Definition ge (a b : float) : bool := (b <=? a)%float.

(** [Math.max] and [Math.min] of two numbers (NaN is contagious, and
    [-0] is below [+0]). *)
Definition Math_max (a b : float) : float :=
  if is_nan a then a else if is_nan b then b
  else if (a <? b)%float then b
  else if (b <? a)%float then a
  else if get_sign a then b else a.

Definition Math_min (a b : float) : float :=
  if is_nan a then a else if is_nan b then b
  else if (a <? b)%float then a
  else if (b <? a)%float then b
  else if get_sign a then a else b.

Definition Math_abs (a : float) : float := abs a.

(** [x || d] on numbers: [d] when [x] is [0], [-0] or NaN. *)
Definition or_else (x d : float) : float :=
  if is_zero x || is_nan x then d else x.

(** [a?.[i] ?? d] on an optional typed array. *)
Definition opt_index (a : option (list float)) (i : nat) (d : float) : float :=
  match a with
  | Some l => default d (l !! i)
  | None => d
  end.

End JS.

(** ** Configuration constants *)

Definition TARGET_FPS : float := 15.
Definition DT : float := (1 / TARGET_FPS)%float.
Definition TCN_WINDOW : nat := 90.

Definition EYE_CLOSE_T : float := 0.40.
(** [Math.round(0.8 * TARGET_FPS)] and [Math.round(2.0 * TARGET_FPS)]. *)
Definition FRM_2P5S : Z := 12.
Definition BLINK_MIN_F : Z := 2.
Definition BLINK_MAX_F : Z := 6.
Definition EYE_DEBOUNCE_ON_F : Z := 2.
Definition EYE_DEBOUNCE_OFF_F : Z := 2.
Definition BLINK_LOCK_FRM : Z := 30.

(** [30 * TARGET_FPS]. *)
Definition PER_30S : nat := 450.

Definition MOUTH_ON_T : float := 0.55.
Definition MOUTH_OFF_T : float := 0.45.
Definition MOUTH_PROLONG_S : float := 1.3.
Definition MOUTH_SHORT_MIN_S : float := 0.10.
Definition MOUTH_SHORT_MAX_S : float := 0.50.

Definition TS_MAX : float := 30.

Definition ON_THRESH : float := 0.65.
Definition OFF_THRESH : float := 0.55.

Definition NORM_SECONDS : float := 10.0.
Definition MIN_ACCEPTED : Z := 60.

(** ** Feature schema *)

Inductive FeatName : Set :=
| yaw_adj | pitch_adj | roll_adj
| dyaw_adj_per_s | dpitch_adj_per_s | droll_adj_per_s
| eye_open_unified | ema_eye_open_1s | ema_eye_open_5s | eye_open_trend_3s
| eye_close_dur_s | eye_run_len_frames | perclos_30s | blink_rate_30s
| max_close_run_10s | time_since_last_blink_s
| yawn_prob_ema_1s | mouth_open_run_s | mouth_open_rate_30s
| time_since_last_yawn_s.

Definition FEAT_ORDER : list FeatName :=
  [ yaw_adj; pitch_adj; roll_adj;
    dyaw_adj_per_s; dpitch_adj_per_s; droll_adj_per_s;
    eye_open_unified; ema_eye_open_1s; ema_eye_open_5s; eye_open_trend_3s;
    eye_close_dur_s; eye_run_len_frames; perclos_30s; blink_rate_30s;
    max_close_run_10s; time_since_last_blink_s;
    yawn_prob_ema_1s; mouth_open_run_s; mouth_open_rate_30s;
    time_since_last_yawn_s ].

Definition F : nat := length FEAT_ORDER.

(** ** Ring buffer with running sum

    [buf] is a [Float32Array], so a store rounds to binary32; [sum] is an
    ordinary number.  [count] and [i] only ever hold array indices. *)

Module Ring.

Record t : Type := mk
  { n : nat; buf : list float; sum : float; count : nat; i : nat }.

Definition new (n : nat) : t :=
  {| n := n; buf := replicate n 0%float; sum := 0; count := 0; i := 0 |}.

(** A read of [buf[i]] past the end would give [undefined], which
    arithmetic turns into NaN; an index stays below [n]. *)
Definition push (r : t) (v : float) : t :=
  if (count r <? n r)%nat then
    {| n := n r;
       buf := <[i r := JS.fround v]> (buf r);
       sum := (sum r + v)%float;
       i := (i r + 1) mod n r;
       count := count r + 1 |}
  else
    {| n := n r;
       buf := <[i r := JS.fround v]> (buf r);
       sum := (sum r - default nan (buf r !! i r) + v)%float;
       i := (i r + 1) mod n r;
       count := count r |}.

Definition mean (r : t) : float :=
  if (count r =? 0)%nat then 0%float
  else (sum r / JS.Z2F (Z.of_nat (count r)))%float.

Definition reset (r : t) : t :=
  {| n := n r; buf := replicate (length (buf r)) 0%float;
     sum := 0; count := 0; i := 0 |}.

Definition pushes (r : t) (vs : list float) : t := foldl push r vs.

End Ring.

(** ** Host functions

    [Math.exp], [Math.hypot] and [Math.atan2] belong to the JavaScript
    runtime and the temporal classifier [tcnModel] to TensorFlow.js; the
    engine is parametric in them.  [Math.exp] is used by the exponential
    filters, [Math.hypot] and [Math.atan2] by the pose front end only.
    [tcnModel] is [None] when the model failed to load; otherwise it maps
    the 90 rows of the window to the first component of its prediction. *)

Class Exp : Type := { Math_exp : float -> float }.

Class Trig : Type :=
  { Math_hypot : float -> float -> float -> float;
    Math_atan2 : float -> float -> float }.

Class Classifier : Type :=
  { tcnModel : option (list (list float) -> float) }.

Definition Math_PI : float := 0x1.921fb54442d18p+1.

(** ** Head pose: face axes, baseline calibrator, smoothed rates *)

Module Pose.

Record Vec3 : Type := vec { x : float; y : float; z : float }.

Definition vsub (a b : Vec3) : Vec3 :=
  vec (x a - x b) (y a - y b) (z a - z b).

Definition vcross (a b : Vec3) : Vec3 :=
  vec (y a * z b - z a * y b) (z a * x b - x a * z b)
      (x a * y b - y a * x b).

Record Axes : Type := axes { X : Vec3; Y : Vec3; Z : Vec3 }.

(** Rows of the captured reference rotation [R0]. *)
Record Mat3 : Type := mat { r0 : Vec3; r1 : Vec3; r2 : Vec3 }.

Definition mul (M : Mat3) (v : Vec3) : Vec3 :=
  vec (x (r0 M) * x v + y (r0 M) * y v + z (r0 M) * z v)
      (x (r1 M) * x v + y (r1 M) * y v + z (r1 M) * z v)
      (x (r2 M) * x v + y (r2 M) * y v + z (r2 M) * z v).

Definition transpose (M : Mat3) : Mat3 :=
  mat (vec (x (r0 M)) (x (r1 M)) (x (r2 M)))
      (vec (y (r0 M)) (y (r1 M)) (y (r2 M)))
      (vec (z (r0 M)) (z (r1 M)) (z (r2 M))).

(** The landmarks read by [faceAxesFromLandmarks]. *)
Record Landmarks : Type :=
  { rightEyeOuter : Vec3; leftEyeOuter : Vec3; chin : Vec3; forehead : Vec3 }.

Inductive Axis : Set := Yaw | Pitch | Roll.

Record PerAxis (A : Type) : Type := per_axis { yaw : A; pitch : A; roll : A }.
Arguments per_axis {A}.
Arguments yaw {A}.
Arguments pitch {A}.
Arguments roll {A}.

Definition get {A} (a : Axis) (p : PerAxis A) : A :=
  match a with Yaw => yaw p | Pitch => pitch p | Roll => roll p end.

Definition set {A} (a : Axis) (v : A) (p : PerAxis A) : PerAxis A :=
  match a with
  | Yaw => per_axis v (pitch p) (roll p)
  | Pitch => per_axis (yaw p) v (roll p)
  | Roll => per_axis (yaw p) (pitch p) v
  end.

Definition MAXN : nat := 5.
Definition DT_FIXED : float := (1 / 15)%float.

(** [angleBufs] and [deltaEMA]. *)
Record Smooth : Type :=
  { angleBufs : PerAxis (list float); deltaEMA : PerAxis float }.

Definition Smooth_init : Smooth :=
  {| angleBufs := per_axis [] [] []; deltaEMA := per_axis 0%float 0%float 0%float |}.

(** [buf.push(newVal); if (buf.length > MAXN) buf.shift()]. *)
Definition push_bounded (buf : list float) (v : float) : list float :=
  let b := buf ++ [v] in
  if (MAXN <? length b)%nat then drop 1 b else b.

Definition at_back (b : list float) (k : nat) : float :=
  default nan (b !! (length b - k)).

Definition getSmoothDelta (name : Axis) (newVal : float) (s : Smooth)
  : Smooth * float :=
  let b := push_bounded (get name (angleBufs s)) newVal in
  let d :=
    if (3 <=? length b)%nat then ((at_back b 1 - at_back b 3) / (2 * DT_FIXED))%float
    else if (2 <=? length b)%nat then ((at_back b 1 - at_back b 2) / DT_FIXED)%float
    else 0%float in
  let k := 0.3%float in
  let e := (get name (deltaEMA s) * (1 - k) + d * k)%float in
  ({| angleBufs := set name b (angleBufs s);
      deltaEMA := set name e (deltaEMA s) |}, e).

Section Host.
Context {T : Trig}.

Definition vnorm (v : Vec3) : float :=
  JS.or_else (Math_hypot (x v) (y v) (z v)) 1e-8.

Definition vunit (v : Vec3) : Vec3 :=
  let n := vnorm v in vec (x v / n) (y v / n) (z v / n).

Definition eulerFromAxes (a : Axes) : PerAxis float :=
  per_axis (Math_atan2 (x (Z a)) (z (Z a)))
           (Math_atan2 (y (Z a)) (z (Z a)))
           (Math_atan2 (y (X a)) (x (X a))).

Definition faceAxesFromLandmarks (lm : Landmarks) : Axes :=
  let X := vunit (vsub (leftEyeOuter lm) (rightEyeOuter lm)) in
  let Y := vunit (vsub (chin lm) (forehead lm)) in
  let Z := vunit (vcross X Y) in
  let Y := vunit (vcross Z X) in
  axes X Y Z.

(** The calibrator object: its state is [R0 : option Mat3]. *)
Definition baseline_reset : option Mat3 := None.

Definition baseline_has (R0 : option Mat3) : bool := bool_decide (is_Some R0).

Definition setManualAxes (a : Axes) : option Mat3 :=
  let Xn := vunit (X a) in
  let Zn := vunit (vcross Xn (Y a)) in
  let Yn := vunit (vcross Zn Xn) in
  Some (mat (vec (x Xn) (x Yn) (x Zn))
            (vec (y Xn) (y Yn) (y Zn))
            (vec (z Xn) (z Yn) (z Zn))).

Definition applyIfReady (R0 : option Mat3) (a : Axes) : Axes :=
  match R0 with
  | None => a
  | Some M =>
      let Rt := transpose M in
      axes (vunit (mul Rt (X a))) (vunit (mul Rt (Y a))) (vunit (mul Rt (Z a)))
  end.

Definition toDeg (r : float) : float := (r * 180 / Math_PI)%float.

End Host.

End Pose.

(** ** Eye pipeline: debounce, blink runs, prolonged closure, statistics *)

Module Eye.

(** An entry of [eyeRuns]: [{tEnd, lenFrames, durS}]. *)
Record Run : Type := run { tEnd : float; lenFrames : Z; durS : float }.

Record State : Type :=
  { eyeClosedDebounced : bool; eyeDebOn : Z; eyeDebOff : Z;
    eyeRunLenFrames : Z;
    prolongedEyeActive : bool; lastProlongStartFrame : Z;
    blinkPulse : Z;
    eyeRuns : list Run;
    lastBlinkEndTime : float; hasSeenBlink : Z;
    emaEye1 : float; emaEye5 : float;
    rbEyeClosed : Ring.t }.

(** The values the declarations give, and [startProcessing] restores. *)
Definition init : State :=
  {| eyeClosedDebounced := false; eyeDebOn := 0; eyeDebOff := 0;
     eyeRunLenFrames := 0;
     prolongedEyeActive := false; lastProlongStartFrame := -1000000000;
     blinkPulse := 0;
     eyeRuns := [];
     lastBlinkEndTime := 0; hasSeenBlink := 0;
     emaEye1 := nan; emaEye5 := nan;
     rbEyeClosed := Ring.new PER_30S |}.

(** What the eye block hands to the rest of the frame. *)
Record Out : Type :=
  { eyeClosedRaw : bool;
    perclos_30s : float;
    eye_open_trend_3s : float;
    prolonged_eye_state : bool;
    blink_state : bool;
    blink_rate_30s : float;
    max_close_run_10s : float;
    time_since_last_blink_s : float }.

Definition closedRaw (unifiedEyeProb : float) : bool :=
  negb (JS.isNaN unifiedEyeProb) && JS.lt unifiedEyeProb EYE_CLOSE_T.

Definition isBlinkLen (lenF : Z) : bool :=
  (BLINK_MIN_F <=? lenF)%Z && (lenF <=? BLINK_MAX_F)%Z.

(** [while (runs.length && runs[0].tEnd < cut) runs.shift()]. *)
Fixpoint prune (cut : float) (runs : list Run) : list Run :=
  match runs with
  | r :: rest => if JS.lt (tEnd r) cut then prune cut rest else runs
  | [] => []
  end.

(** [rbEyeClosed.push(eyeClosedRaw)]. *)
Definition pushRing (raw : bool) (s : State) : State :=
  {| eyeClosedDebounced := eyeClosedDebounced s; eyeDebOn := eyeDebOn s;
     eyeDebOff := eyeDebOff s; eyeRunLenFrames := eyeRunLenFrames s;
     prolongedEyeActive := prolongedEyeActive s;
     lastProlongStartFrame := lastProlongStartFrame s;
     blinkPulse := blinkPulse s; eyeRuns := eyeRuns s;
     lastBlinkEndTime := lastBlinkEndTime s; hasSeenBlink := hasSeenBlink s;
     emaEye1 := emaEye1 s; emaEye5 := emaEye5 s;
     rbEyeClosed := Ring.push (rbEyeClosed s) (if raw then 1 else 0)%float |}.

(** The debounce block, ending with [if (eyeClosedDebounced)
    eyeRunLenFrames++]. *)
Definition debounce (raw : bool) (nowSec : float) (s : State) : State :=
  let s1 :=
    if raw then
      let on := (eyeDebOn s + 1)%Z in
      let closes := negb (eyeClosedDebounced s) && (EYE_DEBOUNCE_ON_F <=? on)%Z in
      {| eyeClosedDebounced := if closes then true else eyeClosedDebounced s;
         eyeDebOn := on; eyeDebOff := 0;
         eyeRunLenFrames := if closes then 0 else eyeRunLenFrames s;
         prolongedEyeActive := prolongedEyeActive s;
         lastProlongStartFrame := lastProlongStartFrame s;
         blinkPulse := blinkPulse s; eyeRuns := eyeRuns s;
         lastBlinkEndTime := lastBlinkEndTime s; hasSeenBlink := hasSeenBlink s;
         emaEye1 := emaEye1 s; emaEye5 := emaEye5 s;
         rbEyeClosed := rbEyeClosed s |}
    else
      let off := (eyeDebOff s + 1)%Z in
      if eyeClosedDebounced s && (EYE_DEBOUNCE_OFF_F <=? off)%Z then
        let lenF := eyeRunLenFrames s in
        let durS := (JS.Z2F lenF * DT)%float in
        let runs := eyeRuns s ++ [run nowSec lenF durS] in
        let cut30 := (nowSec - 30.0)%float in
        let blink := isBlinkLen lenF in
        {| eyeClosedDebounced := false;
           eyeDebOn := 0; eyeDebOff := off;
           eyeRunLenFrames := 0;
           prolongedEyeActive := prolongedEyeActive s;
           lastProlongStartFrame := lastProlongStartFrame s;
           blinkPulse := if blink then 1 else blinkPulse s;
           eyeRuns := prune cut30 runs;
           lastBlinkEndTime := if blink then nowSec else lastBlinkEndTime s;
           hasSeenBlink := if blink then 1 else hasSeenBlink s;
           emaEye1 := emaEye1 s; emaEye5 := emaEye5 s;
           rbEyeClosed := rbEyeClosed s |}
      else
        {| eyeClosedDebounced := eyeClosedDebounced s;
           eyeDebOn := 0; eyeDebOff := off;
           eyeRunLenFrames := eyeRunLenFrames s;
           prolongedEyeActive := prolongedEyeActive s;
           lastProlongStartFrame := lastProlongStartFrame s;
           blinkPulse := blinkPulse s; eyeRuns := eyeRuns s;
           lastBlinkEndTime := lastBlinkEndTime s; hasSeenBlink := hasSeenBlink s;
           emaEye1 := emaEye1 s; emaEye5 := emaEye5 s;
           rbEyeClosed := rbEyeClosed s |} in
  {| eyeClosedDebounced := eyeClosedDebounced s1;
     eyeDebOn := eyeDebOn s1; eyeDebOff := eyeDebOff s1;
     eyeRunLenFrames :=
       if eyeClosedDebounced s1 then (eyeRunLenFrames s1 + 1)%Z
       else eyeRunLenFrames s1;
     prolongedEyeActive := prolongedEyeActive s1;
     lastProlongStartFrame := lastProlongStartFrame s1;
     blinkPulse := blinkPulse s1; eyeRuns := eyeRuns s1;
     lastBlinkEndTime := lastBlinkEndTime s1; hasSeenBlink := hasSeenBlink s1;
     emaEye1 := emaEye1 s1; emaEye5 := emaEye5 s1;
     rbEyeClosed := rbEyeClosed s1 |}.

(** The prolonged-closure block; [featLen] is [featBuf.length]. *)
Definition prolonged (featLen : nat) (s : State) : State :=
  let starts :=
    eyeClosedDebounced s && negb (prolongedEyeActive s)
    && (FRM_2P5S <=? eyeRunLenFrames s)%Z
    && (BLINK_LOCK_FRM <=? Z.of_nat featLen - lastProlongStartFrame s)%Z in
  {| eyeClosedDebounced := eyeClosedDebounced s;
     eyeDebOn := eyeDebOn s; eyeDebOff := eyeDebOff s;
     eyeRunLenFrames := eyeRunLenFrames s;
     prolongedEyeActive :=
       if eyeClosedDebounced s
       then (if starts then true else prolongedEyeActive s)
       else false;
     lastProlongStartFrame :=
       if starts then Z.of_nat featLen else lastProlongStartFrame s;
     blinkPulse := blinkPulse s; eyeRuns := eyeRuns s;
     lastBlinkEndTime := lastBlinkEndTime s; hasSeenBlink := hasSeenBlink s;
     emaEye1 := emaEye1 s; emaEye5 := emaEye5 s;
     rbEyeClosed := rbEyeClosed s |}.

(** [if (blinkPulse > 0) blinkPulse--]. *)
Definition decayPulse (s : State) : State :=
  {| eyeClosedDebounced := eyeClosedDebounced s;
     eyeDebOn := eyeDebOn s; eyeDebOff := eyeDebOff s;
     eyeRunLenFrames := eyeRunLenFrames s;
     prolongedEyeActive := prolongedEyeActive s;
     lastProlongStartFrame := lastProlongStartFrame s;
     blinkPulse := if (0 <? blinkPulse s)%Z then (blinkPulse s - 1)%Z else blinkPulse s;
     eyeRuns := eyeRuns s;
     lastBlinkEndTime := lastBlinkEndTime s; hasSeenBlink := hasSeenBlink s;
     emaEye1 := emaEye1 s; emaEye5 := emaEye5 s;
     rbEyeClosed := rbEyeClosed s |}.

(** The loop over [eyeRuns] computing [blinks30] and [max_close_run_10s]. *)
Definition blinks30 (cut30 : float) (runs : list Run) : Z :=
  Z.of_nat (length (filter
    (fun r => JS.ge (tEnd r) cut30 && isBlinkLen (lenFrames r) = true) runs)).

Definition maxCloseRun (cut10 : float) (runs : list Run) : float :=
  foldl (fun m r => if JS.ge (tEnd r) cut10 && JS.gt (durS r) m then durS r else m)
        0%float runs.

Section Host.
Context {E : Exp}.

(** The two exponential filters, initialised on the first frame.
    Both branches of the source read [emaEye1] and [emaEye5] as they
    were before the frame. *)
Definition updateEma (unifiedEyeProb : float) (s : State) : State :=
  let fresh := negb (JS.isFinite (emaEye1 s)) in
  let v :=
    if fresh then (if JS.isFinite unifiedEyeProb then unifiedEyeProb else 1.0%float)
    else (if JS.isFinite unifiedEyeProb then unifiedEyeProb else emaEye1 s) in
  {| eyeClosedDebounced := eyeClosedDebounced s;
     eyeDebOn := eyeDebOn s; eyeDebOff := eyeDebOff s;
     eyeRunLenFrames := eyeRunLenFrames s;
     prolongedEyeActive := prolongedEyeActive s;
     lastProlongStartFrame := lastProlongStartFrame s;
     blinkPulse := blinkPulse s; eyeRuns := eyeRuns s;
     lastBlinkEndTime := lastBlinkEndTime s; hasSeenBlink := hasSeenBlink s;
     emaEye1 :=
       if fresh then v
       else (emaEye1 s + (1 - Math_exp (- DT / 1.0)) * (v - emaEye1 s))%float;
     emaEye5 :=
       if fresh then v
       else (emaEye5 s + (1 - Math_exp (- DT / 5.0)) * (v - emaEye5 s))%float;
     rbEyeClosed := rbEyeClosed s |}.

(** The whole "Eye pipeline" block of the frame handler. *)
Definition step (unifiedEyeProb nowSec : float) (featLen : nat) (s : State)
  : State * Out :=
  let raw := closedRaw unifiedEyeProb in
  let s := pushRing raw s in
  let perclos := Ring.mean (rbEyeClosed s) in
  let s := updateEma unifiedEyeProb s in
  let trend := (emaEye1 s - emaEye5 s)%float in
  let s := debounce raw nowSec s in
  let s := prolonged featLen s in
  let blink := (0 <? blinkPulse s)%Z && negb (eyeClosedDebounced s) in
  let s := decayPulse s in
  let cut10 := (nowSec - 10.0)%float in
  let cut30 := (nowSec - 30.0)%float in
  (s, {| eyeClosedRaw := raw;
         perclos_30s := perclos;
         eye_open_trend_3s := trend;
         prolonged_eye_state := prolongedEyeActive s;
         blink_state := blink;
         blink_rate_30s := (JS.Z2F (blinks30 cut30 (eyeRuns s)) / 30.0)%float;
         max_close_run_10s := maxCloseRun cut10 (eyeRuns s);
         time_since_last_blink_s :=
           JS.Math_min (JS.Math_max 0 (nowSec - lastBlinkEndTime s)) TS_MAX |}).

End Host.

End Eye.

(** ** Mouth pipeline: yawn EMA, hysteresis, yawn runs *)

Module Mouth.

(** An entry of [mouthRuns]: [{tEnd, durS}]. *)
Record Run : Type := run { tEnd : float; durS : float }.

Record State : Type :=
  { yawnEma1 : float;
    mouthOpen : bool; mouthRunFrames : Z; yawnProlonged : bool;
    mouthRuns : list Run;
    yawnPulse : Z; lastYawnEndTime : float }.

Definition init : State :=
  {| yawnEma1 := nan;
     mouthOpen := false; mouthRunFrames := 0; yawnProlonged := false;
     mouthRuns := [];
     yawnPulse := 0; lastYawnEndTime := 0 |}.

Record Out : Type :=
  { mouth_open_state : bool;
    mouth_open_run_s : float;
    yawn_prolonged_state : bool;
    yawn_event_state : bool;
    mouth_open_rate_30s : float;
    time_since_last_yawn_s : float }.

Fixpoint prune (cut : float) (runs : list Run) : list Run :=
  match runs with
  | r :: rest => if JS.lt (tEnd r) cut then prune cut rest else runs
  | [] => []
  end.

(** The open/closed block, run on the already updated [yawnEma1]. *)
Definition hysteresis (tNowSec : float) (s : State) : State :=
  if mouthOpen s then
    if JS.le (yawnEma1 s) MOUTH_OFF_T then
      let durS := (JS.Z2F (mouthRunFrames s) * DT)%float in
      let runs := mouthRuns s ++ [run tNowSec durS] in
      let cutM30 := (tNowSec - 30.0)%float in
      let yawn := JS.ge durS MOUTH_PROLONG_S in
      {| yawnEma1 := yawnEma1 s;
         mouthOpen := false; mouthRunFrames := 0; yawnProlonged := false;
         mouthRuns := prune cutM30 runs;
         yawnPulse := if yawn then 1 else yawnPulse s;
         lastYawnEndTime := if yawn then tNowSec else lastYawnEndTime s |}
    else
      let frames := (mouthRunFrames s + 1)%Z in
      {| yawnEma1 := yawnEma1 s;
         mouthOpen := true; mouthRunFrames := frames;
         yawnProlonged :=
           if negb (yawnProlonged s) && JS.ge (JS.Z2F frames * DT) MOUTH_PROLONG_S
           then true else yawnProlonged s;
         mouthRuns := mouthRuns s;
         yawnPulse := yawnPulse s; lastYawnEndTime := lastYawnEndTime s |}
  else
    if JS.ge (yawnEma1 s) MOUTH_ON_T then
      {| yawnEma1 := yawnEma1 s;
         mouthOpen := true; mouthRunFrames := 1; yawnProlonged := false;
         mouthRuns := mouthRuns s;
         yawnPulse := yawnPulse s; lastYawnEndTime := lastYawnEndTime s |}
    else s.

(** [if (yawnPulse > 0) yawnPulse--]. *)
Definition decayPulse (s : State) : State :=
  {| yawnEma1 := yawnEma1 s;
     mouthOpen := mouthOpen s; mouthRunFrames := mouthRunFrames s;
     yawnProlonged := yawnProlonged s;
     mouthRuns := mouthRuns s;
     yawnPulse := if (0 <? yawnPulse s)%Z then (yawnPulse s - 1)%Z else yawnPulse s;
     lastYawnEndTime := lastYawnEndTime s |}.

Definition mouthShort30 (cut30 : float) (runs : list Run) : Z :=
  Z.of_nat (length (filter
    (fun r => JS.ge (tEnd r) cut30 && JS.ge (durS r) MOUTH_SHORT_MIN_S
              && JS.le (durS r) MOUTH_SHORT_MAX_S = true) runs)).

Section Host.
Context {E : Exp}.

Definition updateEma (yawnProb : float) (s : State) : State :=
  {| yawnEma1 :=
       if negb (JS.isFinite (yawnEma1 s)) then
         (if JS.isFinite yawnProb then yawnProb else 0%float)
       else
         let vy := if JS.isFinite yawnProb then yawnProb else yawnEma1 s in
         (yawnEma1 s + (1 - Math_exp (- DT / 1.0)) * (vy - yawnEma1 s))%float;
     mouthOpen := mouthOpen s; mouthRunFrames := mouthRunFrames s;
     yawnProlonged := yawnProlonged s;
     mouthRuns := mouthRuns s;
     yawnPulse := yawnPulse s; lastYawnEndTime := lastYawnEndTime s |}.

(** The whole "Mouth / yawn" block of the frame handler. *)
Definition step (yawnProb tNowSec : float) (s : State) : State * Out :=
  let s := updateEma yawnProb s in
  let s := hysteresis tNowSec s in
  let event := negb (mouthOpen s) && (0 <? yawnPulse s)%Z in
  let s := decayPulse s in
  let cut30 := (tNowSec - 30.0)%float in
  (s, {| mouth_open_state := mouthOpen s;
         mouth_open_run_s :=
           if mouthOpen s then (JS.Z2F (mouthRunFrames s) * DT)%float else 0%float;
         yawn_prolonged_state := yawnProlonged s;
         yawn_event_state := event;
         mouth_open_rate_30s := (JS.Z2F (mouthShort30 cut30 (mouthRuns s)) / 30.0)%float;
         time_since_last_yawn_s :=
           JS.Math_min (JS.Math_max 0 (tNowSec - lastYawnEndTime s)) TS_MAX |}).

End Host.

End Mouth.

(** ** Nod rule *)

Module Nod.

Record State : Type := { nodActive : bool; stableFrames : Z }.

Definition init : State := {| nodActive := false; stableFrames := 0 |}.

Definition step (prolonged_eye_state eyeClosed : bool)
    (yawDeg pitchDeg rollDeg : float) (s : State) : State :=
  let s1 :=
    if prolonged_eye_state && JS.le pitchDeg (-4)
       && JS.le (JS.Math_abs rollDeg) 20 && JS.le (JS.Math_abs yawDeg) 10
    then {| nodActive := true; stableFrames := stableFrames s |}
    else s in
  if negb eyeClosed || JS.gt (JS.Math_abs yawDeg) 10 || JS.ge pitchDeg (-2)
  then {| nodActive := false; stableFrames := 0 |}
  else s1.

End Nod.

(** ** Feature assembly *)

Module Feat.

(** The argument object of [buildRawFeatures]. *)
Record Obj : Type :=
  { yawDeg : float; pitchDeg : float; rollDeg : float;
    dYaw : float; dPitch : float; dRoll : float;
    o_eye_open_unified : float;
    o_ema_eye_open_1s : float;
    o_ema_eye_open_5s : float;
    o_eye_open_trend_3s : float;
    o_eye_close_dur_s : float;
    o_eye_run_len_frames : float;
    o_perclos_30s : float;
    o_blink_rate_30s : float;
    o_max_close_run_10s : float;
    o_time_since_last_blink_s : float;
    o_yawn_prob_ema_1s : float;
    o_mouth_open_run_s : float;
    o_mouth_open_rate_30s : float;
    o_time_since_last_yawn_s : float }.

Definition finiteOr (v def : float) : float :=
  if JS.isFinite v then v else def.

(** The object [buildRawFeatures] returns, read by key. *)
Definition buildRawFeatures (obj : Obj) (key : FeatName) : float :=
  match key with
  | yaw_adj => yawDeg obj
  | pitch_adj => pitchDeg obj
  | roll_adj => rollDeg obj
  | dyaw_adj_per_s => dYaw obj
  | dpitch_adj_per_s => dPitch obj
  | droll_adj_per_s => dRoll obj
  | eye_open_unified => finiteOr (o_eye_open_unified obj) 0.5
  | ema_eye_open_1s => finiteOr (o_ema_eye_open_1s obj) 0.5
  | ema_eye_open_5s => finiteOr (o_ema_eye_open_5s obj) 0.5
  | eye_open_trend_3s => finiteOr (o_eye_open_trend_3s obj) 0.0
  | eye_close_dur_s => finiteOr (o_eye_close_dur_s obj) 0.0
  | eye_run_len_frames => o_eye_run_len_frames obj
  | perclos_30s => finiteOr (o_perclos_30s obj) 0.0
  | blink_rate_30s => finiteOr (o_blink_rate_30s obj) 0.0
  | max_close_run_10s => finiteOr (o_max_close_run_10s obj) 0.0
  | time_since_last_blink_s => finiteOr (o_time_since_last_blink_s obj) 0.0
  | yawn_prob_ema_1s => finiteOr (o_yawn_prob_ema_1s obj) 0.0
  | mouth_open_run_s => finiteOr (o_mouth_open_run_s obj) 0.0
  | mouth_open_rate_30s => finiteOr (o_mouth_open_rate_30s obj) 0.0
  | time_since_last_yawn_s => finiteOr (o_time_since_last_yawn_s obj) 0.0
  end.

(** The [Float32Array] of the features in schema order. *)
Definition rawToVector (raw : FeatName -> float) : list float :=
  map (fun key => JS.fround (raw key)) FEAT_ORDER.

(** The row [pushFrameFeatures] computes from the stored statistics. *)
Definition normalizedRow (mu sigma : option (list float))
    (raw : FeatName -> float) : list float :=
  imap (fun i key =>
          let v := raw key in
          let m := JS.opt_index mu i 0 in
          let s := JS.Math_max 1e-3 (JS.opt_index sigma i 1) in
          JS.fround ((v - m) / s)) FEAT_ORDER.

(** [featBuf.push(row); if (featBuf.length > TCN_WINDOW) featBuf.shift()]. *)
Definition pushRow (featBuf : list (list float)) (row : list float)
  : list (list float) :=
  let b := featBuf ++ [row] in
  if (TCN_WINDOW <? length b)%nat then drop 1 b else b.

End Feat.

(** ** Baseline normaliser: per-session mean and standard deviation *)

Module Norm.

(** The text shown in [normSummary]. *)
Inductive Summary : Type :=
| Disabled | WillCollect | Collecting | Unstable | Ready (N : Z).

Record State : Type :=
  { normalizationEnabled : bool;
    normMode : bool; normT0 : float; baseCnt : Z;
    baseSum : list float; baseSqSum : list float;
    mu : option (list float); sigma : option (list float);
    normSummary : Summary }.

(** The values of the declarations at load time. *)
Definition init : State :=
  {| normalizationEnabled := false;
     normMode := false; normT0 := 0; baseCnt := 0;
     baseSum := replicate F 0%float; baseSqSum := replicate F 0%float;
     mu := None; sigma := None;
     normSummary := Disabled |}.

Definition setNormalizationEnabled (enabled : bool) (s : State) : State :=
  {| normalizationEnabled := enabled;
     normMode := normMode s; normT0 := normT0 s; baseCnt := baseCnt s;
     baseSum := baseSum s; baseSqSum := baseSqSum s;
     mu := mu s; sigma := sigma s;
     normSummary := if enabled then WillCollect else Disabled |}.

(** [clock] is the value of [performance.now()/1000] read by the call. *)
Definition resetNorm (clock : float) (s : State) : State :=
  if negb (normalizationEnabled s) then
    {| normalizationEnabled := normalizationEnabled s;
       normMode := false; normT0 := normT0 s; baseCnt := baseCnt s;
       baseSum := baseSum s; baseSqSum := baseSqSum s;
       mu := mu s; sigma := sigma s;
       normSummary := Disabled |}
  else
    {| normalizationEnabled := normalizationEnabled s;
       normMode := true; normT0 := clock; baseCnt := 0;
       baseSum := replicate (length (baseSum s)) 0%float;
       baseSqSum := replicate (length (baseSqSum s)) 0%float;
       mu := mu s; sigma := sigma s;
       normSummary := Collecting |}.

Definition addNormSample (v : list float) (s : State) : State :=
  {| normalizationEnabled := normalizationEnabled s;
     normMode := normMode s; normT0 := normT0 s;
     baseCnt := (baseCnt s + 1)%Z;
     baseSum := zip_with (fun a x => (a + x)%float) (baseSum s) v;
     baseSqSum := zip_with (fun a x => (a + x * x)%float) (baseSqSum s) v;
     mu := mu s; sigma := sigma s;
     normSummary := normSummary s |}.

(** The mean and deviation [finalizeNorm] stores for one feature. *)
Definition meanOf (cnt : Z) (sum : float) : float := (sum / JS.Z2F cnt)%float.

Definition varOf (cnt : Z) (sum sq : float) : float :=
  let m := meanOf cnt sum in
  JS.Math_max 1e-6 (sq / JS.Z2F cnt - m * m).

Definition finalizeNorm (s : State) : bool * State :=
  if negb (normMode s) then (true, s)
  else if (baseCnt s <? MIN_ACCEPTED)%Z then (false, s)
  else
    let cnt := baseCnt s in
    (true,
     {| normalizationEnabled := normalizationEnabled s;
        normMode := normMode s; normT0 := normT0 s; baseCnt := cnt;
        baseSum := baseSum s; baseSqSum := baseSqSum s;
        mu := Some (map (fun sum => JS.fround (meanOf cnt sum)) (baseSum s));
        sigma := Some (zip_with (fun sum sq => JS.fround (sqrt (varOf cnt sum sq)))
                                (baseSum s) (baseSqSum s));
        normSummary := Ready cnt |}).

Definition withMode (m : bool) (s : State) : State :=
  {| normalizationEnabled := normalizationEnabled s;
     normMode := m; normT0 := normT0 s; baseCnt := baseCnt s;
     baseSum := baseSum s; baseSqSum := baseSqSum s;
     mu := mu s; sigma := sigma s;
     normSummary := normSummary s |}.

Definition withSummary (t : Summary) (s : State) : State :=
  {| normalizationEnabled := normalizationEnabled s;
     normMode := normMode s; normT0 := normT0 s; baseCnt := baseCnt s;
     baseSum := baseSum s; baseSqSum := baseSqSum s;
     mu := mu s; sigma := sigma s;
     normSummary := t |}.

(** The "μ/σ collection" block of the frame handler; [clock] is the
    value of [performance.now()/1000] read there. *)
Definition collect (clock : float) (raw : FeatName -> float) (s : State) : State :=
  if normMode s then
    let elapsed := (clock - normT0 s)%float in
    let s := addNormSample (Feat.rawToVector raw) s in
    if JS.ge elapsed NORM_SECONDS then
      let s := withMode false s in
      let r := finalizeNorm s in
      if negb r.1 then withSummary Unstable r.2 else r.2
    else s
  else s.

End Norm.

(** ** Temporal window and classifier hysteresis *)

Module Tcn.

(** The text shown in [tcnText]. *)
Inductive Text : Type :=
| Blank
| NotLoaded
| Warming (len : nat)
| Awaiting
| Verdict (drowsy : bool) (prob : float).

Record State : Type :=
  { featBuf : list (list float); tcnIsDrowsy : bool; tcnText : Text }.

Definition init : State :=
  {| featBuf := []; tcnIsDrowsy := false; tcnText := Blank |}.

Definition pushFrameFeatures (n : Norm.State) (raw : FeatName -> float)
    (s : State) : State :=
  {| featBuf := Feat.pushRow (featBuf s)
                  (Feat.normalizedRow (Norm.mu n) (Norm.sigma n) raw);
     tcnIsDrowsy := tcnIsDrowsy s; tcnText := tcnText s |}.

Definition hysteresis (drowsy : bool) (prob : float) : bool :=
  if negb drowsy && JS.ge prob ON_THRESH then true
  else if drowsy && JS.le prob OFF_THRESH then false
  else drowsy.

Section Host.
Context {C : Classifier}.

(** Returns the new state and the probability obtained from the
    classifier when it was invoked. *)
Definition tcnPredictIfReady (n : Norm.State) (s : State)
  : State * option float :=
  match tcnModel with
  | None =>
      ({| featBuf := featBuf s; tcnIsDrowsy := tcnIsDrowsy s;
          tcnText := NotLoaded |}, None)
  | Some predict =>
      if (length (featBuf s) <? TCN_WINDOW)%nat then
        ({| featBuf := featBuf s; tcnIsDrowsy := tcnIsDrowsy s;
            tcnText :=
              if bool_decide (is_Some (Norm.mu n)) then Warming (length (featBuf s))
              else if Norm.normalizationEnabled n then Awaiting
              else Warming (length (featBuf s)) |}, None)
      else
        let prob := predict (take TCN_WINDOW (featBuf s)) in
        let d := hysteresis (tcnIsDrowsy s) prob in
        ({| featBuf := featBuf s; tcnIsDrowsy := d;
            tcnText := Verdict d prob |}, Some prob)
  end.

End Host.

End Tcn.

(** ** The engine: session state, start/stop, and the frame handler *)

Inductive DominantEye : Set := EyeLeft | EyeRight | EyeBoth.

Record State : Type :=
  { runningFlag : bool;
    baselineCaptured : bool;
    dominantEye : DominantEye;
    baseline : option Pose.Mat3;
    smooth : Pose.Smooth;
    norm : Norm.State;
    eye : Eye.State;
    mouth : Mouth.State;
    nod : Nod.State;
    tcn : Tcn.State }.

(** The state right after the script has loaded. *)
Definition loaded : State :=
  {| runningFlag := false;
     baselineCaptured := false;
     dominantEye := EyeBoth;
     baseline := None;
     smooth := Pose.Smooth_init;
     norm := Norm.init;
     eye := Eye.init;
     mouth := Mouth.init;
     nod := Nod.init;
     tcn := Tcn.init |}.

Definition resetEye (e : Eye.State) : Eye.State :=
  {| Eye.eyeClosedDebounced := false; Eye.eyeDebOn := 0; Eye.eyeDebOff := 0;
     Eye.eyeRunLenFrames := 0;
     Eye.prolongedEyeActive := false; Eye.lastProlongStartFrame := -1000000000;
     Eye.blinkPulse := 0;
     Eye.eyeRuns := []; Eye.lastBlinkEndTime := 0; Eye.hasSeenBlink := 0;
     Eye.emaEye1 := nan; Eye.emaEye5 := nan;
     Eye.rbEyeClosed := Ring.reset (Eye.rbEyeClosed e) |}.

(** [startProcessing]; [camera] is [streamFlag || videoEl.srcObject]. *)
Definition startProcessing (camera : bool) (s : State) : State :=
  if negb camera then s
  else
    {| runningFlag := true;
       baselineCaptured := false;
       dominantEye := EyeBoth;
       baseline := Pose.baseline_reset;
       smooth := smooth s;
       norm := norm s;
       eye := resetEye (eye s);
       mouth := Mouth.init;
       nod := Nod.init;
       tcn := Tcn.init |}.

Definition stopProcessing (s : State) : State :=
  {| runningFlag := false;
     baselineCaptured := baselineCaptured s;
     dominantEye := dominantEye s;
     baseline := baseline s;
     smooth := smooth s;
     norm := norm s;
     eye := eye s; mouth := mouth s; nod := nod s; tcn := tcn s |}.

Definition setNormalizationEnabled (enabled : bool) (s : State) : State :=
  {| runningFlag := runningFlag s;
     baselineCaptured := baselineCaptured s;
     dominantEye := dominantEye s;
     baseline := baseline s;
     smooth := smooth s;
     norm := Norm.setNormalizationEnabled enabled (norm s);
     eye := eye s; mouth := mouth s; nod := nod s; tcn := tcn s |}.

(** What one frame delivers to the engine once the pose is known:
    the adjusted angles, the two probabilities (NaN when a crop was
    missing), the frame time [nowSec] and the clock read by the
    normalisation block. *)
Record Tick : Type :=
  { t_yawDeg : float; t_pitchDeg : float; t_rollDeg : float;
    unifiedEyeProb : float; yawnProb : float;
    nowSec : float; clockNorm : float }.

(** What the engine exposes after a frame. *)
Record Output : Type :=
  { rawFeat : FeatName -> float;
    eyeOut : Eye.Out;
    mouthOut : Mouth.Out;
    nodOut : bool;
    classifierProb : option float }.

Section Engine.
Context {E : Exp} {T : Trig} {C : Classifier}.

(** The frame handler from [getSmoothDelta] on: rates, eye, mouth, nod,
    feature assembly, normalisation, window push and classifier. *)
Definition processTick (i : Tick) (s : State) : State * Output :=
  let ry := Pose.getSmoothDelta Pose.Yaw (t_yawDeg i) (smooth s) in
  let rp := Pose.getSmoothDelta Pose.Pitch (t_pitchDeg i) ry.1 in
  let rr := Pose.getSmoothDelta Pose.Roll (t_rollDeg i) rp.1 in
  let re :=
    Eye.step (unifiedEyeProb i) (nowSec i) (length (Tcn.featBuf (tcn s))) (eye s) in
  let e := re.1 in
  let eo := re.2 in
  let rm := Mouth.step (yawnProb i) (nowSec i) (mouth s) in
  let m := rm.1 in
  let mo := rm.2 in
  let nd :=
    Nod.step (Eye.prolonged_eye_state eo) (Eye.eyeClosedRaw eo)
             (t_yawDeg i) (t_pitchDeg i) (t_rollDeg i) (nod s) in
  let raw :=
    Feat.buildRawFeatures
      {| Feat.yawDeg := t_yawDeg i; Feat.pitchDeg := t_pitchDeg i;
         Feat.rollDeg := t_rollDeg i;
         Feat.dYaw := ry.2; Feat.dPitch := rp.2; Feat.dRoll := rr.2;
         Feat.o_eye_open_unified := unifiedEyeProb i;
         Feat.o_ema_eye_open_1s := Eye.emaEye1 e;
         Feat.o_ema_eye_open_5s := Eye.emaEye5 e;
         Feat.o_eye_open_trend_3s := Eye.eye_open_trend_3s eo;
         Feat.o_eye_close_dur_s :=
           if Eye.eyeClosedDebounced e
           then (JS.Z2F (Eye.eyeRunLenFrames e) * DT)%float else 0%float;
         Feat.o_eye_run_len_frames := JS.Z2F (Eye.eyeRunLenFrames e);
         Feat.o_perclos_30s := Eye.perclos_30s eo;
         Feat.o_blink_rate_30s := Eye.blink_rate_30s eo;
         Feat.o_max_close_run_10s :=
           if JS.isFinite (Eye.max_close_run_10s eo)
           then Eye.max_close_run_10s eo else 0%float;
         Feat.o_time_since_last_blink_s := Eye.time_since_last_blink_s eo;
         Feat.o_yawn_prob_ema_1s := Mouth.yawnEma1 m;
         Feat.o_mouth_open_run_s := Mouth.mouth_open_run_s mo;
         Feat.o_mouth_open_rate_30s := Mouth.mouth_open_rate_30s mo;
         Feat.o_time_since_last_yawn_s := Mouth.time_since_last_yawn_s mo |} in
  let n := Norm.collect (clockNorm i) raw (norm s) in
  let rt := Tcn.tcnPredictIfReady n (Tcn.pushFrameFeatures n raw (tcn s)) in
  ({| runningFlag := runningFlag s;
      baselineCaptured := baselineCaptured s;
      dominantEye := dominantEye s;
      baseline := baseline s;
      smooth := rr.1; norm := n; eye := e; mouth := m; nod := nd; tcn := rt.1 |},
   {| rawFeat := raw; eyeOut := eo; mouthOut := mo;
      nodOut := Nod.nodActive nd; classifierProb := rt.2 |}).

(** A result of FaceMesh: the landmarks, the outputs of the eye model
    on the two eye crops and of the yawn model on the mouth crop
    ([None] when a crop could not be taken), and the clock values read
    by the handler, by [resetNorm] and by the normalisation block. *)
Record Frame : Type :=
  { f_nowSec : float; f_clockReset : float; f_clockNorm : float;
    lm : Pose.Landmarks;
    eyePred : option (float * float);
    yawnPred : option float }.

(** The weighted combination of the two eye probabilities. *)
Definition unifyEyes (yawDeg : float) (p : option (float * float)) : float :=
  match p with
  | None => nan
  | Some (eyeLProb, eyeRProb) =>
      let yawAbs := JS.Math_abs yawDeg in
      let maxYaw := 20%float in
      let yawClamped := JS.Math_min yawAbs maxYaw in
      let w := JS.Math_max 0.1 (1 - yawClamped / maxYaw) in
      let wL := if JS.ge yawDeg 0 then 1.0%float else w in
      let wR := if JS.le yawDeg 0 then 1.0%float else w in
      ((eyeLProb * wL + eyeRProb * wR) / (wL + wR))%float
  end.

(** The "Initial baseline snapshot" block. *)
Definition captureBaseline (clock : float) (preAxes : Pose.Axes) (s : State) : State :=
  if baselineCaptured s then s
  else
    let rawYawDeg :=
      Pose.toDeg (Math_atan2 (Pose.x (Pose.Z preAxes)) (Pose.z (Pose.Z preAxes))) in
    {| runningFlag := runningFlag s;
       baselineCaptured := true;
       dominantEye :=
         if JS.gt rawYawDeg 10 then EyeRight
         else if JS.lt rawYawDeg (-10) then EyeLeft else EyeBoth;
       baseline := Pose.setManualAxes preAxes;
       smooth := smooth s;
       norm := Norm.resetNorm clock (norm s);
       eye := eye s; mouth := mouth s; nod := nod s; tcn := tcn s |}.

(** The pose and the two probabilities the handler derives from a
    result; the angles are taken against the baseline held before this
    result. *)
Definition poseTick (fr : Frame) (s : State) : Tick :=
  let preAxes := Pose.faceAxesFromLandmarks (lm fr) in
  let a :=
    if Pose.baseline_has (baseline s)
    then Pose.applyIfReady (baseline s) preAxes else preAxes in
  let e := Pose.eulerFromAxes a in
  let yawDeg := Pose.toDeg (Pose.yaw e) in
  let pitchDeg := Pose.toDeg (Pose.pitch e) in
  let rollDeg := Pose.toDeg (Pose.roll e) in
  {| t_yawDeg := yawDeg; t_pitchDeg := pitchDeg; t_rollDeg := rollDeg;
     unifiedEyeProb := unifyEyes yawDeg (eyePred fr);
     yawnProb := default nan (yawnPred fr);
     nowSec := f_nowSec fr; clockNorm := f_clockNorm fr |}.

(** [faceMesh.onResults]: nothing happens unless the session runs and
    a face was found. *)
Definition onResults (res : option Frame) (s : State) : State * option Output :=
  if negb (runningFlag s) then (s, None)
  else
    match res with
    | None => (s, None)
    | Some fr =>
        let preAxes := Pose.faceAxesFromLandmarks (lm fr) in
        let r :=
          processTick (poseTick fr s)
            (captureBaseline (f_clockReset fr) preAxes s) in
        (r.1, Some r.2)
    end.

End Engine.

(** ** The window a ring holds *)

(** The number pushed for a raw eye-closed flag, [eyeClosedRaw ? 1 : 0]. *)
Definition sample (b : bool) : float := if b then 1%float else 0%float.

(** How many flags of a window are set. *)
Definition ones (w : list bool) : Z :=
  foldr (fun (b : bool) acc => ((if b then 1 else 0) + acc)%Z) 0%Z w.

(** The last [n] elements of a stream, and the effect of one more element
    on them. *)
Definition window {A} (n : nat) (vs : list A) : list A := drop (length vs - n) vs.

Definition slide {A} (n : nat) (w : list A) (v : A) : list A :=
  let w' := w ++ [v] in if (n <? length w')%nat then drop 1 w' else w'.

(** The samples a ring holds, oldest first. *)
Definition resident (r : Ring.t) : list float :=
  if (Ring.count r <? Ring.n r)%nat then take (Ring.count r) (Ring.buf r)
  else drop (Ring.i r) (Ring.buf r) ++ take (Ring.i r) (Ring.buf r).

(** The arithmetic mean of a window of flags, as a binary64 quotient. *)
Definition arith_mean (w : list bool) : float :=
  if (length w =? 0)%nat then 0%float
  else (JS.Z2F (ones w) / JS.Z2F (Z.of_nat (length w)))%float.

(** A ring of capacity at most 450 that holds the window [w]. *)
Record RingInv (r : Ring.t) (w : list bool) : Prop :=
  { inv_len : length (Ring.buf r) = Ring.n r;
    inv_cap : 0 < Ring.n r <= PER_30S;
    inv_idx : Ring.count r < Ring.n r /\ Ring.i r = Ring.count r
              \/ Ring.count r = Ring.n r /\ Ring.i r < Ring.n r;
    inv_res : resident r = sample <$> w;
    inv_sum : Ring.sum r = JS.Z2F (ones w) }.

(** The integers a running sum of at most 450 flags can take. *)
Definition smallInts : list Z := map Z.of_nat (seq 0 (S PER_30S)).

(** ** Streams of eye inputs *)

(** What the eye block reads on one frame. *)
Record EyeIn : Type :=
  { e_prob : float; e_now : float; e_featLen : nat }.

Definition rawOf (i : EyeIn) : bool := Eye.closedRaw (e_prob i).

Section EyeStreams.
Context {E : Exp}.

Definition eyeStep (i : EyeIn) (s : Eye.State) : Eye.State :=
  fst (Eye.step (e_prob i) (e_now i) (e_featLen i) s).

Definition eyeSteps (ins : list EyeIn) (s : Eye.State) : Eye.State :=
  foldl (fun s i => eyeStep i s) s ins.

End EyeStreams.

(** The counters agree with the raw value [last] of the latest frame. *)
Definition DebInv (last : option bool) (s : Eye.State) : Prop :=
  (0 <= Eye.eyeDebOn s)%Z /\ (0 <= Eye.eyeDebOff s)%Z /\
  match last with
  | None => Eye.eyeClosedDebounced s = false /\ Eye.eyeDebOn s = 0%Z
  | Some true =>
      (1 <= Eye.eyeDebOn s)%Z /\ Eye.eyeDebOff s = 0%Z /\
      (Eye.eyeClosedDebounced s = false -> Eye.eyeDebOn s = 1%Z)
  | Some false =>
      (1 <= Eye.eyeDebOff s)%Z /\ Eye.eyeDebOn s = 0%Z /\
      (Eye.eyeClosedDebounced s = true -> Eye.eyeDebOff s = 1%Z)
  end.

(** The machine rests open after the frames [pre]: the debounced state
    is open and the latest frame, if any, was not raw-closed.  Dually for
    resting closed. *)
Definition restsOpen {E : Exp} (pre : list EyeIn) : Prop :=
  Eye.eyeClosedDebounced (eyeSteps pre Eye.init) = false
  /\ last (rawOf <$> pre) <> Some true.

Definition restsClosed {E : Exp} (pre : list EyeIn) : Prop :=
  Eye.eyeClosedDebounced (eyeSteps pre Eye.init) = true
  /\ last (rawOf <$> pre) <> Some false.

(** ** Streams of mouth inputs *)

Record MouthIn : Type := { m_prob : float; m_now : float }.

Section MouthStreams.
Context {E : Exp}.

Definition mouthStep (i : MouthIn) (s : Mouth.State) : Mouth.State :=
  (Mouth.step (m_prob i) (m_now i) s).1.

Definition mouthSteps (ins : list MouthIn) (s : Mouth.State) : Mouth.State :=
  foldl (fun s i => mouthStep i s) s ins.

End MouthStreams.

(** Strictly between the closing and the opening threshold. *)
Definition inBand (ema : float) : bool :=
  JS.lt MOUTH_OFF_T ema && JS.lt ema MOUTH_ON_T.

(** ** Session traces

    What can happen to the engine after the script has loaded: the two
    buttons, the normalisation switch, and results from FaceMesh. *)

Inductive Event : Type :=
| Start (camera : bool)
| Stop
| SetNormalization (enabled : bool)
| Results (res : option Frame).

Section Traces.
Context {E : Exp} {T : Trig} {C : Classifier}.

Definition handle (s : State) (ev : Event) : State :=
  match ev with
  | Start camera => startProcessing camera s
  | Stop => stopProcessing s
  | SetNormalization enabled => setNormalizationEnabled enabled s
  | Results res => (onResults res s).1
  end.

Definition runEvents (evs : list Event) : State := foldl handle loaded evs.

(** What the frame handler exposes on one more result. *)
Definition nextOutput (evs : list Event) (res : option Frame) : option Output :=
  (onResults res (runEvents evs)).2.

End Traces.

(** ** Reference host and test sessions

    Executable stand-ins for the host functions, used to run the engine
    on concrete sessions. *)

(** A truncated exponential series; on the two arguments the filters use,
    [-DT/1.0] and [-DT/5.0], it gives the correctly rounded values
    ([exp_series_values]). *)
Definition exp_series (x : float) : float :=
  foldr (fun k acc => (1 + x / JS.Z2F k * acc)%float) 1%float
        (map Z.of_nat (seq 1 20)).

(** The arctangent: three half-angle steps, then the series. *)
Definition atan_small (x : float) : float :=
  let x2 := (x * x)%float in
  (x * foldr (fun k acc => (1 / JS.Z2F (2 * k + 1) - x2 * acc)%float) 0%float
             (map Z.of_nat (seq 0 14)))%float.

Definition halve (x : float) : float := (x / (1 + sqrt (1 + x * x)))%float.

Definition atan_unit (x : float) : float :=
  (8 * atan_small (halve (halve (halve x))))%float.

Definition atan_ref (x : float) : float :=
  if (abs x <=? 1)%float then atan_unit x
  else if (0 <? x)%float then (Math_PI / 2 - atan_unit (1 / x))%float
  else (- (Math_PI / 2) - atan_unit (1 / x))%float.

Definition atan2_ref (y x : float) : float :=
  if is_nan x || is_nan y then nan
  else if (0 <? x)%float then atan_ref (y / x)
  else if (x <? 0)%float then
    (if (0 <=? y)%float then atan_ref (y / x) + Math_PI
     else atan_ref (y / x) - Math_PI)%float
  else if (0 <? y)%float then (Math_PI / 2)%float
  else if (y <? 0)%float then (- (Math_PI / 2))%float
  else 0%float.

Definition refExp : Exp := {| Math_exp := exp_series |}.

Definition refTrig : Trig :=
  {| Math_hypot := fun x y z => sqrt (x * x + y * y + z * z);
     Math_atan2 := atan2_ref |}.

(** A loaded classifier reporting the mean PERCLOS feature of the window. *)
Definition perclosClassifier : Classifier :=
  {| tcnModel := Some (fun rows =>
       (foldr (fun row acc => (default 0 (row !! 12%nat) + acc)%float) 0 rows
        / JS.Z2F (Z.of_nat (length rows)))%float) |}.

(** A face looking straight into the camera, one turned to the side, and
    one whose forehead landmark came without a depth. *)
Definition frontal : Pose.Landmarks :=
  {| Pose.rightEyeOuter := Pose.vec 0.4 0.5 0;
     Pose.leftEyeOuter := Pose.vec 0.6 0.5 0;
     Pose.chin := Pose.vec 0.5 0.7 0;
     Pose.forehead := Pose.vec 0.5 0.3 0 |}.

Definition turned (depth : float) : Pose.Landmarks :=
  {| Pose.rightEyeOuter := Pose.vec 0.4 0.5 depth;
     Pose.leftEyeOuter := Pose.vec 0.6 0.5 (- depth);
     Pose.chin := Pose.vec 0.5 0.7 0;
     Pose.forehead := Pose.vec 0.5 0.3 0 |}.

Definition noDepth : Pose.Landmarks :=
  {| Pose.rightEyeOuter := Pose.vec 0.4 0.5 0;
     Pose.leftEyeOuter := Pose.vec 0.6 0.5 0;
     Pose.chin := Pose.vec 0.5 0.7 0;
     Pose.forehead := Pose.vec 0.5 0.3 nan |}.

(** Result number [k] of a 15 Hz stream: both eye crops give [p], the
    mouth crop gives 0.1. *)
Definition resultAt (face : Pose.Landmarks) (p : float) (k : nat) : Event :=
  let t := (JS.Z2F (Z.of_nat k) / 15)%float in
  Results (Some {| f_nowSec := t; f_clockReset := t; f_clockNorm := t;
                   lm := face; eyePred := Some (p, p); yawnPred := Some 0.1%float |}).

(** A session started with the camera on, fed one frontal result per
    eye probability. *)
Definition eyeSession (probs : list float) : list Event :=
  Start true :: imap (fun k p => resultAt frontal p k) probs.

(** Eyes open for 90 frames, shut for 13, open for 40, shut for 13. *)
Definition twoClosures : list Event :=
  eyeSession (replicate 90 0.9%float ++ replicate 13 0.1%float
              ++ replicate 40 0.9%float ++ replicate 13 0.1%float).

(** A first session in which the head turns, then a second session. *)
Definition headTurn : list Event :=
  [Start true; resultAt frontal 0.9 0; resultAt (turned 0.02) 0.9 1;
   resultAt (turned 0.04) 0.9 2; Stop; Start true].

(** A session whose first result lacks a landmark depth. *)
Definition lostDepth : list Event :=
  Start true :: resultAt noDepth 0.9 0
  :: ((fun k => resultAt frontal 0.9 k) <$> seq 1 6).

(** A session with normalisation switched on. *)
Definition normalised (frames : nat) : list Event :=
  SetNormalization true :: eyeSession (replicate frames 0.9%float).

(** The engine on the reference host. *)
Definition refRun : list Event -> State :=
  @runEvents refExp refTrig perclosClassifier.

Definition refOutput : list Event -> option Frame -> option Output :=
  @nextOutput refExp refTrig perclosClassifier.

(** A frontal result as a frame. *)
Definition frontalFrame (p : float) (k : nat) : option Frame :=
  match resultAt frontal p k with Results res => res | _ => None end.

(** Frame [k] of a 15 Hz stream for the eye block alone. *)
Definition eyeFrame (p : float) (k : nat) : EyeIn :=
  {| e_prob := p; e_now := (JS.Z2F (Z.of_nat k) / 15)%float;
     e_featLen := Nat.min k TCN_WINDOW |}.

(** Frame [k] of a 15 Hz stream for the mouth block alone. *)
Definition mouthFrame (p : float) (k : nat) : MouthIn :=
  {| m_prob := p; m_now := (JS.Z2F (Z.of_nat k) / 15)%float |}.

(** A frontal result on which neither crop could be taken. *)
Definition blindFrame : Frame :=
  {| f_nowSec := 0; f_clockReset := 0; f_clockNorm := 0;
     lm := frontal; eyePred := None; yawnPred := None |}.

(** ** The shape of a ring fed with arbitrary numbers *)

(** A ring of capacity [n] that has been fed the numbers [vs]. *)
Record RingShape (r : Ring.t) (n : nat) (vs : list float) : Prop :=
  { shape_n : Ring.n r = n;
    shape_len : length (Ring.buf r) = n;
    shape_count : Ring.count r = Nat.min (length vs) n;
    shape_i : Ring.i r = length vs mod n;
    shape_res : resident r = JS.fround <$> window n vs }.

(** ** Streams of angles *)

(** Feeding the smoother of one axis a stream of angles. *)
Definition smoothFeed (name : Pose.Axis) (vs : list float) (s : Pose.Smooth)
  : Pose.Smooth :=
  foldl (fun s v => (Pose.getSmoothDelta name v s).1) s vs.

#[global] Instance Axis_eq_dec : EqDecision Pose.Axis.
Proof. solve_decision. Defined.

(** ** What holds of the mouth block between frames *)

(** The number of frames after which an open mouth counts as a
    prolonged yawn: the least [f] with [f * DT >= MOUTH_PROLONG_S]. *)
Definition YAWN_FRAMES : Z := 20.

Definition MouthInv (s : Mouth.State) : Prop :=
  Mouth.yawnPulse s = 0%Z
  /\ if Mouth.mouthOpen s
     then (1 <= Mouth.mouthRunFrames s)%Z
          /\ Mouth.yawnProlonged s = bool_decide (YAWN_FRAMES <= Mouth.mouthRunFrames s)%Z
     else Mouth.mouthRunFrames s = 0%Z /\ Mouth.yawnProlonged s = false.

(** ** Features of a frame *)

(** The features [buildRawFeatures] passes through [finiteOr]. *)
Definition guardedFeatures : list FeatName :=
  [ eye_open_unified; ema_eye_open_1s; ema_eye_open_5s; eye_open_trend_3s;
    eye_close_dur_s; perclos_30s; blink_rate_30s; max_close_run_10s;
    time_since_last_blink_s; yawn_prob_ema_1s; mouth_open_run_s;
    mouth_open_rate_30s; time_since_last_yawn_s ].

(** Feeding the accumulators a list of vectors. *)
Definition addNormSamples (vs : list (list float)) (n : Norm.State) : Norm.State :=
  foldl (fun n v => Norm.addNormSample v n) n vs.

(** The running sum of a column, and of its squares. *)
Definition columnSum (i : nat) (vs : list (list float)) : float :=
  foldl (fun a v => (a + default 0 (v !! i))%float) 0%float vs.

Definition columnSqSum (i : nat) (vs : list (list float)) : float :=
  foldl (fun a v => (a + default 0 (v !! i) * default 0 (v !! i))%float) 0%float vs.

(** ** What holds of the engine between events *)

(** The counters of the eye block. *)
Record EyeInv (s : Eye.State) : Prop :=
  { ei_pulse : Eye.blinkPulse s = 0%Z;
    ei_on : (0 <= Eye.eyeDebOn s)%Z;
    ei_off : (0 <= Eye.eyeDebOff s)%Z;
    ei_one : Eye.eyeDebOn s = 0%Z \/ Eye.eyeDebOff s = 0%Z;
    ei_run : if Eye.eyeClosedDebounced s then (1 <= Eye.eyeRunLenFrames s)%Z
             else Eye.eyeRunLenFrames s = 0%Z;
    ei_prolonged : Eye.prolongedEyeActive s = true ->
                   Eye.eyeClosedDebounced s = true
                   /\ (FRM_2P5S <= Eye.eyeRunLenFrames s)%Z;
    ei_seen : Eye.hasSeenBlink s = 0%Z \/ Eye.hasSeenBlink s = 1%Z;
    ei_ring : exists w, RingInv (Eye.rbEyeClosed s) w;
    ei_cap : Ring.n (Eye.rbEyeClosed s) = PER_30S }.

Record SessionInv (s : State) : Prop :=
  { si_rows : Forall (fun row => length row = F) (Tcn.featBuf (tcn s));
    si_bufs : forall a, length (Pose.get a (Pose.angleBufs (smooth s))) <= Pose.MAXN;
    si_eye : EyeInv (eye s);
    si_mouth : MouthInv (mouth s);
    si_base : baselineCaptured s = bool_decide (is_Some (baseline s));
    si_nod : Nod.stableFrames (nod s) = 0%Z;
    si_sum : length (Norm.baseSum (norm s)) = F;
    si_sq : length (Norm.baseSqSum (norm s)) = F;
    si_cnt : (0 <= Norm.baseCnt (norm s))%Z }.

(** The same trace with the normalisation switch left off. *)
Definition withoutNormalization (ev : Event) : Event :=
  match ev with
  | SetNormalization _ => SetNormalization false
  | _ => ev
  end.

(** Two states that differ at most in the normaliser and in the status
    text, and hold no statistics. *)
Record Sim (s1 s2 : State) : Prop :=
  { sim_running : runningFlag s1 = runningFlag s2;
    sim_captured : baselineCaptured s1 = baselineCaptured s2;
    sim_dominant : dominantEye s1 = dominantEye s2;
    sim_baseline : baseline s1 = baseline s2;
    sim_smooth : smooth s1 = smooth s2;
    sim_eye : eye s1 = eye s2;
    sim_mouth : mouth s1 = mouth s2;
    sim_nod : nod s1 = nod s2;
    sim_rows : Tcn.featBuf (tcn s1) = Tcn.featBuf (tcn s2);
    sim_drowsy : Tcn.tcnIsDrowsy (tcn s1) = Tcn.tcnIsDrowsy (tcn s2);
    sim_mu1 : Norm.mu (norm s1) = None;
    sim_sigma1 : Norm.sigma (norm s1) = None;
    sim_mu2 : Norm.mu (norm s2) = None;
    sim_sigma2 : Norm.sigma (norm s2) = None }.

(** ** The throttled loop *)




(** ** Inputs for the further properties *)

(** An eye frame with the eyes shut, and one with the eyes open. *)
Definition shutFrame (k : nat) : EyeIn :=
  {| e_prob := 0.1; e_now := (JS.Z2F (Z.of_nat k) / 15)%float; e_featLen := k |}.

Definition openFrame (k : nat) : EyeIn :=
  {| e_prob := 0.9; e_now := (JS.Z2F (Z.of_nat k) / 15)%float; e_featLen := k |}.

(** A mouth block that has been open for 25 frames. *)
Definition yawning : Mouth.State :=
  {| Mouth.yawnEma1 := 0.46; Mouth.mouthOpen := true; Mouth.mouthRunFrames := 25;
     Mouth.yawnProlonged := true; Mouth.mouthRuns := [];
     Mouth.yawnPulse := 0; Mouth.lastYawnEndTime := 0 |}.

(** * Properties *)

(** ** Order facts on binary64 values *)

Lemma SFcompare_antisym x y :
  SFcompare y x = CompOpp <$> SFcompare x y.
Proof.
  assert (Hm : forall p q,
    Pos.compare_cont Eq q p = CompOpp (Pos.compare_cont Eq p q)).
  { intros p q. by rewrite Pos.compare_cont_antisym. }
  destruct x as [[]|[]| |[] mx ex], y as [[]|[]| |[] my ey]; simpl; try done;
    rewrite (Z.compare_antisym ex ey), (Hm mx my);
    destruct (ex ?= ey)%Z; simpl; by rewrite ?CompOpp_involutive.
Qed.

(** [a < b] excludes [b <= a]. *)
Lemma JS_lt_not_ge a b : JS.lt a b = true -> JS.le b a = false.
Proof.
  unfold JS.lt, JS.le. rewrite ltb_spec, leb_spec.
  unfold SFltb, SFleb. rewrite (SFcompare_antisym (Prim2SF a) (Prim2SF b)).
  by destruct (SFcompare (Prim2SF a) (Prim2SF b)) as [[| |]|].
Qed.

(** ** Running sums of flags are exact *)

Lemma smallInts_table :
  map (fun k => (JS.Z2F k + 1, JS.Z2F k + 0, JS.Z2F (k + 1) - 1, JS.Z2F k - 0)%float)
      smallInts
  = map (fun k => (JS.Z2F (k + 1), JS.Z2F k, JS.Z2F k, JS.Z2F k)) smallInts.
Proof. vm_compute. reflexivity. Qed.

Lemma smallInts_exact k :
  (0 <= k <= Z.of_nat PER_30S)%Z ->
  (JS.Z2F k + 1 = JS.Z2F (k + 1))%float /\ (JS.Z2F k + 0 = JS.Z2F k)%float
  /\ (JS.Z2F (k + 1) - 1 = JS.Z2F k)%float /\ (JS.Z2F k - 0 = JS.Z2F k)%float.
Proof.
  intros Hk.
  assert (Hin : In k smallInts).
  { unfold smallInts. apply in_map_iff. exists (Z.to_nat k).
    split; [lia|]. apply in_seq. lia. }
  pose proof (ext_in_map smallInts_table k Hin) as Heq. simpl in Heq.
  injection Heq as H1 H2 H3 H4. by repeat split.
Qed.

Lemma add_sample k (b : bool) :
  (0 <= k <= Z.of_nat PER_30S)%Z ->
  (JS.Z2F k + sample b)%float = JS.Z2F ((if b then 1%Z else 0%Z) + k).
Proof.
  intros Hk. destruct (smallInts_exact k Hk) as (H1 & H0 & _ & _).
  destruct b; cbn [sample].
  - rewrite H1. f_equal. lia.
  - by rewrite H0.
Qed.

Lemma sub_sample k (b : bool) :
  (0 <= k <= Z.of_nat PER_30S)%Z ->
  (JS.Z2F ((if b then 1%Z else 0%Z) + k) - sample b)%float = JS.Z2F k.
Proof.
  intros Hk. destruct (smallInts_exact k Hk) as (_ & _ & H1 & H0).
  destruct b; cbn [sample].
  - replace (1 + k)%Z with (k + 1)%Z by lia. by rewrite H1.
  - change (0 + k)%Z with k. by rewrite H0.
Qed.

Lemma fround_sample b : JS.fround (sample b) = sample b.
Proof. by destruct b. Qed.

Lemma ones_app l1 l2 : ones (l1 ++ l2) = (ones l1 + ones l2)%Z.
Proof. induction l1 as [|[] l1 IH]; simpl; lia. Qed.

Lemma ones_bound w : (0 <= ones w <= Z.of_nat (length w))%Z.
Proof. induction w as [|[] w IH]; simpl; lia. Qed.

(** ** The ring holds the trailing window *)

Lemma split_at {A} (l : list A) i :
  i < length l -> exists l1 x l2, l = l1 ++ x :: l2 /\ length l1 = i.
Proof.
  intros Hi. destruct (lookup_lt_is_Some_2 l i Hi) as [x Hx].
  exists (take i l), x, (drop (S i) l). split.
  - symmetry. by apply take_drop_middle.
  - rewrite length_take. lia.
Qed.

Lemma lookup_mid {A} (l1 l2 : list A) x : (l1 ++ x :: l2) !! length l1 = Some x.
Proof. by rewrite list_lookup_middle. Qed.

Lemma insert_mid {A} (l1 l2 : list A) x v :
  <[length l1 := v]> (l1 ++ x :: l2) = l1 ++ v :: l2.
Proof.
  replace (length l1) with (length l1 + 0) by lia.
  by rewrite insert_app_r.
Qed.

Lemma take_S_mid {A} (l1 l2 : list A) v :
  take (S (length l1)) (l1 ++ v :: l2) = l1 ++ [v].
Proof.
  replace (S (length l1)) with (length l1 + 1) by lia.
  by rewrite take_app_add.
Qed.

Lemma drop_S_mid {A} (l1 l2 : list A) v :
  drop (S (length l1)) (l1 ++ v :: l2) = l2.
Proof.
  replace (S (length l1)) with (length l1 + 1) by lia.
  by rewrite drop_app_add.
Qed.

Ltac len_lia :=
  simpl in *;
  repeat first
    [ rewrite length_app in * | rewrite length_take in *
    | rewrite length_drop in * | rewrite length_insert in *
    | rewrite length_fmap in * ];
  simpl in *; lia.

Ltac case_ltb :=
  repeat match goal with
  | |- context [(?a <? ?b)%nat] =>
      destruct (Nat.ltb_spec a b); try (exfalso; len_lia)
  | H : context [(?a <? ?b)%nat] |- _ =>
      destruct (Nat.ltb_spec a b); try (exfalso; len_lia)
  end.

Ltac ring_lists :=
  repeat first
    [ rewrite take_app_length in * | rewrite drop_app_length in *
    | rewrite lookup_mid in * | rewrite insert_mid in *
    | rewrite take_S_mid in * | rewrite drop_S_mid in *
    | rewrite app_nil_r in * | rewrite drop_0 in * ];
  simpl in *.

Lemma push_inv r w b :
  RingInv r w ->
  RingInv (Ring.push r (sample b)) (slide (Ring.n r) w b)
  /\ Ring.n (Ring.push r (sample b)) = Ring.n r.
Proof.
  destruct r as [n buf sum count i]. intros [Hlen Hcap Hidx Hres Hsum].
  simpl in *. pose proof (ones_bound w) as Hones.
  assert (Hw : length (resident (Ring.mk n buf sum count i)) = length w).
  { by rewrite Hres, length_fmap. }
  destruct Hidx as [[Hlt ->]|[-> Hi]].
  - destruct (split_at buf count) as (l1 & x & l2 & -> & Hl1); [lia|].
    subst count. rewrite length_app in Hlen. simpl in Hlen.
    unfold Ring.push, resident, slide in *. simpl in *.
    rewrite fround_sample. case_ltb; ring_lists.
    destruct (Nat.ltb_spec (length l1 + 1) n) as [Hs|Hs].
    + rewrite Nat.mod_small by lia.
      replace (length l1 + 1) with (S (length l1)) by lia.
      split; [|done]. split; simpl.
      * len_lia.
      * lia.
      * left. lia.
      * unfold resident; simpl. case_ltb. ring_lists.
        by rewrite fmap_app, Hres.
      * rewrite Hsum, add_sample by lia. f_equal. rewrite ones_app. simpl. lia.
    + assert (length l1 + 1 = n) as Hn by lia.
      assert (l2 = []) as -> by (apply length_zero_iff_nil; lia).
      rewrite Hn, Nat.Div0.mod_same. split; [|done]. split; simpl.
      * len_lia.
      * lia.
      * right. lia.
      * unfold resident; simpl. case_ltb. ring_lists.
        by rewrite fmap_app, Hres.
      * rewrite Hsum, add_sample by lia. f_equal. rewrite ones_app. simpl. lia.
  - destruct (split_at buf i) as (l1 & x & l2 & -> & Hl1); [lia|].
    subst i. rewrite length_app in Hlen. simpl in Hlen.
    unfold Ring.push, resident, slide in *. simpl in *.
    rewrite fround_sample. case_ltb; ring_lists.
    destruct w as [|b0 rest]; [done|]. simpl in Hres, Hw, Hones.
    injection Hres as Hx Hrest. subst x. simpl.
    assert (Hrb := ones_bound rest). rewrite length_app in Hw. simpl in Hw.
    assert (Hsum' : (sum - sample b0 + sample b)%float
                    = JS.Z2F (ones (rest ++ [b]))).
    { rewrite Hsum. simpl. rewrite sub_sample, add_sample by lia.
      f_equal. rewrite ones_app. simpl. lia. }
    assert (Hres' : l2 ++ l1 ++ [sample b] = sample <$> rest ++ [b]).
    { change (list_fmap bool float sample rest) with (sample <$> rest) in Hrest.
      by rewrite fmap_app, <- Hrest, <- app_assoc. }
    rewrite ?drop_0.
    destruct (Nat.ltb_spec (length l1 + 1) n) as [Hs|Hs].
    + rewrite Nat.mod_small by lia.
      replace (length l1 + 1) with (S (length l1)) by lia.
      split; [|done]. split; simpl.
      * len_lia.
      * lia.
      * right. lia.
      * unfold resident; simpl. case_ltb. by ring_lists.
      * done.
    + assert (length l1 + 1 = n) as Hn by lia.
      assert (l2 = []) as -> by (apply length_zero_iff_nil; lia).
      rewrite Hn, Nat.Div0.mod_same. split; [|done]. split; simpl.
      * len_lia.
      * lia.
      * right. lia.
      * unfold resident; simpl. case_ltb. by ring_lists.
      * done.
Qed.

Lemma slide_window {A} n (vs : list A) v :
  0 < n -> slide n (window n vs) v = window n (vs ++ [v]).
Proof.
  intros Hn. unfold slide, window.
  rewrite !length_app, length_drop. simpl.
  destruct (decide (length vs < n)) as [Hlt|Hge].
  - replace (length vs - n) with 0 by lia.
    replace (length vs + 1 - n) with 0 by lia.
    rewrite !drop_0. case_ltb. done.
  - case_ltb.
    replace (length vs + 1 - n) with (S (length vs - n)) by lia.
    rewrite (drop_app_le vs) by lia.
    destruct (drop (length vs - n) vs) as [|y ys] eqn:Hd.
    { apply (f_equal length) in Hd. rewrite length_drop in Hd. simpl in Hd. lia. }
    simpl. rewrite drop_0.
    replace (S (length vs - n)) with (length vs - n + 1) by lia.
    by rewrite <- drop_drop, Hd.
Qed.

Lemma new_inv n : 0 < n <= PER_30S -> RingInv (Ring.new n) [].
Proof.
  intros Hn. split; simpl; [by rewrite length_replicate|lia|left; lia| |done].
  unfold resident. simpl. case_ltb. done.
Qed.

Lemma pushes_snoc r vs v :
  Ring.pushes r (vs ++ [v]) = Ring.push (Ring.pushes r vs) v.
Proof. unfold Ring.pushes. by rewrite foldl_snoc. Qed.

Lemma pushes_inv n (bs : list bool) :
  0 < n <= PER_30S ->
  let r := Ring.pushes (Ring.new n) (sample <$> bs) in
  RingInv r (window n bs) /\ Ring.n r = n.
Proof.
  intros Hn. induction bs as [|b bs IH] using rev_ind; simpl.
  - split; [|done]. by apply new_inv.
  - destruct IH as (Hinv & Hnn).
    rewrite fmap_app. change (sample <$> [b]) with [sample b].
    rewrite pushes_snoc.
    destruct (push_inv _ _ b Hinv) as (Hinv' & Hn').
    split; [|congruence].
    rewrite Hnn, slide_window in Hinv' by lia. exact Hinv'.
Qed.

Lemma window_length {A} n (vs : list A) :
  length (window n vs) = Nat.min (length vs) n.
Proof. unfold window. rewrite length_drop. lia. Qed.

Lemma resident_length r w : RingInv r w -> length w = Ring.count r.
Proof.
  intros [Hlen Hcap Hidx Hres Hsum].
  rewrite <- (length_fmap sample w), <- Hres. unfold resident.
  destruct Hidx as [[Hlt Hi]|[Hc Hi]]; case_ltb.
  - rewrite length_take. lia.
  - rewrite length_app, length_drop, length_take. lia.
Qed.

Lemma pushes_mean n (bs : list bool) :
  0 < n <= PER_30S ->
  Ring.mean (Ring.pushes (Ring.new n) (sample <$> bs)) = arith_mean (window n bs).
Proof.
  intros Hn. destruct (pushes_inv n bs Hn) as (Hinv & _).
  pose proof (resident_length _ _ Hinv) as Hlen.
  unfold Ring.mean, arith_mean.
  by rewrite (inv_sum _ _ Hinv), Hlen.
Qed.

(** C4: the rolling average of the eye-closed ring.  After any sequence
    of pushes of raw eye-closed flags into the ring of capacity 450, the
    samples resident in the ring are exactly the last
    [min (length bs) 450] flags pushed, in order; [count] is their number
    and never exceeds 450; the running [sum] is exactly the number of set
    flags among them, and [mean()] is their arithmetic mean, sum over
    count (0 for an empty ring). *)
Theorem ring_mean_is_window_mean (bs : list bool) :
  let r := Ring.pushes (Ring.new PER_30S) (sample <$> bs) in
  let w := window PER_30S bs in
  resident r = sample <$> w
  /\ Ring.count r = length w
  /\ Ring.count r <= PER_30S
  /\ Ring.sum r = JS.Z2F (ones w)
  /\ Ring.mean r = arith_mean w
  /\ Ring.mean r =
       if (Ring.count r =? 0)%nat then 0%float
       else (Ring.sum r / JS.Z2F (Z.of_nat (Ring.count r)))%float.
Proof.
  intros r w.
  destruct (pushes_inv PER_30S bs) as (Hinv & Hn); [unfold PER_30S; lia|].
  fold r in Hinv, Hn. fold w in Hinv.
  pose proof (resident_length r w Hinv) as Hlen.
  split; [apply Hinv|]. split; [done|]. split.
  { rewrite <- Hlen. unfold w. rewrite window_length. lia. }
  split; [apply Hinv|]. split; [|done].
  unfold Ring.mean, arith_mean. by rewrite (inv_sum _ _ Hinv), Hlen.
Qed.

Ltac break_if :=
  match goal with
  | |- context [if ?c then _ else _] =>
      lazymatch c with
      | context [if _ then _ else _] => fail
      | _ => destruct c eqn:?
      end
  end.

Section EyeProps.
Context {E : Exp}.

Lemma eyeStep_debounced i s :
  Eye.eyeClosedDebounced (eyeStep i s) =
    if rawOf i
    then Eye.eyeClosedDebounced s || (EYE_DEBOUNCE_ON_F <=? Eye.eyeDebOn s + 1)%Z
    else Eye.eyeClosedDebounced s && negb (EYE_DEBOUNCE_OFF_F <=? Eye.eyeDebOff s + 1)%Z.
Proof.
  unfold eyeStep, Eye.step, rawOf. simpl.
  destruct (Eye.closedRaw (e_prob i)); simpl.
  - destruct (Eye.eyeClosedDebounced s); simpl; [done|].
    by destruct (EYE_DEBOUNCE_ON_F <=? Eye.eyeDebOn s + 1)%Z.
  - destruct (Eye.eyeClosedDebounced s); simpl; [|done].
    by destruct (EYE_DEBOUNCE_OFF_F <=? Eye.eyeDebOff s + 1)%Z.
Qed.

Lemma eyeStep_counters i s :
  Eye.eyeDebOn (eyeStep i s) = (if rawOf i then Eye.eyeDebOn s + 1 else 0)%Z
  /\ Eye.eyeDebOff (eyeStep i s) = (if rawOf i then 0 else Eye.eyeDebOff s + 1)%Z.
Proof.
  unfold eyeStep, Eye.step, rawOf. simpl.
  destruct (Eye.closedRaw (e_prob i)); simpl; [done|].
  by destruct (Eye.eyeClosedDebounced s && _).
Qed.

Lemma DebInv_step last i s :
  DebInv last s -> DebInv (Some (rawOf i)) (eyeStep i s).
Proof.
  intros (Hon & Hoff & Hl). unfold DebInv.
  destruct (eyeStep_counters i s) as [-> ->].
  rewrite eyeStep_debounced. unfold EYE_DEBOUNCE_ON_F, EYE_DEBOUNCE_OFF_F.
  destruct (rawOf i); (split; [lia|]); (split; [lia|]).
  - split; [lia|]. split; [done|]. intros Hd. apply orb_false_iff in Hd as [Hd1 Hd2].
    apply Z.leb_gt in Hd2. lia.
  - split; [lia|]. split; [done|]. intros Hd.
    apply andb_true_iff in Hd as [Hd1 Hd2].
    apply negb_true_iff, Z.leb_gt in Hd2. lia.
Qed.

Lemma DebInv_init : DebInv None Eye.init.
Proof. unfold DebInv. simpl. lia. Qed.

Lemma DebInv_steps ins :
  DebInv (last (rawOf <$> ins)) (eyeSteps ins Eye.init).
Proof.
  induction ins as [|i ins IH] using rev_ind.
  - apply DebInv_init.
  - unfold eyeSteps in *. rewrite foldl_snoc, fmap_app. simpl. rewrite last_snoc.
    by eapply DebInv_step.
Qed.

(** After a frame whose raw value is [r], the next frame changes the
    debounced state only to [r], and only when its raw value is [r]. *)
Lemma debounce_second_tick r b s :
  DebInv (Some r) s ->
  let s' := eyeStep b s in
  (Eye.eyeClosedDebounced s' <> Eye.eyeClosedDebounced s ->
     r = Eye.eyeClosedDebounced s' /\ rawOf b = Eye.eyeClosedDebounced s')
  /\ (r = rawOf b -> Eye.eyeClosedDebounced s' = rawOf b).
Proof.
  intros (Hon & Hoff & Hl) s'. unfold s'. rewrite eyeStep_debounced.
  unfold EYE_DEBOUNCE_ON_F, EYE_DEBOUNCE_OFF_F.
  destruct r; destruct Hl as (H1 & H2 & H3);
    destruct (Eye.eyeClosedDebounced s) eqn:Hd;
    try specialize (H3 eq_refl);
    destruct (rawOf b); simpl;
    repeat match goal with
    | |- context [(?a <=? ?b)%Z] => destruct (Z.leb_spec a b)
    end; simpl; (split; [intros Hne|intros Heq]); try done; lia.
Qed.

Lemma eyeSteps_snoc pre i s :
  eyeSteps (pre ++ [i]) s = eyeStep i (eyeSteps pre s).
Proof. unfold eyeSteps. by rewrite foldl_snoc. Qed.

Lemma last_raw_snoc pre i : last (rawOf <$> pre ++ [i]) = Some (rawOf i).
Proof. rewrite fmap_app. simpl. by rewrite last_snoc. Qed.

(** C5: debouncing of the eye state.  From a resting open state, [k]
    consecutive raw-closed frames leave the eye debounced-closed exactly
    when [k >= 2] (so the change happens on the second one), and one
    raw-closed frame followed by a raw-open frame changes nothing;
    symmetrically a resting closed state is left exactly by two
    consecutive raw-open frames.  In general the debounced state changes
    at a frame only if that frame and the one before it both carry the
    new raw value, and two equal raw values in a row always settle it. *)
Theorem eye_debounce (pre : list EyeIn) :
  let deb := fun l => Eye.eyeClosedDebounced (eyeSteps l Eye.init) in
  (forall cs, restsOpen pre -> Forall (fun c => rawOf c = true) cs ->
      deb (pre ++ cs) = bool_decide (2 <= length cs))
  /\ (forall c o, restsOpen pre -> rawOf c = true -> rawOf o = false ->
      deb (pre ++ [c]) = false /\ deb (pre ++ [c; o]) = false)
  /\ (forall os, restsClosed pre -> Forall (fun o => rawOf o = false) os ->
      deb (pre ++ os) = bool_decide (length os < 2))
  /\ (forall a b,
      (deb (pre ++ [a; b]) <> deb (pre ++ [a]) ->
         rawOf a = deb (pre ++ [a; b]) /\ rawOf b = deb (pre ++ [a; b]))
      /\ (rawOf a = rawOf b -> deb (pre ++ [a; b]) = rawOf b)).
Proof.
  intros deb.
  assert (Hpair : forall l a b,
    (deb (l ++ [a; b]) <> deb (l ++ [a]) ->
       rawOf a = deb (l ++ [a; b]) /\ rawOf b = deb (l ++ [a; b]))
    /\ (rawOf a = rawOf b -> deb (l ++ [a; b]) = rawOf b)).
  { intros l a b. unfold deb.
    replace (l ++ [a; b]) with ((l ++ [a]) ++ [b]) by by rewrite <- app_assoc.
    rewrite (eyeSteps_snoc (l ++ [a])).
    apply debounce_second_tick.
    rewrite <- last_raw_snoc with (pre := l). apply DebInv_steps. }
  assert (Hone : forall l c, restsOpen l -> rawOf c = true -> deb (l ++ [c]) = false).
  { intros l c [Ho Hl] Hc. unfold deb. rewrite eyeSteps_snoc, eyeStep_debounced, Hc, Ho.
    pose proof (DebInv_steps l) as (Hon & Hoff & Hi).
    destruct (last (rawOf <$> l)) as [[|]|]; [done| |];
      [destruct Hi as (_ & -> & _)|destruct Hi as (_ & ->)]; done. }
  split; [|split; [|split]].
  - intros cs Hopen Hcs.
    destruct cs as [|c2 cs _] using rev_ind.
    { rewrite app_nil_r. by destruct Hopen. }
    apply Forall_app in Hcs as [Hcs Hc2]. rewrite Forall_singleton in Hc2.
    destruct cs as [|c1 cs _] using rev_ind.
    { simpl. by apply Hone. }
    apply Forall_app in Hcs as [Hcs Hc1]. rewrite Forall_singleton in Hc1.
    rewrite <- !app_assoc. simpl. rewrite app_assoc.
    destruct (Hpair (pre ++ cs) c1 c2) as [_ Heq]. rewrite Heq by congruence.
    rewrite Hc2. symmetry. apply bool_decide_eq_true.
    rewrite !length_app. simpl. lia.
  - intros c o Hopen Hc Ho. split; [by apply Hone|].
    unfold deb. replace (pre ++ [c; o]) with ((pre ++ [c]) ++ [o]) by by rewrite <- app_assoc.
    rewrite eyeSteps_snoc, eyeStep_debounced, Ho.
    fold (deb (pre ++ [c])). by rewrite Hone.
  - intros os [Hc Hl] Hos.
    destruct os as [|o2 os _] using rev_ind.
    { rewrite app_nil_r. done. }
    apply Forall_app in Hos as [Hos Ho2]. rewrite Forall_singleton in Ho2.
    destruct os as [|o1 os _] using rev_ind.
    { simpl. unfold deb. rewrite eyeSteps_snoc, eyeStep_debounced, Ho2, Hc.
      pose proof (DebInv_steps pre) as (Hon & Hoff & Hi).
      destruct (last (rawOf <$> pre)) as [[|]|]; [|done|].
      - by destruct Hi as (_ & -> & _).
      - destruct Hi as (Hi & _). congruence. }
    apply Forall_app in Hos as [Hos Ho1]. rewrite Forall_singleton in Ho1.
    rewrite <- !app_assoc. simpl. rewrite app_assoc.
    destruct (Hpair (pre ++ os) o1 o2) as [_ Heq]. rewrite Heq by congruence.
    rewrite Ho2. symmetry. apply bool_decide_eq_false.
    rewrite !length_app. simpl. lia.
  - intros a b. apply Hpair.
Qed.

(** The bookkeeping of one frame, in terms of whether a run completes. *)
Lemma eyeStep_completes i s :
  Eye.eyeClosedDebounced s = true ->
  Eye.eyeClosedDebounced (eyeStep i s) = false ->
  rawOf i = false /\ (EYE_DEBOUNCE_OFF_F <=? Eye.eyeDebOff s + 1)%Z = true.
Proof.
  rewrite eyeStep_debounced. intros ->. destruct (rawOf i); [done|].
  simpl. intros H%negb_false_iff. done.
Qed.

(** C6: blink classification.  On the frame where a closure run
    completes (debounced closed before, open after), the run is recorded
    with the frame length counted so far, and it is classified a blink
    (blink pulse shown on this frame, last-blink time set to now) if and
    only if that length lies in [2, 6]; the pulse lasts this one frame.
    On any other frame nothing is recorded or classified.  Lengths 0, 1
    and 7 are no blinks. *)
Theorem blink_classification (i : EyeIn) (s : Eye.State) :
  Eye.blinkPulse s = 0%Z ->
  let r := Eye.step (e_prob i) (e_now i) (e_featLen i) s in
  let lenF := Eye.eyeRunLenFrames s in
  (Eye.eyeClosedDebounced s = true -> Eye.eyeClosedDebounced r.1 = false ->
     Eye.eyeRuns r.1 =
       Eye.prune (e_now i - 30.0)
         (Eye.eyeRuns s ++ [Eye.run (e_now i) lenF (JS.Z2F lenF * DT)])
     /\ Eye.blink_state r.2 = bool_decide (2 <= lenF <= 6)%Z
     /\ ((2 <= lenF <= 6)%Z ->
           Eye.lastBlinkEndTime r.1 = e_now i /\ Eye.hasSeenBlink r.1 = 1%Z)
     /\ (~ (2 <= lenF <= 6)%Z ->
           Eye.lastBlinkEndTime r.1 = Eye.lastBlinkEndTime s
           /\ Eye.hasSeenBlink r.1 = Eye.hasSeenBlink s))
  /\ (~ (Eye.eyeClosedDebounced s = true /\ Eye.eyeClosedDebounced r.1 = false) ->
        Eye.eyeRuns r.1 = Eye.eyeRuns s
        /\ Eye.blink_state r.2 = false
        /\ Eye.lastBlinkEndTime r.1 = Eye.lastBlinkEndTime s)
  /\ Eye.blinkPulse r.1 = 0%Z
  /\ Eye.isBlinkLen 0 = false /\ Eye.isBlinkLen 1 = false
  /\ Eye.isBlinkLen 7 = false.
Proof.
  intros Hp r lenF.
  assert (Hlen : Eye.isBlinkLen lenF = bool_decide (2 <= lenF <= 6)%Z).
  { unfold Eye.isBlinkLen, BLINK_MIN_F, BLINK_MAX_F.
    destruct (Z.leb_spec 2 lenF), (Z.leb_spec lenF 6); simpl; symmetry;
      first [apply bool_decide_eq_true|apply bool_decide_eq_false]; lia. }
  split; [|split; [|split]]; [| | |done].
  - intros Hd Hd'.
    destruct (eyeStep_completes i s Hd Hd') as [Hraw Hoff].
    unfold r, Eye.step in *. unfold rawOf in Hraw. simpl in *.
    rewrite Hraw in *. simpl in *. rewrite Hd, Hoff in *. simpl in *.
    fold lenF. rewrite Hlen.
    destruct (bool_decide_reflect (2 <= lenF <= 6)%Z) as [Hin|Hout]; simpl.
    + repeat split; try done; tauto.
    + rewrite Hp. simpl. repeat split; try done; tauto.
  - intros Hn. unfold r, Eye.step in *. simpl in *.
    destruct (Eye.closedRaw (e_prob i)); simpl in *.
    + rewrite Hp. simpl. repeat (break_if; simpl); done.
    + destruct (Eye.eyeClosedDebounced s) eqn:Hd; simpl in *.
      * destruct (EYE_DEBOUNCE_OFF_F <=? Eye.eyeDebOff s + 1)%Z; simpl in *.
        -- exfalso. by apply Hn.
        -- by rewrite Hp.
      * by rewrite Hp.
  - unfold r, Eye.step. simpl.
    repeat (break_if; simpl; rewrite ?Hp); done.
Qed.

(** The prolonged-closure flag after a frame, as the source computes it:
    the lock-out compares [featBuf.length] with the length stored when
    the previous episode started. *)
Lemma eyeStep_prolonged i s :
  let s' := eyeStep i s in
  Eye.prolongedEyeActive s' =
    Eye.eyeClosedDebounced s'
    && (Eye.prolongedEyeActive s
        || (FRM_2P5S <=? Eye.eyeRunLenFrames s')%Z
           && (BLINK_LOCK_FRM <=? Z.of_nat (e_featLen i) - Eye.lastProlongStartFrame s)%Z).
Proof.
  unfold eyeStep, Eye.step. simpl.
  destruct (Eye.closedRaw (e_prob i)), (Eye.eyeClosedDebounced s) eqn:Hd,
    (Eye.prolongedEyeActive s); simpl; rewrite ?Hd; simpl;
    repeat (break_if; simpl; rewrite ?Hd; simpl); try done.
Qed.

Lemma eyeStep_open_not_prolonged i s :
  Eye.eyeClosedDebounced (eyeStep i s) = false ->
  Eye.prolongedEyeActive (eyeStep i s) = false.
Proof. intros H. pose proof (eyeStep_prolonged i s) as Hp. cbv zeta in Hp. by rewrite Hp, H. Qed.

Lemma eyeStep_lastProlongStart i s :
  Eye.lastProlongStartFrame (eyeStep i s) =
    if Eye.eyeClosedDebounced (eyeStep i s) && negb (Eye.prolongedEyeActive s)
       && (FRM_2P5S <=? Eye.eyeRunLenFrames (eyeStep i s))%Z
       && (BLINK_LOCK_FRM <=? Z.of_nat (e_featLen i) - Eye.lastProlongStartFrame s)%Z
    then Z.of_nat (e_featLen i) else Eye.lastProlongStartFrame s.
Proof.
  unfold eyeStep, Eye.step. simpl.
  destruct (Eye.closedRaw (e_prob i)), (Eye.eyeClosedDebounced s) eqn:Hd,
    (Eye.prolongedEyeActive s); simpl; rewrite ?Hd; simpl;
    repeat (break_if; simpl; rewrite ?Hd; simpl); try done.
Qed.

(** Once an episode has started with more than 60 rows in the window,
    the lock-out can never be passed again: the window length does not
    exceed 90, so the difference stays below 30. *)
Lemma lockout_never_expires ins s :
  Forall (fun i => e_featLen i <= TCN_WINDOW) ins ->
  (60 < Eye.lastProlongStartFrame s)%Z ->
  Eye.prolongedEyeActive s = false ->
  Eye.prolongedEyeActive (eyeSteps ins s) = false
  /\ Eye.lastProlongStartFrame (eyeSteps ins s) = Eye.lastProlongStartFrame s.
Proof.
  induction ins as [|i ins IH] using rev_ind; intros Hlen Hlast Hoff; [done|].
  apply Forall_app in Hlen as [Hlen Hi]. rewrite Forall_singleton in Hi.
  destruct (IH Hlen Hlast Hoff) as [IHp IHl].
  rewrite eyeSteps_snoc.
  pose proof (eyeStep_prolonged i (eyeSteps ins s)) as Hp. cbv zeta in Hp.
  rewrite Hp, eyeStep_lastProlongStart, IHp, IHl.
  assert (Hlock : (BLINK_LOCK_FRM <=?
      Z.of_nat (e_featLen i) - Eye.lastProlongStartFrame s)%Z = false).
  { apply Z.leb_gt. unfold BLINK_LOCK_FRM, TCN_WINDOW in *. lia. }
  rewrite Hlock. simpl. by rewrite !andb_false_r.
Qed.

Lemma debounce_ring raw now u :
  Eye.rbEyeClosed (Eye.debounce raw now u) = Eye.rbEyeClosed u.
Proof.
  unfold Eye.debounce. destruct raw; simpl; [done|].
  by destruct (Eye.eyeClosedDebounced u && _).
Qed.

Lemma eyeStep_ring i s :
  Eye.rbEyeClosed (eyeStep i s) = Ring.push (Eye.rbEyeClosed s) (sample (rawOf i)).
Proof.
  unfold eyeStep, Eye.step.
  cbn [fst Eye.decayPulse Eye.prolonged Eye.rbEyeClosed].
  by rewrite debounce_ring.
Qed.

(** The ring of a session holds the raw flags of its frames, so the
    window theorem applies to every PERCLOS value the engine reports. *)
Lemma eyeSteps_ring ins :
  Eye.rbEyeClosed (eyeSteps ins Eye.init)
  = Ring.pushes (Ring.new PER_30S) (sample <$> (rawOf <$> ins)).
Proof.
  induction ins as [|i ins IH] using rev_ind; [done|].
  rewrite eyeSteps_snoc, eyeStep_ring, IH, !fmap_app.
  change (sample <$> (rawOf <$> [i])) with [sample (rawOf i)].
  by rewrite pushes_snoc.
Qed.

Lemma perclos_is_window_mean ins i :
  Eye.perclos_30s
    (Eye.step (e_prob i) (e_now i) (e_featLen i) (eyeSteps ins Eye.init)).2
  = arith_mean (window PER_30S (rawOf <$> ins ++ [i])).
Proof.
  change (Eye.perclos_30s _) with
    (Ring.mean (Ring.push (Eye.rbEyeClosed (eyeSteps ins Eye.init))
                          (sample (rawOf i)))).
  rewrite eyeSteps_ring, <- pushes_snoc.
  change [sample (rawOf i)] with (sample <$> (rawOf <$> [i])).
  rewrite <- !fmap_app. apply pushes_mean. unfold PER_30S. lia.
Qed.

Lemma eyeStep_pulse i s :
  Eye.blinkPulse s = 0%Z -> Eye.blinkPulse (eyeStep i s) = 0%Z.
Proof.
  intros Hp. unfold eyeStep, Eye.step. simpl.
  repeat (break_if; simpl; rewrite ?Hp); done.
Qed.

(** Between frames of a session the blink pulse is always spent. *)
Lemma eyeSteps_pulse ins : Eye.blinkPulse (eyeSteps ins Eye.init) = 0%Z.
Proof.
  induction ins as [|i ins IH] using rev_ind; [done|].
  rewrite eyeSteps_snoc. by apply eyeStep_pulse.
Qed.
End EyeProps.

Section MouthProps.
Context {E : Exp}.

Lemma hysteresis_ema now u :
  Mouth.yawnEma1 (Mouth.hysteresis now u) = Mouth.yawnEma1 u.
Proof.
  unfold Mouth.hysteresis.
  repeat (match goal with |- context [if ?c then _ else _] => destruct c end; simpl);
    done.
Qed.

Lemma hysteresis_open now u :
  Mouth.mouthOpen (Mouth.hysteresis now u) =
    if Mouth.mouthOpen u then negb (JS.le (Mouth.yawnEma1 u) MOUTH_OFF_T)
    else JS.ge (Mouth.yawnEma1 u) MOUTH_ON_T.
Proof.
  unfold Mouth.hysteresis.
  destruct (Mouth.mouthOpen u) eqn:Ho;
    [destruct (JS.le _ MOUTH_OFF_T)|destruct (JS.ge _ MOUTH_ON_T)];
    simpl; rewrite ?Ho; done.
Qed.

Lemma mouthStep_unfold i s :
  mouthStep i s =
    Mouth.decayPulse (Mouth.hysteresis (m_now i) (Mouth.updateEma (m_prob i) s)).
Proof. reflexivity. Qed.

Lemma mouthStep_ema i s :
  Mouth.yawnEma1 (mouthStep i s) = Mouth.yawnEma1 (Mouth.updateEma (m_prob i) s).
Proof. rewrite mouthStep_unfold. simpl. apply hysteresis_ema. Qed.

(** The open flag after a frame, from the flag before and the new EMA. *)
Lemma mouthStep_open i s :
  let e := Mouth.yawnEma1 (mouthStep i s) in
  Mouth.mouthOpen (mouthStep i s) =
    if Mouth.mouthOpen s then negb (JS.le e MOUTH_OFF_T) else JS.ge e MOUTH_ON_T.
Proof.
  intros e. unfold e. rewrite mouthStep_ema, mouthStep_unfold.
  simpl Mouth.mouthOpen at 1. by rewrite hysteresis_open.
Qed.

Lemma inBand_holds e :
  inBand e = true -> JS.le e MOUTH_OFF_T = false /\ JS.ge e MOUTH_ON_T = false.
Proof.
  unfold inBand. intros [H1 H2]%andb_true_iff.
  split; [by apply JS_lt_not_ge|]. unfold JS.ge. by apply JS_lt_not_ge.
Qed.

Lemma mouthSteps_snoc ins i s :
  mouthSteps (ins ++ [i]) s = mouthStep i (mouthSteps ins s).
Proof. unfold mouthSteps. by rewrite foldl_snoc. Qed.

(** C7: the mouth state has a dead band.  A closed mouth opens on a
    frame exactly when the smoothed yawn probability is at least 0.55
    and an open mouth closes exactly when it is at most 0.45; over any
    stream of frames on which the smoothed value stays strictly between
    the two thresholds the open/closed state never changes. *)
Theorem mouth_dead_band :
  (forall i s,
      let e := Mouth.yawnEma1 (mouthStep i s) in
      (Mouth.mouthOpen s = false ->
         Mouth.mouthOpen (mouthStep i s) = JS.ge e MOUTH_ON_T)
      /\ (Mouth.mouthOpen s = true ->
         Mouth.mouthOpen (mouthStep i s) = negb (JS.le e MOUTH_OFF_T)))
  /\ (forall ins s,
      (forall k, 0 < k <= length ins ->
         inBand (Mouth.yawnEma1 (mouthSteps (take k ins) s)) = true) ->
      forall k, Mouth.mouthOpen (mouthSteps (take k ins) s) = Mouth.mouthOpen s).
Proof.
  split.
  - intros i s e. pose proof (mouthStep_open i s) as H. cbv zeta in H.
    split; intros Ho; rewrite Ho in H; exact H.
  - intros ins. induction ins as [|i ins IH] using rev_ind; intros s Hband k.
    { by rewrite take_nil. }
    assert (Hpre : forall k, Mouth.mouthOpen (mouthSteps (take k ins) s) = Mouth.mouthOpen s).
    { apply IH. intros j Hj. specialize (Hband j).
      rewrite take_app_le in Hband by lia. apply Hband.
      rewrite length_app. simpl. lia. }
    destruct (decide (k <= length ins)) as [Hk|Hk].
    { rewrite take_app_le by done. apply Hpre. }
    rewrite take_ge by (rewrite length_app; simpl; lia).
    rewrite mouthSteps_snoc.
    specialize (Hband (length (ins ++ [i]))).
    rewrite take_ge, mouthSteps_snoc in Hband by done.
    destruct (inBand_holds _ (Hband ltac:(rewrite length_app; simpl; lia))) as [Hle Hge].
    pose proof (mouthStep_open i (mouthSteps ins s)) as Ho. cbv zeta in Ho.
    rewrite Ho, Hle, Hge. simpl.
    specialize (Hpre (length ins)). rewrite take_ge in Hpre by done.
    rewrite Hpre. by destruct (Mouth.mouthOpen s).
Qed.
End MouthProps.

Example exp_series_values :
  exp_series (- DT / 1.0) = 0x1.defac583c7dd4p-1%float
  /\ exp_series (- DT / 5.0) = 0x1.f937f8fa3ep-1%float.
Proof. vm_compute. by split. Qed.


(** C1 (the code departs from it): the lock-out of the prolonged-closure
    flag is measured with [featBuf.length], which stops growing at 90.
    In the session [twoClosures] a first episode starts on frame 102; on
    frame 155 the eye is debounced-closed with run length 12, 53 frames
    after that start, and the flag stays off. *)
Theorem prolonged_closure_missed :
  let after n := eye (refRun (take (S n) twoClosures)) in
  Eye.prolongedEyeActive (after 102) = false
  /\ Eye.prolongedEyeActive (after 103) = true
  /\ Eye.lastProlongStartFrame (after 103) = 90%Z
  /\ Eye.eyeClosedDebounced (after 156) = true
  /\ Eye.eyeRunLenFrames (after 156) = FRM_2P5S
  /\ (BLINK_LOCK_FRM <= 155 - 102)%Z
  /\ Eye.prolongedEyeActive (after 156) = false.
Proof. vm_compute. repeat split; try reflexivity; discriminate. Qed.

Section EngineProps.
Context {E : Exp} {C : Classifier}.

(** The frame handler runs the eye block on the current window length. *)
Lemma processTick_eye i s :
  eye (processTick i s).1 =
    eyeStep {| e_prob := unifiedEyeProb i; e_now := nowSec i;
               e_featLen := length (Tcn.featBuf (tcn s)) |} (eye s).
Proof. reflexivity. Qed.

Lemma processTick_mouth i s :
  mouth (processTick i s).1 = (Mouth.step (yawnProb i) (nowSec i) (mouth s)).1.
Proof. reflexivity. Qed.

Lemma pushRow_length buf row :
  length (Feat.pushRow buf row) = Nat.min (length buf + 1) (Nat.max TCN_WINDOW (length buf)).
Proof.
  unfold Feat.pushRow. rewrite length_app. simpl.
  destruct (Nat.ltb_spec TCN_WINDOW (length buf + 1)).
  - rewrite length_drop, length_app. simpl. lia.
  - rewrite length_app. simpl. lia.
Qed.

Lemma tcnPredictIfReady_featBuf n t :
  Tcn.featBuf (Tcn.tcnPredictIfReady n t).1 = Tcn.featBuf t.
Proof.
  unfold Tcn.tcnPredictIfReady. destruct tcnModel; [|done].
  by destruct (_ <? _)%nat.
Qed.

Lemma processTick_featBuf i s :
  exists row,
    Tcn.featBuf (tcn (processTick i s).1) = Feat.pushRow (Tcn.featBuf (tcn s)) row.
Proof. eexists. unfold processTick. simpl. by rewrite tcnPredictIfReady_featBuf. Qed.

Lemma processTick_window_bound i s :
  length (Tcn.featBuf (tcn s)) <= TCN_WINDOW ->
  length (Tcn.featBuf (tcn (processTick i s).1)) <= TCN_WINDOW.
Proof.
  intros Hb. destruct (processTick_featBuf i s) as [row ->].
  rewrite pushRow_length. lia.
Qed.

Lemma debounce_ema raw now u :
  Eye.emaEye1 (Eye.debounce raw now u) = Eye.emaEye1 u
  /\ Eye.emaEye5 (Eye.debounce raw now u) = Eye.emaEye5 u.
Proof.
  unfold Eye.debounce. destruct raw; simpl; [done|].
  by destruct (Eye.eyeClosedDebounced u && _).
Qed.

Lemma eyeStep_ema p now fl s :
  Eye.emaEye1 (Eye.step p now fl s).1 = Eye.emaEye1 (Eye.updateEma p s)
  /\ Eye.emaEye5 (Eye.step p now fl s).1 = Eye.emaEye5 (Eye.updateEma p s).
Proof.
  unfold Eye.step. cbn [fst Eye.decayPulse Eye.prolonged Eye.emaEye1 Eye.emaEye5].
  destruct (debounce_ema (Eye.closedRaw p) now
              (Eye.updateEma p (Eye.pushRing (Eye.closedRaw p) s))) as [-> ->].
  done.
Qed.

(** The cold start inside the frame handler proper. *)
Lemma processTick_cold_eye (i : Tick) (s : State) :
  JS.isFinite (Eye.emaEye1 (eye s)) = false ->
  JS.isFinite (unifiedEyeProb i) = false ->
  let r := processTick i s in
  Eye.emaEye1 (eye r.1) = 1.0%float /\ Eye.emaEye5 (eye r.1) = 1.0%float
  /\ rawFeat r.2 ema_eye_open_1s = 1.0%float
  /\ rawFeat r.2 ema_eye_open_5s = 1.0%float
  /\ rawFeat r.2 eye_open_unified = 0.5%float.
Proof.
  intros Hu Hp r.
  assert (He : Eye.emaEye1 (eye r.1) = 1.0%float /\ Eye.emaEye5 (eye r.1) = 1.0%float).
  { unfold r. change (eye (processTick i s).1) with
      (Eye.step (unifiedEyeProb i) (nowSec i) (length (Tcn.featBuf (tcn s))) (eye s)).1.
    destruct (eyeStep_ema (unifiedEyeProb i) (nowSec i)
                (length (Tcn.featBuf (tcn s))) (eye s)) as [-> ->].
    unfold Eye.updateEma. simpl. by rewrite Hu, Hp. }
  destruct He as [He1 He5]. repeat split; try done.
  - unfold r, processTick. cbn [snd rawFeat Feat.buildRawFeatures Feat.o_ema_eye_open_1s].
    change (Eye.emaEye1 _) with (Eye.emaEye1 (eye r.1)). by rewrite He1.
  - unfold r, processTick. cbn [snd rawFeat Feat.buildRawFeatures Feat.o_ema_eye_open_5s].
    change (Eye.emaEye5 _) with (Eye.emaEye5 (eye r.1)). by rewrite He5.
  - unfold r, processTick. cbn [snd rawFeat Feat.buildRawFeatures Feat.o_eye_open_unified].
    unfold Feat.finiteOr. by rewrite Hp.
Qed.

Lemma processTick_cold_mouth (i : Tick) (s : State) :
  JS.isFinite (Mouth.yawnEma1 (mouth s)) = false ->
  JS.isFinite (yawnProb i) = false ->
  let r := processTick i s in
  Mouth.yawnEma1 (mouth r.1) = 0%float /\ rawFeat r.2 yawn_prob_ema_1s = 0%float.
Proof.
  intros Hu Hp r.
  assert (Hm : Mouth.yawnEma1 (mouth r.1) = 0%float).
  { unfold r. rewrite processTick_mouth.
    change (Mouth.step (yawnProb i) (nowSec i) (mouth s)).1 with
      (mouthStep {| m_prob := yawnProb i; m_now := nowSec i |} (mouth s)).
    rewrite mouthStep_ema. unfold Mouth.updateEma. simpl. by rewrite Hu, Hp. }
  split; [done|].
  unfold r, processTick. cbn [snd rawFeat Feat.buildRawFeatures Feat.o_yawn_prob_ema_1s].
  change (Mouth.yawnEma1 _) with (Mouth.yawnEma1 (mouth r.1)). by rewrite Hm.
Qed.
End EngineProps.

Section ColdStart.
Context {E : Exp} {T : Trig} {C : Classifier}.

Lemma captureBaseline_blocks clock preAxes s :
  eye (captureBaseline clock preAxes s) = eye s
  /\ mouth (captureBaseline clock preAxes s) = mouth s
  /\ tcn (captureBaseline clock preAxes s) = tcn s
  /\ smooth (captureBaseline clock preAxes s) = smooth s.
Proof. unfold captureBaseline. by destruct (baselineCaptured s). Qed.

(** C10: cold start of the exponential filters at the frame handler.
    [startProcessing] leaves the eye and yawn filters uninitialised (not
    finite).  On a result handled while the eye filters are
    uninitialised and the unified eye probability is not finite (as when
    an eye crop is missing), both eye filters are set to 1.0, and the
    feature vector carries 1.0 for them while the openness feature gets
    its default 0.5; on a result handled while the yawn filter is
    uninitialised and the yawn probability is not finite (as when the
    mouth crop is missing), the yawn filter is set to 0. *)
Theorem cold_start_ema (fr : Frame) (s : State) :
  runningFlag s = true ->
  let i := poseTick fr s in
  let r := onResults (Some fr) s in
  (JS.isFinite (Eye.emaEye1 (eye s)) = false ->
   JS.isFinite (unifiedEyeProb i) = false ->
     Eye.emaEye1 (eye r.1) = 1.0%float /\ Eye.emaEye5 (eye r.1) = 1.0%float
     /\ (flip rawFeat ema_eye_open_1s <$> r.2) = Some 1.0%float
     /\ (flip rawFeat ema_eye_open_5s <$> r.2) = Some 1.0%float
     /\ (flip rawFeat eye_open_unified <$> r.2) = Some 0.5%float)
  /\ (JS.isFinite (Mouth.yawnEma1 (mouth s)) = false ->
      JS.isFinite (yawnProb i) = false ->
        Mouth.yawnEma1 (mouth r.1) = 0%float
        /\ (flip rawFeat yawn_prob_ema_1s <$> r.2) = Some 0%float)
  /\ (eyePred fr = None -> JS.isFinite (unifiedEyeProb i) = false)
  /\ (yawnPred fr = None -> JS.isFinite (yawnProb i) = false)
  /\ (forall s0,
        JS.isFinite (Eye.emaEye1 (eye (startProcessing true s0))) = false
        /\ JS.isFinite (Mouth.yawnEma1 (mouth (startProcessing true s0))) = false).
Proof.
  intros Hrun i r.
  assert (Hr : r = ((processTick i (captureBaseline (f_clockReset fr)
                       (Pose.faceAxesFromLandmarks (lm fr)) s)).1,
                    Some (processTick i (captureBaseline (f_clockReset fr)
                       (Pose.faceAxesFromLandmarks (lm fr)) s)).2)).
  { unfold r, onResults. by rewrite Hrun. }
  destruct (captureBaseline_blocks (f_clockReset fr)
              (Pose.faceAxesFromLandmarks (lm fr)) s) as (He & Hm & _ & _).
  rewrite Hr. cbn [fst snd fmap option_fmap option_map].
  split; [|split; [|split; [|split]]].
  - intros Hu Hp.
    destruct (processTick_cold_eye i _ ltac:(by rewrite He) Hp)
      as (H1 & H5 & Hf1 & Hf5 & Hfu).
    unfold flip. by rewrite H1, H5, Hf1, Hf5, Hfu.
  - intros Hu Hp.
    destruct (processTick_cold_mouth i _ ltac:(by rewrite Hm) Hp) as (Hy & Hfy).
    unfold flip. by rewrite Hy, Hfy.
  - intros Hnone. unfold i, poseTick. cbn [unifiedEyeProb]. by rewrite Hnone.
  - intros Hnone. unfold i, poseTick. cbn [yawnProb]. by rewrite Hnone.
  - intros s0. by split.
Qed.
End ColdStart.

Section NormProps.
Context {E : Exp} {T : Trig} {C : Classifier}.

(** The normalisation block never stores statistics: the only call of
    [finalizeNorm] comes after [normMode] has been cleared, and
    [finalizeNorm] returns at once when [normMode] is clear. *)
Lemma collect_keeps_stats clock raw n :
  Norm.mu (Norm.collect clock raw n) = Norm.mu n
  /\ Norm.sigma (Norm.collect clock raw n) = Norm.sigma n.
Proof.
  unfold Norm.collect. destruct (Norm.normMode n); [|done].
  destruct (JS.ge _ NORM_SECONDS); [|done].
  unfold Norm.finalizeNorm. simpl. done.
Qed.

Lemma processTick_keeps_stats i s :
  Norm.mu (norm (processTick i s).1) = Norm.mu (norm s)
  /\ Norm.sigma (norm (processTick i s).1) = Norm.sigma (norm s).
Proof. apply collect_keeps_stats. Qed.

Lemma resetNorm_keeps_stats clock n :
  Norm.mu (Norm.resetNorm clock n) = Norm.mu n
  /\ Norm.sigma (Norm.resetNorm clock n) = Norm.sigma n.
Proof. unfold Norm.resetNorm. by destruct (Norm.normalizationEnabled n). Qed.

Lemma handle_keeps_stats s ev :
  Norm.mu (norm (handle s ev)) = Norm.mu (norm s)
  /\ Norm.sigma (norm (handle s ev)) = Norm.sigma (norm s).
Proof.
  destruct ev as [cam| |b|res]; simpl; try done.
  - unfold startProcessing. by destruct cam.
  - unfold onResults. destruct (runningFlag s); cbn [negb]; [|done].
    destruct res as [fr|]; [|done]. cbv zeta. cbn [fst].
    match goal with |- context [processTick ?i ?s'] =>
      destruct (processTick_keeps_stats i s') as [-> ->] end.
    unfold captureBaseline. destruct (baselineCaptured s); simpl; [done|].
    apply resetNorm_keeps_stats.
Qed.
End NormProps.

(** C9 (the code departs from it): statistics are never finalised.  The
    frame handler clears [normMode] before it calls [finalizeNorm], whose
    first statement returns when [normMode] is clear; so in every state a
    session can reach, whatever the number of samples collected, no mean
    and no deviation is stored and rows stay unnormalised. *)
Theorem statistics_never_stored {E : Exp} {T : Trig} {C : Classifier}
    (evs : list Event) :
  Norm.mu (norm (runEvents evs)) = None
  /\ Norm.sigma (norm (runEvents evs)) = None.
Proof.
  unfold runEvents. induction evs as [|ev evs IH] using rev_ind; [done|].
  rewrite foldl_snoc.
  destruct (handle_keeps_stats (foldl handle loaded evs) ev) as [-> ->].
  exact IH.
Qed.

(** The statistics [finalizeNorm] computes when it is entered with
    [normMode] set: the claimed formulas, stored as binary32 values. *)
Lemma finalizeNorm_when_collecting n :
  Norm.normMode n = true ->
  let r := Norm.finalizeNorm n in
  ((Norm.baseCnt n < MIN_ACCEPTED)%Z -> r = (false, n))
  /\ ((MIN_ACCEPTED <= Norm.baseCnt n)%Z ->
      r.1 = true
      /\ Norm.mu r.2 =
           Some ((fun sum => JS.fround (sum / JS.Z2F (Norm.baseCnt n))) <$> Norm.baseSum n)
      /\ Norm.sigma r.2 =
           Some (zip_with
                   (fun sum sq =>
                      let m := (sum / JS.Z2F (Norm.baseCnt n))%float in
                      JS.fround (sqrt (JS.Math_max 1e-6
                                         (sq / JS.Z2F (Norm.baseCnt n) - m * m))))
                   (Norm.baseSum n) (Norm.baseSqSum n))).
Proof.
  intros Hm r. unfold r, Norm.finalizeNorm. rewrite Hm. simpl.
  destruct (Z.ltb_spec (Norm.baseCnt n) MIN_ACCEPTED); split; intros; try lia; done.
Qed.

(** A session with normalisation on: 151 results at 15 Hz, so that the
    10 s window elapses on the last one with 151 samples collected. *)
Example collection_ends_without_statistics :
  let collecting := refRun (normalised 150) in
  let s := refRun (normalised 151) in
  Norm.normMode (norm collecting) = true
  /\ Norm.baseCnt (norm s) = 151%Z
  /\ Norm.normMode (norm s) = false
  /\ Norm.mu (norm s) = None
  /\ Norm.normSummary (norm s) = Norm.Collecting.
Proof. vm_compute. repeat split. Qed.

(** C2 (the code departs from it): the six pose features are copied into
    the feature object without a finiteness check.  When one landmark of
    the first result of a session comes without a depth, yaw and pitch
    are NaN in the assembled vector and in the row pushed to the window;
    the captured baseline then holds NaN, so that on a later result with
    sound landmarks the pose angles and their rates are still NaN. *)
Theorem nonfinite_yaw_reaches_window :
  let first :=
    refOutput [Start true]
      (Some {| f_nowSec := 0; f_clockReset := 0; f_clockNorm := 0;
               lm := noDepth; eyePred := Some (0.9, 0.9)%float;
               yawnPred := Some 0.1%float |}) in
  let later := refOutput lostDepth (frontalFrame 0.9 7) in
  (JS.isFinite <$> (flip rawFeat yaw_adj <$> first)) = Some false
  /\ (forallb JS.isFinite <$> Tcn.featBuf (tcn (refRun (take 2 lostDepth))) !! 0%nat)
     = Some false
  /\ (JS.isFinite <$> (flip rawFeat yaw_adj <$> later)) = Some false
  /\ (JS.isFinite <$> (flip rawFeat dyaw_adj_per_s <$> later)) = Some false.
Proof. vm_compute. repeat split. Qed.

(** What [buildRawFeatures] does guard, and what it passes through. *)
Lemma buildRawFeatures_guards (obj : Feat.Obj) :
  (forall key,
      key ∉ [yaw_adj; pitch_adj; roll_adj; dyaw_adj_per_s; dpitch_adj_per_s;
             droll_adj_per_s; eye_run_len_frames] ->
      JS.isFinite (Feat.buildRawFeatures obj key) = true)
  /\ Feat.buildRawFeatures obj yaw_adj = Feat.yawDeg obj
  /\ Feat.buildRawFeatures obj pitch_adj = Feat.pitchDeg obj
  /\ Feat.buildRawFeatures obj roll_adj = Feat.rollDeg obj
  /\ Feat.buildRawFeatures obj dyaw_adj_per_s = Feat.dYaw obj
  /\ Feat.buildRawFeatures obj dpitch_adj_per_s = Feat.dPitch obj
  /\ Feat.buildRawFeatures obj droll_adj_per_s = Feat.dRoll obj.
Proof.
  split; [|done]. intros key Hk.
  assert (Hf : forall v d, JS.isFinite d = true -> JS.isFinite (Feat.finiteOr v d) = true).
  { intros v d Hd. unfold Feat.finiteOr. by destruct (JS.isFinite v) eqn:Hv. }
  destruct key; simpl; try (by apply Hf); exfalso; apply Hk; apply list_elem_of_In; simpl; tauto.
Qed.

(** What [startProcessing] restores, and what it leaves as it was. *)
Lemma startProcessing_fields (s : State) :
  let s' := startProcessing true s in
  runningFlag s' = true /\ baselineCaptured s' = false
  /\ baseline s' = None
  /\ eye s' = resetEye (eye s)
  /\ mouth s' = Mouth.init /\ nod s' = Nod.init /\ tcn s' = Tcn.init
  /\ smooth s' = smooth s /\ norm s' = norm s.
Proof. by repeat split. Qed.

(** C3 (the code departs from it): [startProcessing] restores the eye,
    mouth, nod, calibrator and window state but leaves [angleBufs] and
    [deltaEMA] (and the normaliser's accumulators) untouched.  After a
    session in which the head turned, the first frame of the next session
    carries a yaw rate computed from the old session's angles, where a
    fresh engine reports 0. *)
Theorem session_reset_keeps_pose_history :
  (forall s, smooth (startProcessing true s) = smooth s
             /\ norm (startProcessing true s) = norm s)
  /\ let second := refRun headTurn in
     let first := refOutput headTurn (frontalFrame 0.9 0) in
     let fresh := refOutput [Start true] (frontalFrame 0.9 0) in
     length (Pose.yaw (Pose.angleBufs (smooth second))) = 3
     /\ JS.lt 50 (Pose.yaw (Pose.deltaEMA (smooth second))) = true
     /\ (flip rawFeat dyaw_adj_per_s <$> fresh) = Some 0%float
     /\ (JS.lt 30 <$> (flip rawFeat dyaw_adj_per_s <$> first)) = Some true.
Proof. split; [done|]. vm_compute. repeat split. Qed.

Section WindowProps.
Context {E : Exp} {T : Trig} {C : Classifier}.

Lemma pushRows_window (rows : list (list float)) :
  foldl Feat.pushRow [] rows = window TCN_WINDOW rows.
Proof.
  induction rows as [|row rows IH] using rev_ind; [done|].
  rewrite foldl_snoc, IH.
  change (Feat.pushRow ?b ?r) with (slide TCN_WINDOW b r).
  apply slide_window. unfold TCN_WINDOW. lia.
Qed.

Lemma handle_window_bound s ev :
  length (Tcn.featBuf (tcn s)) <= TCN_WINDOW ->
  length (Tcn.featBuf (tcn (handle s ev))) <= TCN_WINDOW.
Proof.
  intros Hb. destruct ev as [cam| |b|res]; simpl; try done.
  - unfold startProcessing. destruct cam; simpl; [lia|done].
  - unfold onResults. destruct (runningFlag s); cbn [negb]; [|done].
    destruct res as [fr|]; [|done]. cbv zeta. cbn [fst].
    apply processTick_window_bound.
    unfold captureBaseline. by destruct (baselineCaptured s).
Qed.

(** C8, as the code has it: the window holds the last 90 rows pushed, in
    order, so it never exceeds 90 rows and only the oldest row leaves on
    overflow; the classifier is invoked exactly when a model is loaded
    and the window holds 90 rows.  Below 90 rows the status is the
    progress count [Warming len/90], except that it reads [Awaiting]
    while normalisation is switched on and no statistics are stored, and
    [NotLoaded] when there is no model. *)
Theorem temporal_window (rows : list (list float)) (n : Norm.State)
    (drowsy : bool) (text : Tcn.Text) (evs : list Event) :
  let buf := foldl Feat.pushRow [] rows in
  let r := Tcn.tcnPredictIfReady n
             {| Tcn.featBuf := buf; Tcn.tcnIsDrowsy := drowsy; Tcn.tcnText := text |} in
  buf = window TCN_WINDOW rows
  /\ length buf <= TCN_WINDOW
  /\ length (Tcn.featBuf (tcn (runEvents evs))) <= TCN_WINDOW
  /\ r.2 = match tcnModel with
           | Some predict =>
               if bool_decide (length buf = TCN_WINDOW) then Some (predict buf)
               else None
           | None => None
           end
  /\ Tcn.tcnText r.1 =
       match tcnModel with
       | None => Tcn.NotLoaded
       | Some predict =>
           if bool_decide (length buf = TCN_WINDOW)
           then Tcn.Verdict (Tcn.hysteresis drowsy (predict buf)) (predict buf)
           else if bool_decide (is_Some (Norm.mu n))
                   || negb (Norm.normalizationEnabled n)
                then Tcn.Warming (length buf)
                else Tcn.Awaiting
       end.
Proof.
  intros buf r.
  assert (Hw : buf = window TCN_WINDOW rows) by apply pushRows_window.
  assert (Hl : length buf <= TCN_WINDOW).
  { rewrite Hw. unfold window. rewrite length_drop. lia. }
  split; [done|]. split; [done|]. split.
  { unfold runEvents. induction evs as [|ev evs IH] using rev_ind.
    - simpl. lia.
    - rewrite foldl_snoc. by apply handle_window_bound. }
  unfold r, Tcn.tcnPredictIfReady. destruct tcnModel as [predict|]; [|done].
  simpl. destruct (Nat.ltb_spec (length buf) TCN_WINDOW) as [Hlt|Hge]; simpl.
  - rewrite bool_decide_eq_false_2 by lia. split; [done|].
    by destruct (bool_decide (is_Some (Norm.mu n))), (Norm.normalizationEnabled n).
  - rewrite bool_decide_eq_true_2 by lia. by rewrite take_ge by lia.
Qed.
End WindowProps.

(** C8 as it was stated fails: on the first frame of a session with
    normalisation switched on the window holds one row, and the status
    reads [Awaiting] instead of a warming-up progress count. *)
Lemma warming_status_not_reported :
  let s := refRun (normalised 1) in
  length (Tcn.featBuf (tcn s)) = 1
  /\ 1 < TCN_WINDOW
  /\ Tcn.tcnText (tcn s) = Tcn.Awaiting
  /\ Tcn.tcnText (tcn s) <> Tcn.Warming 1.
Proof. vm_compute. repeat split; [lia|discriminate]. Qed.

(** [eye_debounce] at work: shut, shut, open, open. *)
Lemma eye_debounce_witness :
  let c0 := eyeFrame 0.2 0 in
  let c1 := eyeFrame 0.2 1 in
  let o1 := eyeFrame 0.9 1 in
  let o2 := eyeFrame 0.9 2 in
  let o3 := eyeFrame 0.9 3 in
  let deb l := Eye.eyeClosedDebounced (@eyeSteps refExp l Eye.init) in
  deb [c0] = false /\ deb [c0; o1] = false
  /\ deb [c0; c1] = true
  /\ deb [c0; c1; o2] = true /\ deb [c0; c1; o2; o3] = false.
Proof.
  intros c0 c1 o1 o2 o3 deb.
  destruct (@eye_debounce refExp []) as (HA & HB & _ & _).
  destruct (@eye_debounce refExp [c0; c1]) as (_ & _ & HC & _).
  assert (Hopen : @restsOpen refExp []).
  { split; [reflexivity|]. simpl. intros H. inversion H. }
  assert (Hclosed : @restsClosed refExp [c0; c1]).
  { split; [vm_compute; reflexivity|]. vm_compute. intros H. inversion H. }
  destruct (HB c0 o1 Hopen) as [H1 H2]; [vm_compute; reflexivity..|].
  split; [exact H1|]. split; [exact H2|]. split.
  - apply (HA [c0; c1] Hopen). repeat constructor.
  - split.
    + apply (HC [o2] Hclosed). repeat constructor.
    + apply (HC [o2; o3] Hclosed). repeat constructor.
Defined.

(** [blink_classification] at work: the run of [shut, shut, open] is
    completed by a second open frame with length 2, a blink. *)
Lemma blink_classification_witness :
  let s := @eyeSteps refExp [eyeFrame 0.2 0; eyeFrame 0.2 1; eyeFrame 0.9 2] Eye.init in
  let r := @Eye.step refExp 0.9 (3 / 15) 3 s in
  Eye.blinkPulse s = 0%Z
  /\ Eye.eyeClosedDebounced s = true /\ Eye.eyeClosedDebounced r.1 = false
  /\ Eye.eyeRunLenFrames s = 2%Z
  /\ Eye.blink_state r.2 = true
  /\ Eye.lastBlinkEndTime r.1 = (3 / 15)%float.
Proof.
  intros s r.
  assert (Hp : Eye.blinkPulse s = 0%Z) by (vm_compute; reflexivity).
  assert (Hd : Eye.eyeClosedDebounced s = true) by (vm_compute; reflexivity).
  assert (Hd' : Eye.eyeClosedDebounced r.1 = false) by (vm_compute; reflexivity).
  assert (Hl : Eye.eyeRunLenFrames s = 2%Z) by (vm_compute; reflexivity).
  destruct (@blink_classification refExp
              {| e_prob := 0.9; e_now := 3 / 15; e_featLen := 3 |} s Hp)
    as (Hrun & _).
  destruct (Hrun Hd Hd') as (_ & Hb & Hin & _).
  destruct Hin as [Ht _]; [rewrite Hl; lia|].
  split; [exact Hp|]. split; [exact Hd|]. split; [exact Hd'|].
  split; [exact Hl|]. split; [|exact Ht].
  transitivity (bool_decide (2 <= Eye.eyeRunLenFrames s <= 6)%Z); [exact Hb|].
  apply bool_decide_eq_true. rewrite Hl. lia.
Defined.

(** [mouth_dead_band] at work: a probability alternating between 0.46
    and 0.54 leaves a closed mouth closed; 0.6 opens it. *)
Lemma mouth_dead_band_witness :
  let ins := imap (fun k p => mouthFrame p k) [0.46; 0.54; 0.46; 0.54; 0.46; 0.54]%float in
  (forall k, Mouth.mouthOpen (@mouthSteps refExp (take k ins) Mouth.init) = false)
  /\ Mouth.mouthOpen (@mouthStep refExp (mouthFrame 0.6 0) Mouth.init) = true.
Proof.
  intros ins. destruct (@mouth_dead_band refExp) as [Hstep Hband]. split.
  - intros k. apply (Hband ins Mouth.init).
    intros j Hj.
    destruct j as [|[|[|[|[|[|[|j]]]]]]]; simpl in Hj; try lia; vm_compute; reflexivity.
  - destruct (Hstep (mouthFrame 0.6 0) Mouth.init) as [Hopen _].
    rewrite Hopen; [vm_compute; reflexivity|reflexivity].
Defined.

(** [cold_start_ema] at work: the first result of a session, with both
    crops missing. *)
Lemma cold_start_ema_witness :
  let s := refRun [Start true] in
  let r := @onResults refExp refTrig perclosClassifier (Some blindFrame) s in
  runningFlag s = true
  /\ Eye.emaEye1 (eye r.1) = 1.0%float /\ Eye.emaEye5 (eye r.1) = 1.0%float
  /\ (flip rawFeat eye_open_unified <$> r.2) = Some 0.5%float
  /\ Mouth.yawnEma1 (mouth r.1) = 0%float.
Proof.
  intros s r.
  assert (Hrun : runningFlag s = true) by reflexivity.
  destruct (@cold_start_ema refExp refTrig perclosClassifier blindFrame s Hrun)
    as (Heye & Hmouth & Hnoeye & Hnomouth & _).
  destruct Heye as (H1 & H5 & _ & _ & Hu); [reflexivity|by apply Hnoeye|].
  destruct Hmouth as (Hy & _); [reflexivity|by apply Hnomouth|].
  repeat split; assumption.
Defined.

(** * Further properties of the engine

    ** The order of binary64 values *)

Lemma Pos_compare_cont_Eq p q : Pos.compare_cont Eq p q = (p ?= q)%positive.
Proof. reflexivity. Qed.

Lemma SFcompare_refl x : x <> S754_nan -> SFcompare x x = Some Eq.
Proof.
  destruct x as [[]|[]| |[] m e]; simpl; try done;
    intros _; by rewrite Z.compare_refl, Pos_compare_cont_Eq, Pos.compare_refl.
Qed.

Ltac sf_order :=
  repeat match goal with
  | H : context [Pos.compare_cont Eq ?a ?b] |- _ =>
      change (Pos.compare_cont Eq a b) with (a ?= b)%positive in H
  | |- context [Pos.compare_cont Eq ?a ?b] =>
      change (Pos.compare_cont Eq a b) with (a ?= b)%positive
  end;
  repeat match goal with
  | H : context [(?a ?= ?b)%Z] |- _ => destruct (Z.compare_spec a b); simpl in H
  | |- context [(?a ?= ?b)%Z] => destruct (Z.compare_spec a b); simpl
  | H : context [(?a ?= ?b)%positive] |- _ => destruct (Pos.compare_spec a b); simpl in H
  | |- context [(?a ?= ?b)%positive] => destruct (Pos.compare_spec a b); simpl
  end; try done; try lia.

Lemma SFcompare_trans x y z c :
  SFcompare x y = Some c -> SFcompare y z = Some c \/ SFcompare y z = Some Eq ->
  SFcompare x z = Some c.
Proof.
  destruct x as [[]|[]| |[] mx ex], y as [[]|[]| |[] my ey], z as [[]|[]| |[] mz ez];
    simpl; rewrite ?Pos_compare_cont_Eq; intros H1 [H2|H2];
    try done; try congruence;
    injection H1 as <-; injection H2 as H2; f_equal; sf_order.
Qed.

Lemma SFcompare_Eq_trans x y z c :
  SFcompare x y = Some Eq -> SFcompare y z = Some c -> SFcompare x z = Some c.
Proof.
  destruct x as [[]|[]| |[] mx ex], y as [[]|[]| |[] my ey], z as [[]|[]| |[] mz ez];
    simpl; rewrite ?Pos_compare_cont_Eq; intros H1 H2;
    try done; try congruence;
    injection H1 as H1; injection H2 as <-; f_equal; sf_order.
Qed.

Lemma JS_lt_spec a b :
  JS.lt a b = true <-> SFcompare (Prim2SF a) (Prim2SF b) = Some Lt.
Proof.
  unfold JS.lt. rewrite ltb_spec. unfold SFltb.
  destruct (SFcompare _ _) as [[| |]|]; split; congruence.
Qed.

Lemma JS_le_spec a b :
  JS.le a b = true <->
  SFcompare (Prim2SF a) (Prim2SF b) = Some Lt
  \/ SFcompare (Prim2SF a) (Prim2SF b) = Some Eq.
Proof.
  unfold JS.le. rewrite leb_spec. unfold SFleb.
  destruct (SFcompare _ _) as [[| |]|]; split; intros; try tauto; try congruence;
    destruct H; congruence.
Qed.

Lemma is_nan_spec a : is_nan a = true <-> Prim2SF a = S754_nan.
Proof.
  unfold is_nan. rewrite eqb_spec. unfold SFeqb.
  destruct (Prim2SF a) as [[]|[]| |[] m e] eqn:Ha; simpl;
    rewrite ?Z.compare_refl, ?Pos_compare_cont_Eq, ?Pos.compare_refl; simpl;
    split; congruence.
Qed.

Lemma is_nan_false a : is_nan a = false <-> Prim2SF a <> S754_nan.
Proof.
  rewrite <- is_nan_spec. destruct (is_nan a); split; congruence.
Qed.

(** There is one NaN. *)
Lemma is_nan_eq a : is_nan a = true -> a = nan.
Proof.
  intros H%is_nan_spec. apply Prim2SF_inj. by rewrite H.
Qed.

Lemma SFcompare_Some a b :
  a <> S754_nan -> b <> S754_nan -> exists c, SFcompare a b = Some c.
Proof.
  destruct a as [[]|[]| |[] ma ea], b as [[]|[]| |[] mb eb]; simpl; intros; try done;
    eauto.
Qed.

Lemma SFcompare_not_nan a b c :
  SFcompare a b = Some c -> a <> S754_nan /\ b <> S754_nan.
Proof.
  destruct a as [[]|[]| |[] ma ea], b as [[]|[]| |[] mb eb]; simpl; intros; done.
Qed.

Lemma JS_lt_le a b : JS.lt a b = true -> JS.le a b = true.
Proof. rewrite JS_lt_spec, JS_le_spec. tauto. Qed.

Lemma JS_le_refl a : is_nan a = false -> JS.le a a = true.
Proof.
  rewrite is_nan_false, JS_le_spec. intros H. right. by apply SFcompare_refl.
Qed.

Lemma JS_le_not_nan a b : JS.le a b = true -> is_nan a = false /\ is_nan b = false.
Proof.
  rewrite JS_le_spec, !is_nan_false. intros [H|H]; by apply SFcompare_not_nan in H.
Qed.

Lemma JS_lt_trans a b c : JS.lt a b = true -> JS.lt b c = true -> JS.lt a c = true.
Proof.
  rewrite !JS_lt_spec. intros H1 H2. eapply SFcompare_trans; eauto.
Qed.

Lemma JS_lt_le_trans a b c : JS.lt a b = true -> JS.le b c = true -> JS.lt a c = true.
Proof.
  rewrite !JS_lt_spec, JS_le_spec. intros H1 H2. eapply SFcompare_trans; eauto.
Qed.

Lemma JS_le_lt_trans a b c : JS.le a b = true -> JS.lt b c = true -> JS.lt a c = true.
Proof.
  rewrite !JS_lt_spec, JS_le_spec. intros [H1|H1] H2.
  - eapply SFcompare_trans; eauto.
  - eapply SFcompare_Eq_trans; eauto.
Qed.

Lemma JS_le_trans a b c : JS.le a b = true -> JS.le b c = true -> JS.le a c = true.
Proof.
  intros H1 H2. pose proof H2 as H2'. rewrite JS_le_spec in H2'.
  destruct H2' as [H|H].
  - apply JS_lt_le. eapply JS_le_lt_trans; [exact H1|]. by apply JS_lt_spec.
  - rewrite JS_le_spec in H1 |- *. destruct H1 as [H1|H1].
    + left. eapply SFcompare_trans; eauto.
    + right. eapply SFcompare_Eq_trans; eauto.
Qed.

(** Two numbers are comparable: when [a < b] fails, [b <= a] holds. *)
Lemma JS_total a b :
  is_nan a = false -> is_nan b = false -> JS.lt a b = false -> JS.le b a = true.
Proof.
  rewrite !is_nan_false. intros Ha Hb Hlt.
  destruct (SFcompare_Some _ _ Ha Hb) as [c Hc].
  assert (Hba := SFcompare_antisym (Prim2SF a) (Prim2SF b)). rewrite Hc in Hba.
  apply JS_le_spec. destruct c; simpl in Hba; [by right| |by left].
  apply JS_lt_spec in Hc. congruence.
Qed.

Lemma JS_le_not_lt a b : JS.le a b = true -> JS.lt b a = false.
Proof.
  intros H. destruct (JS.lt b a) eqn:Hlt; [|done].
  apply JS_lt_not_ge in Hlt. congruence.
Qed.

(** ** [Math.max] and [Math.min] *)

Lemma Math_max_cases a b : JS.Math_max a b = a \/ JS.Math_max a b = b.
Proof. unfold JS.Math_max. repeat case_match; tauto. Qed.

Lemma Math_min_cases a b : JS.Math_min a b = a \/ JS.Math_min a b = b.
Proof. unfold JS.Math_min. repeat case_match; tauto. Qed.

Lemma Math_max_nan a b :
  is_nan (JS.Math_max a b) = is_nan a || is_nan b.
Proof.
  unfold JS.Math_max. destruct (is_nan a) eqn:Ha; [done|].
  destruct (is_nan b) eqn:Hb; [done|]. simpl. repeat case_match; done.
Qed.

Lemma Math_min_nan a b :
  is_nan (JS.Math_min a b) = is_nan a || is_nan b.
Proof.
  unfold JS.Math_min. destruct (is_nan a) eqn:Ha; [done|].
  destruct (is_nan b) eqn:Hb; [done|]. simpl. repeat case_match; done.
Qed.

(** The maximum of two numbers bounds both. *)
Lemma Math_max_ub a b :
  is_nan a = false -> is_nan b = false ->
  JS.le a (JS.Math_max a b) = true /\ JS.le b (JS.Math_max a b) = true.
Proof.
  intros Ha Hb. unfold JS.Math_max. rewrite Ha, Hb.
  destruct (a <? b)%float eqn:Hab.
  { split; [by apply JS_lt_le|by apply JS_le_refl]. }
  destruct (b <? a)%float eqn:Hba.
  { split; [by apply JS_le_refl|by apply JS_lt_le]. }
  pose proof (JS_total a b Ha Hb Hab) as H1.
  pose proof (JS_total b a Hb Ha Hba) as H2.
  destruct (get_sign a); split; try done; by apply JS_le_refl.
Qed.

Lemma Math_min_lb a b :
  is_nan a = false -> is_nan b = false ->
  JS.le (JS.Math_min a b) a = true /\ JS.le (JS.Math_min a b) b = true.
Proof.
  intros Ha Hb. unfold JS.Math_min. rewrite Ha, Hb.
  destruct (a <? b)%float eqn:Hab.
  { split; [by apply JS_le_refl|by apply JS_lt_le]. }
  destruct (b <? a)%float eqn:Hba.
  { split; [by apply JS_lt_le|by apply JS_le_refl]. }
  pose proof (JS_total a b Ha Hb Hab) as H1.
  pose proof (JS_total b a Hb Ha Hba) as H2.
  destruct (get_sign a); split; try done; by apply JS_le_refl.
Qed.

(** A lower bound of both arguments bounds the minimum. *)
Lemma Math_min_glb c a b :
  JS.le c a = true -> JS.le c b = true -> JS.le c (JS.Math_min a b) = true.
Proof. intros Ha Hb. by destruct (Math_min_cases a b) as [-> | ->]. Qed.

(** ** NaN is contagious *)

Lemma mul_nan_r x : (x * nan)%float = nan.
Proof.
  apply Prim2SF_inj. rewrite mul_spec. unfold SF64mul.
  change (Prim2SF nan) with S754_nan. by destruct (Prim2SF x).
Qed.

Lemma add_nan_r x : (x + nan)%float = nan.
Proof.
  apply Prim2SF_inj. rewrite add_spec. unfold SF64add.
  change (Prim2SF nan) with S754_nan. by destruct (Prim2SF x).
Qed.

Lemma div_nan_r x : (x / nan)%float = nan.
Proof.
  apply Prim2SF_inj. rewrite div_spec. unfold SF64div.
  change (Prim2SF nan) with S754_nan. by destruct (Prim2SF x).
Qed.

(** ** A finite number minus itself *)

Lemma sub_diag x : JS.isFinite x = true -> (x - x)%float = 0%float.
Proof.
  intros Hf. apply Prim2SF_inj. rewrite sub_spec. unfold SF64sub.
  change (Prim2SF 0) with (S754_zero false).
  unfold JS.isFinite, is_finite, is_infinity in Hf.
  apply negb_true_iff, orb_false_iff in Hf as [Hn Hi].
  apply is_nan_false in Hn. rewrite eqb_spec, abs_spec in Hi.
  destruct (Prim2SF x) as [[]|[]| |[] m e]; simpl in *; try done;
    by rewrite Z.sub_diag.
Qed.

(** ** The ring buffer on arbitrary numbers *)

Lemma window_short {A} n (vs : list A) : length vs <= n -> window n vs = vs.
Proof. intros H. unfold window. by replace (length vs - n) with 0 by lia. Qed.

Lemma push_shape r n vs v :
  0 < n -> RingShape r n vs -> RingShape (Ring.push r v) n (vs ++ [v]).
Proof.
  intros Hn. destruct r as [n0 buf sum count i]. intros [Hn0 Hlen Hcount Hi Hres].
  simpl in *. subst n0.
  assert (Hsl : window n (vs ++ [v]) = slide n (window n vs) v).
  { symmetry. by apply slide_window. }
  assert (Hwl := window_length n vs).
  destruct (decide (length vs < n)) as [Hlt|Hge].
  - (* still filling *)
    rewrite Nat.mod_small in Hi by done. rewrite Nat.min_l in Hcount by lia.
    subst count i.
    destruct (split_at buf (length vs)) as (l1 & x & l2 & -> & Hl1); [lia|].
    rewrite length_app in Hlen. simpl in Hlen.
    unfold Ring.push, resident in *. simpl in *.
    destruct (Nat.ltb_spec (length vs) n) as [_|?]; [|lia].
    rewrite <- Hl1 in Hres |- *. rewrite take_app_length in Hres.
    rewrite window_short in Hres by lia.
    rewrite insert_mid.
    split; simpl.
    + done.
    + rewrite length_app in *. simpl. lia.
    + rewrite length_app. simpl. lia.
    + rewrite length_app. simpl. by rewrite Hl1.
    + rewrite window_short by (rewrite length_app; simpl; lia).
      rewrite fmap_app. simpl. rewrite <- Hres.
      unfold resident. simpl.
      destruct (Nat.ltb_spec (length l1 + 1) n) as [Hs|Hs].
      * replace (length l1 + 1) with (S (length l1)) by lia.
        by rewrite take_S_mid.
      * assert (length l1 + 1 = n) as Hn' by lia.
        assert (l2 = []) as -> by (apply length_zero_iff_nil; lia).
        rewrite Hn', Nat.Div0.mod_same, drop_0, take_0, app_nil_r. done.
  - (* full: the oldest value is overwritten *)
    rewrite Nat.min_r in Hcount by lia. subst count.
    assert (Hin : i < n) by (subst i; apply Nat.mod_upper_bound; lia).
    destruct (split_at buf i) as (l1 & x & l2 & -> & Hl1); [lia|].
    rewrite length_app in Hlen. simpl in Hlen.
    unfold Ring.push, resident in *. simpl in *.
    destruct (Nat.ltb_spec n n) as [?|_]; [lia|].
    rewrite <- Hl1 in Hres |- *. rewrite drop_app_length, take_app_length in Hres.
    rewrite lookup_mid, insert_mid.
    destruct (window n vs) as [|w0 rest] eqn:Hw; [simpl in Hwl; lia|].
    simpl in Hres. injection Hres as Hx Hrest.
    assert (Hres' : l2 ++ l1 ++ [JS.fround v] = JS.fround <$> rest ++ [v]).
    { change (list_fmap float float JS.fround rest) with (JS.fround <$> rest) in Hrest.
      by rewrite fmap_app, <- Hrest, <- app_assoc. }
    assert (Hsl' : window n (vs ++ [v]) = rest ++ [v]).
    { rewrite Hsl. unfold slide. simpl. simpl in Hwl.
      rewrite length_app. simpl.
      destruct (Nat.ltb_spec n (S (length rest + 1))); [|lia]. by rewrite drop_0. }
    split; simpl.
    + done.
    + rewrite length_app. simpl. lia.
    + rewrite length_app. simpl. lia.
    + rewrite length_app. simpl. rewrite Hl1, Hi. apply Nat.Div0.add_mod_idemp_l.
    + rewrite Hsl', <- Hres'. unfold resident. simpl.
      destruct (Nat.ltb_spec n n) as [?|_]; [lia|].
      destruct (Nat.ltb_spec (length l1 + 1) n) as [Hs|Hs].
      * rewrite Nat.mod_small by lia.
        replace (length l1 + 1) with (S (length l1)) by lia.
        by rewrite drop_S_mid, take_S_mid.
      * assert (length l1 + 1 = n) as Hn' by lia.
        assert (l2 = []) as -> by (apply length_zero_iff_nil; lia).
        rewrite Hn', Nat.Div0.mod_same, drop_0, take_0, app_nil_r. done.
Qed.

Lemma new_shape n : 0 < n -> RingShape (Ring.new n) n [].
Proof.
  intros Hn. split; simpl; try done.
  - by rewrite length_replicate.
  - by rewrite Nat.Div0.mod_0_l.
  - unfold resident. simpl. destruct (Nat.ltb_spec 0 n); [done|lia].
Qed.

Lemma pushes_shape n vs : 0 < n -> RingShape (Ring.pushes (Ring.new n) vs) n vs.
Proof.
  intros Hn. induction vs as [|v vs IH] using rev_ind.
  - by apply new_shape.
  - rewrite pushes_snoc. by apply push_shape.
Qed.

Lemma reset_shape r n vs : RingShape r n vs -> Ring.reset r = Ring.new n.
Proof.
  intros [Hn Hlen _ _ _]. unfold Ring.reset, Ring.new. by rewrite Hn, Hlen.
Qed.

(** X1.  The ring on arbitrary numbers.  After any sequence of pushes into a
    ring of capacity [n > 0], the buffer still has [n] cells, [count] is
    the number of pushes capped at [n], the write index is the number of
    pushes modulo [n], and the cells read from the oldest to the newest
    are the last [count] numbers pushed, each rounded to binary32 by its
    store. *)
Theorem ring_holds_last_values (m : nat) (vs : list float) :
  let n := S m in
  let r := Ring.pushes (Ring.new n) vs in
  Ring.n r = n
  /\ length (Ring.buf r) = n
  /\ Ring.count r = Nat.min (length vs) n
  /\ Ring.i r = length vs mod n
  /\ resident r = JS.fround <$> window n vs.
Proof.
  intros n r. destruct (pushes_shape n vs) as [H1 H2 H3 H4 H5]; [unfold n; lia|].
  done.
Qed.

(** X2.  [reset] after any use gives back the ring the constructor builds:
    empty, with mean 0, whatever was pushed before. *)
Theorem ring_reset_is_new (m : nat) (vs : list float) :
  let r := Ring.reset (Ring.pushes (Ring.new (S m)) vs) in
  r = Ring.new (S m) /\ Ring.mean r = 0%float /\ resident r = [].
Proof.
  intros r. assert (Hr : r = Ring.new (S m)).
  { unfold r. eapply reset_shape, pushes_shape. lia. }
  rewrite Hr. repeat split.
Qed.

(** ** Smoothed angle rates *)

Lemma get_set {A} (a b : Pose.Axis) (v : A) (p : Pose.PerAxis A) :
  Pose.get a (Pose.set b v p) = if decide (a = b) then v else Pose.get a p.
Proof. by destruct a, b, p. Qed.

Lemma smoothFeed_snoc name vs v s :
  smoothFeed name (vs ++ [v]) s = (Pose.getSmoothDelta name v (smoothFeed name vs s)).1.
Proof. unfold smoothFeed. by rewrite foldl_snoc. Qed.

Lemma push_bounded_slide b v : Pose.push_bounded b v = slide Pose.MAXN b v.
Proof. reflexivity. Qed.

(** X3.  The history of an axis.  Each call appends the new angle and drops
    the oldest one beyond five: starting from a history of at most five
    angles, after any number of calls the history is the last five of
    the old history followed by the angles fed, and the other two axes
    are not touched. *)
Theorem angle_history_is_window (name : Pose.Axis) (vs : list float)
    (s : Pose.Smooth) :
  length (Pose.get name (Pose.angleBufs s)) <= Pose.MAXN ->
  let s' := smoothFeed name vs s in
  Pose.get name (Pose.angleBufs s')
    = window Pose.MAXN (Pose.get name (Pose.angleBufs s) ++ vs)
  /\ length (Pose.get name (Pose.angleBufs s')) <= Pose.MAXN
  /\ forall other, other <> name ->
       Pose.get other (Pose.angleBufs s') = Pose.get other (Pose.angleBufs s)
       /\ Pose.get other (Pose.deltaEMA s') = Pose.get other (Pose.deltaEMA s).
Proof.
  intros Hb s'.
  assert (H : Pose.get name (Pose.angleBufs s')
              = window Pose.MAXN (Pose.get name (Pose.angleBufs s) ++ vs)
              /\ forall other, other <> name ->
                   Pose.get other (Pose.angleBufs s') = Pose.get other (Pose.angleBufs s)
                   /\ Pose.get other (Pose.deltaEMA s') = Pose.get other (Pose.deltaEMA s)).
  { unfold s'. induction vs as [|v vs IH] using rev_ind.
    - simpl. rewrite app_nil_r, window_short; done.
    - destruct IH as [IHb IHo]. rewrite smoothFeed_snoc. split.
      + unfold Pose.getSmoothDelta. cbn [fst Pose.angleBufs].
        rewrite get_set, decide_True by done.
        rewrite push_bounded_slide, IHb, app_assoc.
        apply slide_window. unfold Pose.MAXN. lia.
      + intros other Ho. destruct (IHo other Ho) as [<- <-].
        unfold Pose.getSmoothDelta. cbn [fst Pose.angleBufs Pose.deltaEMA].
        by rewrite !get_set, !decide_False by done. }
  destruct H as [H1 H2]. split; [done|]. split; [|done].
  rewrite H1, window_length. lia.
Qed.

Lemma at_back_app pre (l : list float) k :
  0 < k <= length l ->
  Pose.at_back (pre ++ l) k = default nan (l !! (length l - k)).
Proof.
  intros Hk. unfold Pose.at_back. rewrite length_app.
  replace (length pre + length l - k) with (length pre + (length l - k)) by lia.
  by rewrite lookup_app_r, Nat.add_comm, Nat.add_sub by lia.
Qed.

Lemma push_bounded_tail pre l v :
  3 <= length (l ++ [v]) <= 5 ->
  exists pre', Pose.push_bounded (pre ++ l) v = pre' ++ l ++ [v].
Proof.
  intros Hl. unfold Pose.push_bounded. rewrite <- app_assoc.
  destruct (_ <? _)%nat eqn:Hlt; [|by eexists].
  apply Nat.ltb_lt in Hlt. rewrite !length_app in Hlt. unfold Pose.MAXN in Hlt.
  destruct pre as [|p pre]; [simpl in Hlt; rewrite length_app in Hl; simpl in *; lia|].
  exists pre. simpl. by rewrite drop_0.
Qed.

(** X4.  The rate fed to the filter.  With no earlier angle the difference
    is 0; with one earlier angle [a] it is the backward difference
    [(c - a) / DT]; with two or more it is the central difference over
    the last three angles, [(c - a) / (2 DT)] where [a] is the angle
    before the previous one, whether or not the history was shifted.
    The result is the filter value [0.7 old + 0.3 difference], which is
    also what is stored. *)
Theorem smoothed_rate_formula (name : Pose.Axis) (c : float)
    (bufs : Pose.PerAxis (list float)) (emas : Pose.PerAxis float) :
  let call b :=
    Pose.getSmoothDelta name c
      {| Pose.angleBufs := Pose.set name b bufs; Pose.deltaEMA := emas |} in
  let ema d := (Pose.get name emas * (1 - 0.3) + d * 0.3)%float in
  (call []).2 = ema 0%float
  /\ (forall a, (call [a]).2 = ema ((c - a) / Pose.DT_FIXED)%float)
  /\ (forall pre a m,
        (call (pre ++ [a; m])).2 = ema ((c - a) / (2 * Pose.DT_FIXED))%float)
  /\ (forall b, Pose.get name (Pose.deltaEMA (call b).1) = (call b).2).
Proof.
  intros call ema.
  assert (Hc : forall b,
    (call b).2 =
      ema (let b' := Pose.push_bounded b c in
           if (3 <=? length b')%nat
           then ((Pose.at_back b' 1 - Pose.at_back b' 3) / (2 * Pose.DT_FIXED))%float
           else if (2 <=? length b')%nat
           then ((Pose.at_back b' 1 - Pose.at_back b' 2) / Pose.DT_FIXED)%float
           else 0%float)).
  { intros b. unfold call, Pose.getSmoothDelta. cbn [fst snd Pose.angleBufs Pose.deltaEMA].
    by rewrite !get_set, !decide_True. }
  split; [by rewrite Hc|]. split; [intros a; by rewrite Hc|]. split.
  - intros pre a m. rewrite Hc. cbv zeta.
    destruct (push_bounded_tail pre [a; m] c) as [pre' ->]; [simpl; lia|].
    rewrite !length_app. simpl length.
    match goal with |- context [(3 <=? ?n)%nat] =>
      replace (3 <=? n)%nat with true by (symmetry; apply Nat.leb_le; lia) end.
    rewrite !at_back_app by (simpl; lia). done.
  - intros b. unfold call, Pose.getSmoothDelta. cbn [fst snd Pose.angleBufs Pose.deltaEMA].
    by rewrite !get_set, !decide_True.
Qed.

(** X5.  The three axes are smoothed independently: calls for different
    axes commute, and each returns what it would have returned without
    the other. *)
Theorem axes_smoothed_independently (a b : Pose.Axis) (v w : float)
    (s : Pose.Smooth) :
  a <> b ->
  let ra := Pose.getSmoothDelta a v s in
  let rb := Pose.getSmoothDelta b w s in
  let rab := Pose.getSmoothDelta b w ra.1 in
  let rba := Pose.getSmoothDelta a v rb.1 in
  rab.1 = rba.1 /\ rab.2 = rb.2 /\ rba.2 = ra.2.
Proof. intros Hab. destruct a, b, s as [[] []]; done. Qed.

Lemma axes_smoothed_independently_witness :
  let s := smoothFeed Pose.Yaw [1; 2]%float Pose.Smooth_init in
  (Pose.getSmoothDelta Pose.Pitch 5 (Pose.getSmoothDelta Pose.Yaw 4 s).1).1
  = (Pose.getSmoothDelta Pose.Yaw 4 (Pose.getSmoothDelta Pose.Pitch 5 s).1).1.
Proof.
  intros s.
  exact (proj1 (axes_smoothed_independently Pose.Yaw Pose.Pitch 4 5 s
                  ltac:(discriminate))).
Defined.

Lemma angle_history_is_window_witness :
  Pose.yaw (Pose.angleBufs
    (smoothFeed Pose.Yaw [1; 2; 3; 4; 5; 6; 7]%float Pose.Smooth_init))
  = [3; 4; 5; 6; 7]%float.
Proof.
  exact (proj1 (angle_history_is_window Pose.Yaw [1; 2; 3; 4; 5; 6; 7]%float
                  Pose.Smooth_init ltac:(simpl; unfold Pose.MAXN; lia))).
Defined.

(** ** Normalising a vector *)

(** X6.  [vnorm] never returns 0 or NaN, whatever [Math.hypot] returns: a
    zero or NaN length is replaced by 1e-8, so [vunit] never divides by
    zero. *)
Theorem vnorm_never_zero {T : Trig} (v : Pose.Vec3) :
  is_zero (Pose.vnorm v) = false /\ JS.isNaN (Pose.vnorm v) = false
  /\ (Pose.vnorm v = Math_hypot (Pose.x v) (Pose.y v) (Pose.z v)
      \/ Pose.vnorm v = 1e-8%float).
Proof.
  unfold Pose.vnorm, JS.or_else, JS.isNaN.
  destruct (is_zero (Math_hypot _ _ _)) eqn:Hz; simpl; [by auto|].
  destruct (is_nan (Math_hypot _ _ _)) eqn:Hn; simpl; by auto.
Qed.

(** ** The unified eye probability *)

Lemma ge_20_facts yaw :
  JS.ge yaw 20 = true ->
  abs yaw = yaw /\ JS.ge yaw 0 = true /\ JS.le yaw 0 = false.
Proof.
  unfold JS.ge. intros H.
  assert (H0 : JS.lt 0 yaw = true) by (by eapply JS_lt_le_trans; [|exact H]).
  split; [|split; [by apply JS_lt_le|by apply JS_lt_not_ge]].
  apply Prim2SF_inj. rewrite abs_spec.
  apply JS_lt_spec in H0. change (Prim2SF 0) with (S754_zero false) in H0.
  by destruct (Prim2SF yaw) as [[]|[]| |[] m e].
Qed.

Lemma Math_min_ge a b :
  JS.le b a = true -> get_sign a = false -> JS.Math_min a b = b.
Proof.
  intros Hba Hs. destruct (JS_le_not_nan _ _ Hba) as [Hb Ha].
  unfold JS.Math_min. rewrite Ha, Hb.
  pose proof (JS_le_not_lt _ _ Hba) as Hlt. unfold JS.lt in Hlt. rewrite Hlt.
  destruct (b <? a)%float; [done|]. by rewrite Hs.
Qed.

Lemma get_sign_pos a : JS.lt 0 a = true -> get_sign a = false.
Proof.
  intros H. unfold get_sign, is_zero.
  assert (Heq : (a =? zero)%float = false).
  { rewrite eqb_spec. unfold SFeqb. apply JS_lt_spec in H.
    change (Prim2SF zero) with (Prim2SF 0).
    rewrite SFcompare_antisym, H. done. }
  rewrite Heq. pose proof (JS_lt_not_ge _ _ H) as Hle.
  destruct (a <? 0)%float eqn:Hlt; [|done].
  apply JS_lt_le in Hlt. congruence.
Qed.

(** X7.  The weighting of the two eye probabilities by the yaw angle.  A
    missing prediction gives NaN.  When the yaw is NaN the result is
    NaN whatever the eye model returned, so the eye counts as open and
    the feature takes its default.  Facing the camera (yaw 0) both eyes
    weigh 1; at a yaw of 20 degrees or more the right-eye probability
    weighs 0.1 against 1 for the left one. *)
Theorem unified_eye_weights (l r : float) :
  unifyEyes nan (Some (l, r)) = nan
  /\ (forall yaw, unifyEyes yaw None = nan)
  /\ Eye.closedRaw nan = false
  /\ Feat.finiteOr nan 0.5 = 0.5%float
  /\ (forall yaw, JS.ge yaw 0 = true -> JS.le yaw 0 = true ->
        unifyEyes yaw (Some (l, r)) = ((l * 1.0 + r * 1.0) / (1.0 + 1.0))%float)
  /\ (forall yaw, JS.ge yaw 20 = true ->
        unifyEyes yaw (Some (l, r)) = ((l * 1.0 + r * 0.1) / (1.0 + 0.1))%float).
Proof.
  split; [|split; [done|split; [done|split; [done|split]]]].
  - unfold unifyEyes.
    change (JS.Math_max 0.1 (1 - JS.Math_min (JS.Math_abs nan) 20 / 20)) with nan.
    change (JS.ge nan 0) with false. change (JS.le nan 0) with false.
    cbv iota. by rewrite !mul_nan_r, add_nan_r, div_nan_r.
  - intros yaw Hge Hle. unfold unifyEyes. by rewrite Hge, Hle.
  - intros yaw Hge. destruct (ge_20_facts yaw Hge) as (Habs & H0 & Hle).
    unfold unifyEyes, JS.Math_abs. rewrite Habs, H0, Hle.
    rewrite Math_min_ge; [done|exact Hge|].
    apply get_sign_pos. by eapply JS_lt_le_trans; [|exact Hge].
Qed.

Lemma unified_eye_weights_witness :
  unifyEyes 25 (Some (0.2, 0.9)%float) = ((0.2 * 1.0 + 0.9 * 0.1) / (1.0 + 0.1))%float
  /\ unifyEyes 0 (Some (0.2, 0.9)%float) = ((0.2 * 1.0 + 0.9 * 1.0) / (1.0 + 1.0))%float.
Proof.
  destruct (unified_eye_weights 0.2 0.9) as (_ & _ & _ & _ & H0 & H20).
  split; [apply H20|apply H0]; reflexivity.
Defined.

(** ** Closure runs *)

Section EyeRuns.
Context {E : Exp}.

(** One raw-closed frame. *)
Lemma eyeStep_closed i s :
  rawOf i = true ->
  let s' := eyeStep i s in
  Eye.eyeDebOn s' = (Eye.eyeDebOn s + 1)%Z
  /\ Eye.eyeClosedDebounced s' =
       Eye.eyeClosedDebounced s || (EYE_DEBOUNCE_ON_F <=? Eye.eyeDebOn s + 1)%Z
  /\ Eye.eyeRunLenFrames s' =
       (if Eye.eyeClosedDebounced s then Eye.eyeRunLenFrames s + 1
        else if (EYE_DEBOUNCE_ON_F <=? Eye.eyeDebOn s + 1)%Z then 1
        else Eye.eyeRunLenFrames s)%Z
  /\ Eye.eyeRuns s' = Eye.eyeRuns s
  /\ Eye.lastBlinkEndTime s' = Eye.lastBlinkEndTime s.
Proof.
  intros Hr. unfold eyeStep, Eye.step. unfold rawOf in Hr. rewrite Hr. simpl.
  destruct (Eye.eyeClosedDebounced s); simpl; [done|].
  by destruct (EYE_DEBOUNCE_ON_F <=? Eye.eyeDebOn s + 1)%Z.
Qed.

(** One raw-open frame. *)
Lemma eyeStep_open i s :
  rawOf i = false ->
  let s' := eyeStep i s in
  let ends :=
    Eye.eyeClosedDebounced s && (EYE_DEBOUNCE_OFF_F <=? Eye.eyeDebOff s + 1)%Z in
  Eye.eyeDebOn s' = 0%Z
  /\ Eye.eyeDebOff s' = (Eye.eyeDebOff s + 1)%Z
  /\ Eye.eyeClosedDebounced s' = Eye.eyeClosedDebounced s && negb ends
  /\ Eye.eyeRunLenFrames s' =
       (if ends then 0
        else if Eye.eyeClosedDebounced s then Eye.eyeRunLenFrames s + 1
        else Eye.eyeRunLenFrames s)%Z
  /\ Eye.eyeRuns s' =
       (if ends then
          Eye.prune (e_now i - 30.0)
            (Eye.eyeRuns s ++ [Eye.run (e_now i) (Eye.eyeRunLenFrames s)
                                 (JS.Z2F (Eye.eyeRunLenFrames s) * DT)])
        else Eye.eyeRuns s)
  /\ Eye.lastBlinkEndTime s' =
       (if ends && Eye.isBlinkLen (Eye.eyeRunLenFrames s) then e_now i
        else Eye.lastBlinkEndTime s).
Proof.
  intros Hr. unfold eyeStep, Eye.step. unfold rawOf in Hr. rewrite Hr. simpl.
  destruct (Eye.eyeClosedDebounced s); simpl; [|done].
  destruct (EYE_DEBOUNCE_OFF_F <=? Eye.eyeDebOff s + 1)%Z; simpl; [|done].
  by destruct (Eye.isBlinkLen (Eye.eyeRunLenFrames s)).
Qed.

(** After [k >= 1] raw-closed frames from a resting open eye. *)
Lemma closed_frames cs s :
  Eye.eyeClosedDebounced s = false -> Eye.eyeDebOn s = 0%Z ->
  Forall (fun c => rawOf c = true) cs -> 1 <= length cs ->
  let s' := eyeSteps cs s in
  let k := Z.of_nat (length cs) in
  Eye.eyeDebOn s' = k /\ Eye.eyeDebOff s' = 0%Z
  /\ Eye.eyeClosedDebounced s' = bool_decide (2 <= k)%Z
  /\ ((2 <= k)%Z -> Eye.eyeRunLenFrames s' = (k - 1)%Z)
  /\ Eye.eyeRuns s' = Eye.eyeRuns s
  /\ Eye.lastBlinkEndTime s' = Eye.lastBlinkEndTime s.
Proof.
  intros Hd Hon. induction cs as [|c cs IH] using rev_ind; intros Hcs Hlen.
  { simpl in Hlen. lia. }
  apply Forall_app in Hcs as [Hcs Hc]. rewrite Forall_singleton in Hc.
  rewrite eyeSteps_snoc, length_app. simpl length.
  destruct (eyeStep_closed c (eyeSteps cs s) Hc) as (H1 & H2 & H3 & H4 & H5).
  cbv zeta. rewrite H1, H2, H3, H4, H5.
  destruct (eyeStep_counters c (eyeSteps cs s)) as [_ ->]. rewrite Hc.
  destruct (decide (cs = [])) as [->|Hne].
  { change (eyeSteps [] s) with s. rewrite Hd, Hon. simpl.
    repeat split; done. }
  assert (Hl : 1 <= length cs) by (destruct cs; [done|simpl; lia]).
  destruct (IH Hcs Hl) as (I1 & I2 & I3 & I4 & I5 & I6).
  rewrite I1, I3, I5, I6. unfold EYE_DEBOUNCE_ON_F.
  split; [lia|]. split; [done|]. split.
  { destruct (bool_decide_reflect (2 <= Z.of_nat (length cs))%Z) as [Hk|Hk]; simpl.
    - symmetry. apply bool_decide_eq_true. lia.
    - destruct (Z.leb_spec 2 (Z.of_nat (length cs) + 1)); symmetry;
        [apply bool_decide_eq_true|apply bool_decide_eq_false]; lia. }
  split; [|done]. intros Hk.
  destruct (bool_decide_reflect (2 <= Z.of_nat (length cs))%Z) as [Hk'|Hk'].
  - rewrite I4 by done. lia.
  - destruct (Z.leb_spec 2 (Z.of_nat (length cs) + 1)); lia.
Qed.

(** X8.  The recorded length of a closure.  From a resting open eye, [k >= 2]
    consecutive raw-closed frames followed by two raw-open frames record
    one run whose length is [k], the number of raw-closed frames: the
    debounced state closes one frame late and opens one frame late, and
    the counter runs in between.  The run is a blink exactly when
    [k <= 6]. *)
Theorem closure_length_recorded (cs : list EyeIn) (o1 o2 : EyeIn) (s : Eye.State) :
  Eye.eyeClosedDebounced s = false -> Eye.eyeDebOn s = 0%Z ->
  Eye.blinkPulse s = 0%Z ->
  Forall (fun c => rawOf c = true) cs -> 2 <= length cs ->
  rawOf o1 = false -> rawOf o2 = false ->
  let k := Z.of_nat (length cs) in
  let s1 := eyeSteps (cs ++ [o1]) s in
  let r := Eye.step (e_prob o2) (e_now o2) (e_featLen o2) s1 in
  Eye.eyeClosedDebounced s1 = true
  /\ Eye.eyeRunLenFrames s1 = k
  /\ Eye.eyeRuns s1 = Eye.eyeRuns s
  /\ Eye.eyeClosedDebounced r.1 = false
  /\ Eye.eyeRunLenFrames r.1 = 0%Z
  /\ Eye.eyeRuns r.1 =
       Eye.prune (e_now o2 - 30.0)
         (Eye.eyeRuns s ++ [Eye.run (e_now o2) k (JS.Z2F k * DT)])
  /\ Eye.blink_state r.2 = bool_decide (k <= 6)%Z
  /\ Eye.lastBlinkEndTime r.1 =
       (if bool_decide (k <= 6)%Z then e_now o2 else Eye.lastBlinkEndTime s).
Proof.
  intros Hd Hon Hp Hcs Hlen Ho1 Ho2 k s1 r.
  destruct (closed_frames cs s Hd Hon Hcs ltac:(lia)) as (I1 & I2 & I3 & I4 & I5 & I6).
  fold k in I1, I3, I4. rewrite bool_decide_eq_true_2 in I3 by (unfold k; lia).
  specialize (I4 ltac:(unfold k; lia)).
  assert (Hs1 : Eye.eyeClosedDebounced s1 = true /\ Eye.eyeRunLenFrames s1 = k
                /\ Eye.eyeRuns s1 = Eye.eyeRuns s /\ Eye.eyeDebOff s1 = 1%Z
                /\ Eye.lastBlinkEndTime s1 = Eye.lastBlinkEndTime s
                /\ Eye.blinkPulse s1 = 0%Z).
  { unfold s1. rewrite eyeSteps_snoc.
    destruct (eyeStep_open o1 (eyeSteps cs s) Ho1) as (H1 & H2 & H3 & H4 & H5 & H6).
    cbv zeta in H3, H4, H5, H6. rewrite H2, H3, H4, H5, H6, I2, I3, I4, I5, I6.
    unfold EYE_DEBOUNCE_OFF_F. simpl. repeat split; try done; try lia.
    apply eyeStep_pulse. clear -Hp. induction cs as [|c cs IH] using rev_ind; [done|].
    rewrite eyeSteps_snoc. by apply eyeStep_pulse. }
  destruct Hs1 as (D1 & D2 & D3 & D4 & D5 & D6).
  split; [done|]. split; [done|]. split; [done|].
  unfold r, Eye.step. unfold rawOf in Ho2. rewrite Ho2. simpl.
  rewrite D1, D4. simpl. rewrite D2, D3, D5.
  assert (Hb : Eye.isBlinkLen k = bool_decide (k <= 6)%Z).
  { unfold Eye.isBlinkLen, BLINK_MIN_F, BLINK_MAX_F.
    destruct (Z.leb_spec 2 k); [|unfold k in *; lia]. simpl.
    destruct (Z.leb_spec k 6); symmetry;
      [by apply bool_decide_eq_true|apply bool_decide_eq_false; lia]. }
  rewrite Hb. destruct (bool_decide (k <= 6)%Z); simpl; [done|].
  by rewrite D6.
Qed.

(** X9.  The first prolonged closure of a session.  From a resting open eye
    with no earlier episode on record, the prolonged-closure flag is
    raised on the 13th consecutive raw-closed frame (the debounced run
    then has length 12), whatever the window length, and stays raised
    for the rest of the closure; the window length of that frame is
    recorded as the start of the episode. *)
Theorem first_prolonged_episode (cs : list EyeIn) (s : Eye.State) :
  Eye.eyeClosedDebounced s = false -> Eye.eyeDebOn s = 0%Z ->
  Eye.prolongedEyeActive s = false ->
  (Eye.lastProlongStartFrame s <= - BLINK_LOCK_FRM)%Z ->
  Forall (fun c => rawOf c = true) cs ->
  Eye.prolongedEyeActive (eyeSteps cs s) = bool_decide (13 <= length cs)
  /\ Eye.lastProlongStartFrame (eyeSteps cs s) =
       match cs !! 12%nat with
       | Some c => Z.of_nat (e_featLen c)
       | None => Eye.lastProlongStartFrame s
       end.
Proof.
  intros Hd Hon Hp Hlast. induction cs as [|c cs IH] using rev_ind; intros Hcs.
  { done. }
  apply Forall_app in Hcs as [Hcs Hc]. rewrite Forall_singleton in Hc.
  destruct (IH Hcs) as [IHp IHl]. rewrite eyeSteps_snoc.
  pose proof (eyeStep_prolonged c (eyeSteps cs s)) as Hpr. cbv zeta in Hpr.
  pose proof (eyeStep_lastProlongStart c (eyeSteps cs s)) as Hls.
  rewrite Hpr, Hls, IHp, IHl. clear Hpr Hls.
  assert (Hcf := closed_frames (cs ++ [c]) s Hd Hon
                   ltac:(apply Forall_app; by rewrite Forall_singleton)
                   ltac:(rewrite length_app; simpl; lia)).
  cbv zeta in Hcf. rewrite eyeSteps_snoc, length_app in Hcf. simpl length in Hcf.
  destruct Hcf as (_ & _ & Hdeb & Hrun & _). rewrite Hdeb.
  rewrite length_app. simpl length. unfold FRM_2P5S, BLINK_LOCK_FRM in *.
  destruct (decide (length cs < 12)) as [Hlt|Hge].
  - (* the run is still short *)
    rewrite (bool_decide_eq_false_2 (13 <= length cs)) by lia.
    rewrite (bool_decide_eq_false_2 (13 <= length cs + 1)) by lia.
    rewrite (lookup_ge_None_2 cs 12) by lia.
    rewrite (lookup_ge_None_2 (cs ++ [c]) 12) by (rewrite length_app; simpl; lia).
    destruct (bool_decide_reflect (2 <= Z.of_nat (length cs + 1))%Z) as [Hk|Hk];
      cbn [andb orb negb]; [|done].
    rewrite Hrun by done.
    destruct (Z.leb_spec 12 (Z.of_nat (length cs + 1) - 1)); [lia|]. done.
  - destruct (decide (length cs = 12)) as [H12|H12].
    + (* the 13th frame starts the episode *)
      rewrite (bool_decide_eq_false_2 (13 <= length cs)) by lia.
      rewrite (bool_decide_eq_true_2 (13 <= length cs + 1)) by lia.
      rewrite (lookup_ge_None_2 cs 12) by lia.
      rewrite bool_decide_eq_true_2 by lia. rewrite Hrun by lia.
      replace (cs ++ [c]) with (cs ++ c :: []) by done.
      rewrite <- H12, lookup_mid. cbn [andb orb negb].
      destruct (Z.leb_spec 12 (Z.of_nat (length cs + 1) - 1)); [|lia].
      destruct (Z.leb_spec 30 (Z.of_nat (e_featLen c) - Eye.lastProlongStartFrame s));
        [done|lia].
    + (* the episode goes on *)
      rewrite (bool_decide_eq_true_2 (13 <= length cs)) by lia.
      rewrite (bool_decide_eq_true_2 (13 <= length cs + 1)) by lia.
      rewrite bool_decide_eq_true_2 by lia. cbn [andb orb negb].
      rewrite lookup_app_l by lia. done.
Qed.
End EyeRuns.

(** ** Statistics over the recorded runs *)

Lemma maxCloseRun_fold cut runs m0 :
  JS.le 0 m0 = true ->
  let m := foldl (fun m r => if JS.ge (Eye.tEnd r) cut && JS.gt (Eye.durS r) m
                             then Eye.durS r else m) m0 runs in
  JS.le m0 m = true
  /\ (m = m0 \/ exists r, r ∈ runs /\ JS.ge (Eye.tEnd r) cut = true /\ Eye.durS r = m)
  /\ (forall r, r ∈ runs -> JS.ge (Eye.tEnd r) cut = true -> JS.gt (Eye.durS r) m = false).
Proof.
  revert m0. induction runs as [|r runs IH]; intros m0 Hm0; simpl.
  { split; [|split; [by left|]].
    - apply JS_le_refl. by destruct (JS_le_not_nan _ _ Hm0).
    - intros r Hr. by apply elem_of_nil in Hr. }
  destruct (JS.ge (Eye.tEnd r) cut && JS.gt (Eye.durS r) m0) eqn:Hq.
  - apply andb_true_iff in Hq as [Hq1 Hq2]. unfold JS.gt in Hq2.
    assert (H0 : JS.le 0 (Eye.durS r) = true).
    { apply JS_lt_le. by eapply JS_le_lt_trans. }
    destruct (IH (Eye.durS r) H0) as (I1 & I2 & I3). cbv zeta in *.
    split; [|split].
    + eapply JS_le_trans; [|exact I1]. by apply JS_lt_le.
    + right. destruct I2 as [->|(r' & Hr' & Hc & Hd)].
      * exists r. split; [left|done].
      * exists r'. split; [by right|done].
    + intros r' [Heq|Hr']%elem_of_cons Hc; [subst r'|by apply I3].
      unfold JS.gt. by apply JS_le_not_lt.
  - destruct (IH m0 Hm0) as (I1 & I2 & I3). cbv zeta in *.
    split; [done|]. split.
    + destruct I2 as [->|(r' & Hr' & Hc & Hd)]; [by left|].
      right. exists r'. split; [by right|done].
    + intros r' [Heq|Hr']%elem_of_cons Hc; [subst r'|by apply I3].
      rewrite Hc in Hq. simpl in Hq. unfold JS.gt in *.
      match goal with |- ?b = false => destruct b eqn:Hlt; [|done] end.
      assert (JS.lt m0 (Eye.durS r) = true) by (eapply JS_le_lt_trans; [exact I1|exact Hlt]).
      unfold JS.lt in *. congruence.
Qed.

(** X10.  The two statistics computed from the recorded runs on every frame.
    [max_close_run_10s] is 0 or the duration of a recorded run that
    ended within the last 10 s, it is not negative, and no run that
    ended within the last 10 s is longer; the number of blinks counted
    for the rate is the number of recorded runs that ended within the
    last 30 s and have a blink length, so it never exceeds the number of
    recorded runs. *)
Theorem run_statistics (cut10 cut30 : float) (runs : list Eye.Run) :
  let m := Eye.maxCloseRun cut10 runs in
  JS.le 0 m = true
  /\ (m = 0%float
      \/ exists r, r ∈ runs /\ JS.ge (Eye.tEnd r) cut10 = true /\ Eye.durS r = m)
  /\ (forall r, r ∈ runs -> JS.ge (Eye.tEnd r) cut10 = true ->
        JS.gt (Eye.durS r) m = false)
  /\ (0 <= Eye.blinks30 cut30 runs <= Z.of_nat (length runs))%Z
  /\ (Eye.blinks30 cut30 runs = 0%Z <->
      forall r, r ∈ runs ->
        JS.ge (Eye.tEnd r) cut30 && Eye.isBlinkLen (Eye.lenFrames r) = false).
Proof.
  intros m. destruct (maxCloseRun_fold cut10 runs 0%float eq_refl) as (H1 & H2 & H3).
  split; [done|]. split; [done|]. split; [done|].
  unfold Eye.blinks30. split.
  - pose proof (length_filter
      (fun r => JS.ge (Eye.tEnd r) cut30 && Eye.isBlinkLen (Eye.lenFrames r) = true) runs).
    lia.
  - split.
    + intros H0 r Hr.
      destruct (JS.ge (Eye.tEnd r) cut30 && Eye.isBlinkLen (Eye.lenFrames r)) eqn:Hq; [|done].
      assert (Hin : r ∈ filter
        (fun r => JS.ge (Eye.tEnd r) cut30 && Eye.isBlinkLen (Eye.lenFrames r) = true) runs).
      { apply list_elem_of_filter. by split. }
      destruct (filter _ runs); [by apply elem_of_nil in Hin|simpl in H0; lia].
    + intros Hall.
      assert (Hnil : filter
        (fun r => JS.ge (Eye.tEnd r) cut30 && Eye.isBlinkLen (Eye.lenFrames r) = true) runs = []).
      { destruct (filter _ runs) as [|r0 rest] eqn:Hf; [done|].
        assert (Hin : r0 ∈ r0 :: rest) by left. rewrite <- Hf in Hin.
        apply list_elem_of_filter in Hin as [Hq Hr0].
        specialize (Hall r0 Hr0). congruence. }
      by rewrite Hnil.
Qed.

(** X11.  Pruning the recorded runs.  The loop that drops old runs removes a
    prefix of the list and nothing else: every run it removes ended
    before the cut, and it stops at the first run that did not, which
    stays at the head; the runs behind it are kept whatever their end
    time.  The mouth runs are pruned in the same way. *)
Theorem prune_drops_old_prefix (cut : float) :
  (forall runs,
      exists k, Eye.prune cut runs = drop k runs
        /\ Forall (fun r => JS.lt (Eye.tEnd r) cut = true) (take k runs)
        /\ forall r, head (Eye.prune cut runs) = Some r -> JS.lt (Eye.tEnd r) cut = false)
  /\ (forall runs,
      exists k, Mouth.prune cut runs = drop k runs
        /\ Forall (fun r => JS.lt (Mouth.tEnd r) cut = true) (take k runs)
        /\ forall r, head (Mouth.prune cut runs) = Some r -> JS.lt (Mouth.tEnd r) cut = false).
Proof.
  split; intros runs; induction runs as [|r runs IH]; simpl.
  - exists 0. by repeat split.
  - destruct (JS.lt (Eye.tEnd r) cut) eqn:Hlt.
    + destruct IH as (k & Hk & Hold & Hhead). exists (S k). simpl.
      split; [done|]. split; [by constructor|done].
    + exists 0. simpl. split; [done|]. split; [done|].
      intros r' Hr'. injection Hr' as <-. done.
  - exists 0. by repeat split.
  - destruct (JS.lt (Mouth.tEnd r) cut) eqn:Hlt.
    + destruct IH as (k & Hk & Hold & Hhead). exists (S k). simpl.
      split; [done|]. split; [by constructor|done].
    + exists 0. simpl. split; [done|]. split; [done|].
      intros r' Hr'. injection Hr' as <-. done.
Qed.

(** ** Yawn runs *)

Lemma yawn_frames_table :
  forallb (fun f => Bool.eqb (JS.ge (JS.Z2F f * DT) MOUTH_PROLONG_S) (YAWN_FRAMES <=? f)%Z)
          (map Z.of_nat (seq 0 21)) = true.
Proof. vm_compute. reflexivity. Qed.

Lemma yawn_frames_threshold f :
  (0 <= f <= YAWN_FRAMES)%Z ->
  JS.ge (JS.Z2F f * DT) MOUTH_PROLONG_S = (YAWN_FRAMES <=? f)%Z.
Proof.
  intros Hf. pose proof yawn_frames_table as Ht.
  rewrite forallb_forall in Ht. specialize (Ht f).
  apply Bool.eqb_prop, Ht, in_map_iff. exists (Z.to_nat f).
  split; [lia|]. apply in_seq. unfold YAWN_FRAMES in Hf. lia.
Qed.

Section MouthRuns.
Context {E : Exp}.

(** X12.  The end of a yawn run.  On the frame on which an open mouth
    closes, a run is recorded whose duration is the number of frames
    the mouth was open times the frame period; it is reported as a yawn
    event, on this frame only, exactly when the duration is at least
    1.3 s, and then the time of the last yawn is set to now.  On any
    other frame nothing is recorded or reported. *)
Theorem yawn_event_classification (i : MouthIn) (s : Mouth.State) :
  Mouth.yawnPulse s = 0%Z ->
  let r := Mouth.step (m_prob i) (m_now i) s in
  let dur := (JS.Z2F (Mouth.mouthRunFrames s) * DT)%float in
  (Mouth.mouthOpen s = true -> Mouth.mouthOpen r.1 = false ->
     Mouth.mouthRuns r.1 =
       Mouth.prune (m_now i - 30.0) (Mouth.mouthRuns s ++ [Mouth.run (m_now i) dur])
     /\ Mouth.yawn_event_state r.2 = JS.ge dur MOUTH_PROLONG_S
     /\ Mouth.lastYawnEndTime r.1 =
          (if JS.ge dur MOUTH_PROLONG_S then m_now i else Mouth.lastYawnEndTime s)
     /\ Mouth.mouthRunFrames r.1 = 0%Z
     /\ Mouth.yawnProlonged r.1 = false
     /\ Mouth.mouth_open_run_s r.2 = 0%float)
  /\ (~ (Mouth.mouthOpen s = true /\ Mouth.mouthOpen r.1 = false) ->
        Mouth.mouthRuns r.1 = Mouth.mouthRuns s
        /\ Mouth.yawn_event_state r.2 = false
        /\ Mouth.lastYawnEndTime r.1 = Mouth.lastYawnEndTime s)
  /\ Mouth.yawnPulse r.1 = 0%Z.
Proof.
  intros Hp r dur. unfold r, dur, Mouth.step, Mouth.hysteresis. simpl.
  destruct (Mouth.mouthOpen s) eqn:Ho; simpl.
  - destruct (JS.le _ MOUTH_OFF_T) eqn:Hle; simpl.
    + split; [|split].
      * intros _ _. destruct (JS.ge _ MOUTH_PROLONG_S); simpl; by rewrite ?Hp.
      * intros Hn. exfalso. by apply Hn.
      * destruct (JS.ge _ MOUTH_PROLONG_S); simpl; by rewrite ?Hp.
    + rewrite Hp. simpl. split; [done|]. split; [|done]. done.
  - destruct (JS.ge _ MOUTH_ON_T) eqn:Hge; simpl; rewrite ?Ho, ?Hp; simpl.
    + split; [done|]. split; [|done]. done.
    + split; [done|]. split; [|done]. done.
Qed.

Lemma mouthStep_frames i s :
  let e := Mouth.yawnEma1 (mouthStep i s) in
  Mouth.mouthRunFrames (mouthStep i s) =
    (if Mouth.mouthOpen s
     then (if JS.le e MOUTH_OFF_T then 0 else Mouth.mouthRunFrames s + 1)
     else (if JS.ge e MOUTH_ON_T then 1 else Mouth.mouthRunFrames s))%Z
  /\ Mouth.yawnProlonged (mouthStep i s) =
    (if Mouth.mouthOpen s
     then (if JS.le e MOUTH_OFF_T then false
           else if negb (Mouth.yawnProlonged s)
                   && JS.ge (JS.Z2F (Mouth.mouthRunFrames s + 1) * DT) MOUTH_PROLONG_S
                then true else Mouth.yawnProlonged s)
     else (if JS.ge e MOUTH_ON_T then false else Mouth.yawnProlonged s)).
Proof.
  intros e. unfold e. rewrite mouthStep_ema, mouthStep_unfold.
  unfold Mouth.hysteresis. simpl.
  destruct (Mouth.mouthOpen s) eqn:Ho; simpl.
  - by destruct (JS.le _ MOUTH_OFF_T).
  - destruct (JS.ge _ MOUTH_ON_T); simpl; by rewrite ?Ho.
Qed.

Lemma mouthStep_pulse i s :
  Mouth.yawnPulse s = 0%Z -> Mouth.yawnPulse (mouthStep i s) = 0%Z.
Proof.
  intros Hp. rewrite mouthStep_unfold. unfold Mouth.hysteresis. simpl.
  destruct (Mouth.mouthOpen s) eqn:Ho; simpl;
    [destruct (JS.le _ MOUTH_OFF_T); simpl; [destruct (JS.ge _ MOUTH_PROLONG_S)|]
    |destruct (JS.ge _ MOUTH_ON_T)]; simpl; by rewrite ?Hp.
Qed.

Lemma MouthInv_init : MouthInv Mouth.init.
Proof. by repeat split. Qed.

Lemma MouthInv_step i s : MouthInv s -> MouthInv (mouthStep i s).
Proof.
  intros [Hp Hs]. split; [by apply mouthStep_pulse|].
  pose proof (mouthStep_open i s) as Ho. cbv zeta in Ho.
  destruct (mouthStep_frames i s) as [Hf Hy]. rewrite Ho, Hf, Hy. clear Ho Hf Hy.
  destruct (Mouth.mouthOpen s).
  - destruct Hs as [H1 Hyp].
    destruct (JS.le _ MOUTH_OFF_T); simpl; [done|]. split; [lia|].
    rewrite Hyp.
    destruct (bool_decide_reflect (YAWN_FRAMES <= Mouth.mouthRunFrames s)%Z) as [Hk|Hk];
      simpl.
    + symmetry. apply bool_decide_eq_true. lia.
    + rewrite yawn_frames_threshold by lia.
      destruct (Z.leb_spec YAWN_FRAMES (Mouth.mouthRunFrames s + 1)); symmetry;
        [by apply bool_decide_eq_true|apply bool_decide_eq_false; lia].
  - destruct Hs as [H0 Hyp].
    destruct (JS.ge _ MOUTH_ON_T); simpl; [|done].
    split; [lia|]. first [done|symmetry; apply bool_decide_eq_false; unfold YAWN_FRAMES; lia].
Qed.

(** X13.  Counting the frames of an open mouth.  Between frames the yawn
    pulse is spent; a closed mouth has a zero frame count; an open
    mouth has a count of at least one frame (one on the frame it opens,
    one more on each frame it stays open), and it is flagged as a
    prolonged yawn exactly when the count has reached 20 frames, the
    first count whose duration is at least 1.3 s. *)
Theorem mouth_run_counts_frames (ins : list MouthIn) :
  let s := mouthSteps ins Mouth.init in
  MouthInv s
  /\ (forall i,
        let s' := mouthStep i s in
        Mouth.mouthRunFrames s' =
          (if Mouth.mouthOpen s' then
             if Mouth.mouthOpen s then Mouth.mouthRunFrames s + 1 else 1
           else 0)%Z)
  /\ JS.ge (JS.Z2F (YAWN_FRAMES - 1) * DT) MOUTH_PROLONG_S = false
  /\ JS.ge (JS.Z2F YAWN_FRAMES * DT) MOUTH_PROLONG_S = true.
Proof.
  intros s.
  assert (Hinv : MouthInv s).
  { unfold s. induction ins as [|i ins IH] using rev_ind; [apply MouthInv_init|].
    rewrite mouthSteps_snoc. by apply MouthInv_step. }
  split; [done|]. split; [|done].
  intros i s'. unfold s'.
  pose proof (mouthStep_open i s) as Ho. cbv zeta in Ho.
  destruct (mouthStep_frames i s) as [Hf _]. rewrite Ho, Hf.
  destruct Hinv as [_ Hs]. destruct (Mouth.mouthOpen s).
  - by destruct (JS.le _ MOUTH_OFF_T).
  - destruct Hs as [-> _]. by destruct (JS.ge _ MOUTH_ON_T).
Qed.
End MouthRuns.

(** ** The feature vector of a frame *)

Lemma finiteOr_finite v d :
  JS.isFinite d = true -> JS.isFinite (Feat.finiteOr v d) = true.
Proof. intros Hd. unfold Feat.finiteOr. by destruct (JS.isFinite v) eqn:Hv. Qed.

Lemma clamp_range t :
  let v := Feat.finiteOr (JS.Math_min (JS.Math_max 0 t) TS_MAX) 0.0 in
  JS.le 0 v = true /\ JS.le v TS_MAX = true.
Proof.
  intros v. unfold v, Feat.finiteOr.
  destruct (JS.isFinite _) eqn:Hf; [|done].
  destruct (is_nan t) eqn:Hn.
  { apply is_nan_eq in Hn. subst t. vm_compute in Hf. discriminate. }
  assert (Hm : is_nan (JS.Math_max 0 t) = false) by (by rewrite Math_max_nan, Hn).
  destruct (Math_max_ub 0 t eq_refl Hn) as [H0 _].
  destruct (Math_min_lb (JS.Math_max 0 t) TS_MAX Hm eq_refl) as [_ H30].
  split; [|done]. by apply Math_min_glb.
Qed.

Section FrameFeatures.
Context {E : Exp} {C : Classifier}.

(** X14.  The two "time since" features are clamped: on every frame, in any
    state and for any clock value, the seconds since the last blink and
    since the last yawn lie between 0 and 30 (a NaN difference gives
    the default 0). *)
Theorem time_since_features_clamped (i : Tick) (s : State) :
  let f := rawFeat (processTick i s).2 in
  JS.le 0 (f time_since_last_blink_s) = true
  /\ JS.le (f time_since_last_blink_s) TS_MAX = true
  /\ JS.le 0 (f time_since_last_yawn_s) = true
  /\ JS.le (f time_since_last_yawn_s) TS_MAX = true.
Proof.
  intros f.
  pose proof (clamp_range
    (nowSec i - Eye.lastBlinkEndTime (eye (processTick i s).1))) as [H1 H2].
  pose proof (clamp_range
    (nowSec i - Mouth.lastYawnEndTime (mouth (processTick i s).1))) as [H3 H4].
  done.
Qed.

(** X15.  The thirteen features [buildRawFeatures] guards are finite on every
    frame, in any state and for any input. *)
Theorem guarded_features_finite (i : Tick) (s : State) :
  Forall (fun key => JS.isFinite (rawFeat (processTick i s).2 key) = true)
         guardedFeatures.
Proof.
  unfold guardedFeatures. repeat constructor; by apply finiteOr_finite.
Qed.

(** X16.  The nod rule on a frame.  The nod state is active after a frame
    only if the raw eye is closed on that frame, the yaw is within 10
    degrees and the pitch is below -2 degrees; it becomes active only
    on a frame with a prolonged closure, a pitch of at most -4 degrees
    and a roll within 20 degrees; once active it stays active as long
    as the first three conditions hold, whatever the roll and the
    prolonged-closure flag.  The counter [stableFrames] is never
    incremented. *)
Theorem nod_rule (i : Tick) (s : State) :
  let r := processTick i s in
  let closed := Eye.eyeClosedRaw (eyeOut r.2) in
  let keeps :=
    closed && negb (JS.gt (JS.Math_abs (t_yawDeg i)) 10)
    && negb (JS.ge (t_pitchDeg i) (-2)) in
  let starts :=
    Eye.prolonged_eye_state (eyeOut r.2) && JS.le (t_pitchDeg i) (-4)
    && JS.le (JS.Math_abs (t_rollDeg i)) 20
    && JS.le (JS.Math_abs (t_yawDeg i)) 10 in
  nodOut r.2 = keeps && (Nod.nodActive (nod s) || starts)
  /\ nodOut r.2 = Nod.nodActive (nod r.1)
  /\ closed = Eye.closedRaw (unifiedEyeProb i)
  /\ Nod.stableFrames (nod r.1) =
       (if keeps then Nod.stableFrames (nod s) else 0%Z).
Proof.
  intros r closed keeps starts.
  assert (Hn : nod r.1 =
    Nod.step (Eye.prolonged_eye_state (eyeOut r.2)) closed
             (t_yawDeg i) (t_pitchDeg i) (t_rollDeg i) (nod s)) by reflexivity.
  assert (Ho : nodOut r.2 = Nod.nodActive (nod r.1)) by reflexivity.
  rewrite Ho, Hn. unfold keeps, starts, Nod.step.
  split; [|split; [done|split; [done|]]].
  - destruct closed, (JS.gt (JS.Math_abs (t_yawDeg i)) 10),
      (JS.ge (t_pitchDeg i) (-2)), (Eye.prolonged_eye_state (eyeOut r.2)),
      (JS.le (t_pitchDeg i) (-4)), (JS.le (JS.Math_abs (t_rollDeg i)) 20),
      (JS.le (JS.Math_abs (t_yawDeg i)) 10), (Nod.nodActive (nod s)) eqn:Ha;
      simpl; rewrite ?Ha; reflexivity.
  - destruct closed, (JS.gt (JS.Math_abs (t_yawDeg i)) 10),
      (JS.ge (t_pitchDeg i) (-2)), (Eye.prolonged_eye_state (eyeOut r.2) && _ && _ && _);
      reflexivity.
Qed.
End FrameFeatures.

(** ** The displayed verdict *)

Lemma hysteresis_thresholds d p :
  Tcn.hysteresis d p =
    if JS.ge p ON_THRESH then true else if JS.le p OFF_THRESH then false else d.
Proof.
  unfold Tcn.hysteresis. destruct (JS.ge p ON_THRESH) eqn:Hon.
  - assert (Hoff : JS.le p OFF_THRESH = false).
    { apply JS_lt_not_ge. eapply JS_lt_le_trans; [|exact Hon]. reflexivity. }
    rewrite Hoff. by destruct d.
  - destruct (JS.le p OFF_THRESH), d; reflexivity.
Qed.

(** X17.  The verdict shown for the classifier has a dead band.  On a frame
    with a loaded model and a full window, the state becomes drowsy when
    the probability is at least 0.65, awake when it is at most 0.55, and
    is kept otherwise (also when the probability is NaN); on any other
    frame it is kept.  Over any sequence of probabilities that stay
    strictly inside the band the state never changes. *)
Theorem verdict_dead_band {C : Classifier} (n : Norm.State) (t : Tcn.State) :
  Tcn.tcnIsDrowsy (Tcn.tcnPredictIfReady n t).1 =
    match tcnModel with
    | Some predict =>
        if (length (Tcn.featBuf t) <? TCN_WINDOW)%nat then Tcn.tcnIsDrowsy t
        else
          let p := predict (take TCN_WINDOW (Tcn.featBuf t)) in
          if JS.ge p ON_THRESH then true
          else if JS.le p OFF_THRESH then false
          else Tcn.tcnIsDrowsy t
    | None => Tcn.tcnIsDrowsy t
    end
  /\ (forall ps d,
        Forall (fun p => JS.lt OFF_THRESH p && JS.lt p ON_THRESH = true) ps ->
        foldl Tcn.hysteresis d ps = d)
  /\ Tcn.hysteresis false nan = false /\ Tcn.hysteresis true nan = true.
Proof.
  split; [|split; [|done]].
  - unfold Tcn.tcnPredictIfReady. destruct tcnModel as [predict|]; [|done].
    destruct (_ <? _)%nat; [done|]. cbn [fst Tcn.tcnIsDrowsy].
    apply hysteresis_thresholds.
  - intros ps d Hps. induction ps as [|p ps IH] using rev_ind; [done|].
    apply Forall_app in Hps as [Hps Hp]. rewrite Forall_singleton in Hp.
    apply andb_true_iff in Hp as [H1 H2].
    rewrite foldl_snoc, IH, hysteresis_thresholds by done.
    assert (Hon : JS.ge p ON_THRESH = false) by exact (JS_lt_not_ge _ _ H2).
    by rewrite Hon, (JS_lt_not_ge _ _ H1).
Qed.

(** ** The accumulators of the normaliser *)

Lemma addNormSamples_snoc vs v n :
  addNormSamples (vs ++ [v]) n = Norm.addNormSample v (addNormSamples vs n).
Proof. unfold addNormSamples. by rewrite foldl_snoc. Qed.

(** X18.  Collecting samples.  [resetNorm] with normalisation switched on
    starts a collection with a zero count and zero sums; after any
    number of samples of [F] components the count is the number of
    samples, and the two accumulators hold, component by component, the
    running sum of the samples and of their squares, added in the order
    of arrival. *)
Theorem norm_accumulates_columnwise (clock : float) (n0 : Norm.State)
    (vs : list (list float)) :
  Norm.normalizationEnabled n0 = true ->
  length (Norm.baseSum n0) = F -> length (Norm.baseSqSum n0) = F ->
  Forall (fun v => length v = F) vs ->
  let n := addNormSamples vs (Norm.resetNorm clock n0) in
  Norm.normMode n = true /\ Norm.normT0 n = clock
  /\ Norm.baseCnt n = Z.of_nat (length vs)
  /\ length (Norm.baseSum n) = F /\ length (Norm.baseSqSum n) = F
  /\ forall i, i < F ->
       Norm.baseSum n !! i = Some (columnSum i vs)
       /\ Norm.baseSqSum n !! i = Some (columnSqSum i vs).
Proof.
  intros Hen Hl1 Hl2 Hvs. induction vs as [|v vs IH] using rev_ind.
  - simpl. unfold Norm.resetNorm. rewrite Hen. simpl.
    rewrite !length_replicate. repeat split; try done.
    + apply lookup_replicate_2. lia.
    + apply lookup_replicate_2. lia.
  - apply Forall_app in Hvs as [Hvs Hv]. rewrite Forall_singleton in Hv.
    destruct (IH Hvs) as (I1 & I2 & I3 & I4 & I5 & I6).
    cbv zeta. rewrite addNormSamples_snoc. unfold Norm.addNormSample.
    cbn [Norm.normMode Norm.normT0 Norm.baseCnt Norm.baseSum Norm.baseSqSum].
    rewrite !length_zip_with, I4, I5, Hv, length_app. simpl length.
    split; [done|]. split; [done|]. split; [lia|].
    split; [lia|]. split; [lia|].
    intros i Hi. destruct (I6 i Hi) as [J1 J2].
    destruct (lookup_lt_is_Some_2 v i ltac:(lia)) as [x Hx].
    rewrite !lookup_zip_with, J1, J2, Hx. simpl.
    unfold columnSum, columnSqSum. rewrite !foldl_snoc, Hx. done.
Qed.

(** ** The feature schema *)

(** X19.  The schema and the vectors built from it.  [FEAT_ORDER] lists each
    of the 20 features [buildRawFeatures] produces exactly once; cell
    [i] of the vector [rawToVector] builds is the feature named at
    position [i], rounded to binary32, and cell [i] of a row pushed
    while no statistics are stored is that feature minus 0 divided by
    max(1e-3, 1), rounded to binary32. *)
Theorem schema_indexes_features (raw : FeatName -> float) :
  F = 20 /\ NoDup FEAT_ORDER /\ (forall key, key ∈ FEAT_ORDER)
  /\ length (Feat.rawToVector raw) = F
  /\ length (Feat.normalizedRow None None raw) = F
  /\ forall i key, FEAT_ORDER !! i = Some key ->
       Feat.rawToVector raw !! i = Some (JS.fround (raw key))
       /\ Feat.normalizedRow None None raw !! i
          = Some (JS.fround ((raw key - 0) / JS.Math_max 1e-3 1)).
Proof.
  split; [done|]. split.
  { unfold FEAT_ORDER. repeat (apply NoDup_cons; split;
      [rewrite ?elem_of_cons, ?elem_of_nil; intuition discriminate|]).
    apply NoDup_nil_2. }
  split.
  { intros key. unfold FEAT_ORDER. destruct key; rewrite !elem_of_cons; tauto. }
  split; [by unfold Feat.rawToVector; rewrite length_map|].
  split; [by unfold Feat.normalizedRow; rewrite length_imap|].
  intros i key Hi. split.
  - unfold Feat.rawToVector.
    change (map ?f ?l) with (f <$> l). by rewrite list_lookup_fmap, Hi.
  - unfold Feat.normalizedRow. by rewrite list_lookup_imap, Hi.
Qed.

(** ** Filters on their first frame *)

(** X20.  Warm start of the filters.  On a frame handled while the eye filters
    are uninitialised and the unified eye probability is finite, both
    filters take that probability, so the trend feature is 0; on a frame
    handled while the yawn filter is uninitialised and the yawn
    probability is finite, the filter takes that probability.  The
    feature vector carries these values. *)
Theorem warm_start_ema {E : Exp} {C : Classifier} (i : Tick) (s : State) :
  let r := processTick i s in
  (JS.isFinite (Eye.emaEye1 (eye s)) = false ->
   JS.isFinite (unifiedEyeProb i) = true ->
     Eye.emaEye1 (eye r.1) = unifiedEyeProb i
     /\ Eye.emaEye5 (eye r.1) = unifiedEyeProb i
     /\ rawFeat r.2 eye_open_unified = unifiedEyeProb i
     /\ rawFeat r.2 ema_eye_open_1s = unifiedEyeProb i
     /\ rawFeat r.2 ema_eye_open_5s = unifiedEyeProb i
     /\ rawFeat r.2 eye_open_trend_3s = 0%float)
  /\ (JS.isFinite (Mouth.yawnEma1 (mouth s)) = false ->
      JS.isFinite (yawnProb i) = true ->
        Mouth.yawnEma1 (mouth r.1) = yawnProb i
        /\ rawFeat r.2 yawn_prob_ema_1s = yawnProb i).
Proof.
  intros r. split.
  - intros Hu Hp.
    assert (He : Eye.emaEye1 (eye r.1) = unifiedEyeProb i
                 /\ Eye.emaEye5 (eye r.1) = unifiedEyeProb i).
    { unfold r. change (eye (processTick i s).1) with
        (Eye.step (unifiedEyeProb i) (nowSec i) (length (Tcn.featBuf (tcn s))) (eye s)).1.
      destruct (eyeStep_ema (unifiedEyeProb i) (nowSec i)
                  (length (Tcn.featBuf (tcn s))) (eye s)) as [-> ->].
      unfold Eye.updateEma. simpl. by rewrite Hu, Hp. }
    destruct He as [He1 He5]. split; [done|]. split; [done|].
    assert (Hf1 : rawFeat r.2 ema_eye_open_1s = Feat.finiteOr (Eye.emaEye1 (eye r.1)) 0.5)
      by reflexivity.
    assert (Hf5 : rawFeat r.2 ema_eye_open_5s = Feat.finiteOr (Eye.emaEye5 (eye r.1)) 0.5)
      by reflexivity.
    assert (Hfu : rawFeat r.2 eye_open_unified = Feat.finiteOr (unifiedEyeProb i) 0.5)
      by reflexivity.
    assert (Hft : rawFeat r.2 eye_open_trend_3s
                  = Feat.finiteOr (Eye.emaEye1 (Eye.updateEma (unifiedEyeProb i)
                                     (Eye.pushRing (Eye.closedRaw (unifiedEyeProb i)) (eye s)))
                                   - Eye.emaEye5 (Eye.updateEma (unifiedEyeProb i)
                                     (Eye.pushRing (Eye.closedRaw (unifiedEyeProb i)) (eye s)))) 0.0)
      by reflexivity.
    rewrite Hf1, Hf5, Hfu, Hft, He1, He5. unfold Feat.finiteOr. rewrite Hp.
    repeat split. unfold Eye.updateEma. simpl. rewrite Hu, Hp. simpl.
    by rewrite sub_diag.
  - intros Hu Hp.
    assert (Hm : Mouth.yawnEma1 (mouth r.1) = yawnProb i).
    { unfold r. rewrite processTick_mouth.
      change (Mouth.step (yawnProb i) (nowSec i) (mouth s)).1 with
        (mouthStep {| m_prob := yawnProb i; m_now := nowSec i |} (mouth s)).
      rewrite mouthStep_ema. unfold Mouth.updateEma. simpl. by rewrite Hu, Hp. }
    split; [done|].
    assert (Hf : rawFeat r.2 yawn_prob_ema_1s = Feat.finiteOr (Mouth.yawnEma1 (mouth r.1)) 0.0)
      by reflexivity.
    rewrite Hf, Hm. unfold Feat.finiteOr. by rewrite Hp.
Qed.

(** ** Invariants of a session *)

Section SessionProps.
Context {E : Exp} {T : Trig} {C : Classifier}.

Lemma EyeInv_init : EyeInv Eye.init.
Proof.
  split; simpl; try done; try lia; try tauto.
  exists []. apply new_inv. unfold PER_30S. lia.
Qed.

Lemma EyeInv_step i s : EyeInv s -> EyeInv (eyeStep i s).
Proof.
  intros [Hp Hon Hoff Hone Hrun Hpr Hseen [w Hw] Hcap].
  assert (Hring : exists w', RingInv (Eye.rbEyeClosed (eyeStep i s)) w'
                             /\ Ring.n (Eye.rbEyeClosed (eyeStep i s)) = PER_30S).
  { rewrite eyeStep_ring. destruct (push_inv _ _ (rawOf i) Hw) as [Hw' Hn].
    eexists. split; [exact Hw'|congruence]. }
  destruct Hring as (w' & Hw' & Hcap').
  pose proof (eyeStep_prolonged i s) as Hpro. cbv zeta in Hpro.
  destruct (eyeStep_counters i s) as [Hc1 Hc2].
  assert (Hseen' : Eye.hasSeenBlink (eyeStep i s) = 0%Z
                   \/ Eye.hasSeenBlink (eyeStep i s) = 1%Z).
  { unfold eyeStep, Eye.step. simpl.
    repeat (break_if; simpl); tauto. }
  destruct (rawOf i) eqn:Hr.
  - destruct (eyeStep_closed i s Hr) as (H1 & H2 & H3 & _).
    unfold EYE_DEBOUNCE_ON_F, FRM_2P5S in *.
    split.
    + by apply eyeStep_pulse.
    + lia.
    + lia.
    + right. lia.
    + rewrite H2, H3. destruct (Eye.eyeClosedDebounced s); simpl; [lia|].
      by destruct (2 <=? Eye.eyeDebOn s + 1)%Z.
    + rewrite Hpro. intros [Hd Hx]%andb_true_iff. split; [done|].
      apply orb_true_iff in Hx as [Hx|Hx].
      * destruct (Hpr Hx) as [Hd0 Hl]. rewrite H3, Hd0. unfold FRM_2P5S. lia.
      * apply andb_true_iff in Hx as [Hx _]. by apply Z.leb_le in Hx.
    + done.
    + by exists w'.
    + done.
  - destruct (eyeStep_open i s Hr) as (H1 & H2 & H3 & H4 & _).
    cbv zeta in H3, H4. unfold EYE_DEBOUNCE_OFF_F, FRM_2P5S in *.
    split.
    + by apply eyeStep_pulse.
    + lia.
    + lia.
    + left. lia.
    + rewrite H3, H4. destruct (Eye.eyeClosedDebounced s); simpl; [|done].
      destruct (2 <=? Eye.eyeDebOff s + 1)%Z; simpl; [done|lia].
    + rewrite Hpro. intros [Hd Hx]%andb_true_iff. split; [done|].
      apply orb_true_iff in Hx as [Hx|Hx].
      * destruct (Hpr Hx) as [Hd0 Hl]. rewrite H4, Hd0. simpl.
        rewrite H3, Hd0 in Hd. simpl in Hd.
        unfold FRM_2P5S.
        destruct (2 <=? Eye.eyeDebOff s + 1)%Z; simpl in *; [done|lia].
      * apply andb_true_iff in Hx as [Hx _]. by apply Z.leb_le in Hx.
    + done.
    + by exists w'.
    + done.
Qed.

Lemma resetEye_init e : EyeInv e -> resetEye e = Eye.init.
Proof.
  intros [_ _ _ _ _ _ _ [w Hw] Hcap]. unfold resetEye, Eye.init. f_equal.
  unfold Ring.reset, Ring.new. by rewrite (inv_len _ _ Hw), Hcap.
Qed.

Lemma normalizedRow_length mu sigma raw :
  length (Feat.normalizedRow mu sigma raw) = F.
Proof. unfold Feat.normalizedRow. by rewrite length_imap. Qed.

Lemma rawToVector_length raw : length (Feat.rawToVector raw) = F.
Proof. unfold Feat.rawToVector. by rewrite length_map. Qed.

Lemma pushRow_Forall (P : list float -> Prop) buf row :
  Forall P buf -> P row -> Forall P (Feat.pushRow buf row).
Proof.
  intros Hb Hr. unfold Feat.pushRow.
  assert (Forall P (buf ++ [row])) by (apply Forall_app; by rewrite Forall_singleton).
  destruct (_ <? _)%nat; [by apply Forall_drop|done].
Qed.

Lemma collect_shape clock raw n :
  length (Norm.baseSum n) = F -> length (Norm.baseSqSum n) = F ->
  (0 <= Norm.baseCnt n)%Z ->
  length (Norm.baseSum (Norm.collect clock raw n)) = F
  /\ length (Norm.baseSqSum (Norm.collect clock raw n)) = F
  /\ (0 <= Norm.baseCnt (Norm.collect clock raw n))%Z.
Proof.
  intros H1 H2 H3. unfold Norm.collect. destruct (Norm.normMode n); [|done].
  destruct (JS.ge _ NORM_SECONDS); simpl;
    rewrite !length_zip_with, H1, H2, rawToVector_length; repeat split; lia.
Qed.

Lemma resetNorm_shape clock n :
  length (Norm.baseSum n) = F -> length (Norm.baseSqSum n) = F ->
  (0 <= Norm.baseCnt n)%Z ->
  length (Norm.baseSum (Norm.resetNorm clock n)) = F
  /\ length (Norm.baseSqSum (Norm.resetNorm clock n)) = F
  /\ (0 <= Norm.baseCnt (Norm.resetNorm clock n))%Z.
Proof.
  intros H1 H2 H3. unfold Norm.resetNorm.
  destruct (Norm.normalizationEnabled n); simpl; rewrite ?length_replicate; done.
Qed.

Lemma getSmoothDelta_bufs name v s :
  (forall a, length (Pose.get a (Pose.angleBufs s)) <= Pose.MAXN) ->
  forall a, length (Pose.get a (Pose.angleBufs (Pose.getSmoothDelta name v s).1))
            <= Pose.MAXN.
Proof.
  intros Hs a. unfold Pose.getSmoothDelta. cbn [fst Pose.angleBufs].
  rewrite get_set. destruct (decide (a = name)) as [->|_]; [|apply Hs].
  unfold Pose.push_bounded. specialize (Hs name).
  destruct (Nat.ltb_spec Pose.MAXN (length (Pose.get name (Pose.angleBufs s) ++ [v])));
    rewrite ?length_drop, ?length_app in *; simpl in *; lia.
Qed.

Lemma SessionInv_loaded : SessionInv loaded.
Proof.
  split; simpl; try done.
  - intros []; simpl; unfold Pose.MAXN; lia.
  - apply EyeInv_init.
Qed.

Lemma processTick_inv i s : SessionInv s -> SessionInv (processTick i s).1.
Proof.
  intros [Hrows Hbufs Heye Hmouth Hbase Hnod Hsum Hsq Hcnt].
  destruct (collect_shape (clockNorm i)
    (rawFeat (processTick i s).2) (norm s) Hsum Hsq Hcnt) as (N1 & N2 & N3).
  split.
  - change (Tcn.featBuf (tcn (processTick i s).1)) with
      (Tcn.featBuf (Tcn.tcnPredictIfReady (norm (processTick i s).1)
         (Tcn.pushFrameFeatures (norm (processTick i s).1)
            (rawFeat (processTick i s).2) (tcn s))).1).
    rewrite tcnPredictIfReady_featBuf. apply pushRow_Forall; [done|].
    apply normalizedRow_length.
  - change (smooth (processTick i s).1) with
      (Pose.getSmoothDelta Pose.Roll (t_rollDeg i)
         (Pose.getSmoothDelta Pose.Pitch (t_pitchDeg i)
            (Pose.getSmoothDelta Pose.Yaw (t_yawDeg i) (smooth s)).1).1).1.
    by do 3 apply getSmoothDelta_bufs.
  - rewrite processTick_eye. by apply EyeInv_step.
  - rewrite processTick_mouth.
    change (Mouth.step (yawnProb i) (nowSec i) (mouth s)).1 with
      (mouthStep {| m_prob := yawnProb i; m_now := nowSec i |} (mouth s)).
    by apply MouthInv_step.
  - exact Hbase.
  - change (nod (processTick i s).1) with
      (Nod.step (Eye.prolonged_eye_state (eyeOut (processTick i s).2))
         (Eye.eyeClosedRaw (eyeOut (processTick i s).2))
         (t_yawDeg i) (t_pitchDeg i) (t_rollDeg i) (nod s)).
    unfold Nod.step. repeat (break_if; simpl); done.
  - exact N1.
  - exact N2.
  - exact N3.
Qed.

Lemma captureBaseline_inv clock a s :
  SessionInv s -> SessionInv (captureBaseline clock a s).
Proof.
  intros Hs. unfold captureBaseline. destruct (baselineCaptured s); [done|].
  destruct Hs as [Hrows Hbufs Heye Hmouth Hbase Hnod Hsum Hsq Hcnt].
  destruct (resetNorm_shape clock (norm s) Hsum Hsq Hcnt) as (N1 & N2 & N3).
  split; try done.
Qed.

Lemma handle_inv s ev : SessionInv s -> SessionInv (handle s ev).
Proof.
  intros Hs. destruct ev as [cam| |b|res]; simpl.
  - unfold startProcessing. destruct cam; [|done].
    destruct Hs as [Hrows Hbufs Heye Hmouth Hbase Hnod Hsum Hsq Hcnt].
    split; simpl; try done.
    rewrite resetEye_init by done. apply EyeInv_init.
  - by destruct Hs.
  - by destruct Hs.
  - unfold onResults. destruct (runningFlag s); cbn [negb]; [|done].
    destruct res as [fr|]; [|done]. cbv zeta. cbn [fst].
    by apply processTick_inv, captureBaseline_inv.
Qed.

Lemma runEvents_inv evs : SessionInv (runEvents evs).
Proof.
  unfold runEvents. induction evs as [|ev evs IH] using rev_ind.
  - apply SessionInv_loaded.
  - rewrite foldl_snoc. by apply handle_inv.
Qed.

Lemma runEvents_snoc evs ev : runEvents (evs ++ [ev]) = handle (runEvents evs) ev.
Proof. unfold runEvents. by rewrite foldl_snoc. Qed.

Lemma runEvents_app evs evs' :
  runEvents (evs ++ evs') = foldl handle (runEvents evs) evs'.
Proof. unfold runEvents. by rewrite foldl_app. Qed.
End SessionProps.

(** ** What a session can and cannot reach *)

(** X21.  The shape of the buffers.  In every state a session can reach, each
    row of the temporal window has one entry per feature of the schema
    (20), no axis keeps more than five angles, the two accumulators of
    the normaliser have one cell per feature, and the ring of raw
    eye-closed flags has its 450 cells, a count of at most 450 and a
    write index below 450. *)
Theorem session_buffers_shaped {E : Exp} {T : Trig} {C : Classifier}
    (evs : list Event) :
  let s := runEvents evs in
  let ring := Eye.rbEyeClosed (eye s) in
  Forall (fun row => length row = F) (Tcn.featBuf (tcn s))
  /\ F = 20
  /\ (forall a, length (Pose.get a (Pose.angleBufs (smooth s))) <= Pose.MAXN)
  /\ length (Norm.baseSum (norm s)) = F
  /\ length (Norm.baseSqSum (norm s)) = F
  /\ Ring.n ring = PER_30S
  /\ length (Ring.buf ring) = PER_30S
  /\ Ring.count ring <= PER_30S
  /\ Ring.i ring < PER_30S.
Proof.
  intros s ring.
  destruct (runEvents_inv evs) as [Hrows Hbufs Heye _ _ _ Hsum Hsq _].
  destruct Heye as [_ _ _ _ _ _ _ [w Hw] Hcap]. fold s in Hw, Hcap. fold ring in Hw, Hcap.
  destruct Hw as [Hlen _ Hidx _ _].
  repeat split; try done; try congruence; destruct Hidx as [[? ?]|[? ?]]; lia.
Qed.

(** X22.  The counters of the eye block and of the nod rule.  In every state a
    session can reach: the blink pulse is spent; the two debounce
    counters are not negative and at most one of them is not zero; the
    run counter is at least 1 while the eye is debounced-closed and 0
    otherwise; the prolonged-closure flag is set only while the eye is
    debounced-closed with a run of at least 12 frames; and the counter
    [stableFrames] of the nod rule is 0. *)
Theorem session_counters {E : Exp} {T : Trig} {C : Classifier}
    (evs : list Event) :
  let s := runEvents evs in
  let e := eye s in
  Eye.blinkPulse e = 0%Z
  /\ (0 <= Eye.eyeDebOn e)%Z /\ (0 <= Eye.eyeDebOff e)%Z
  /\ (Eye.eyeDebOn e = 0%Z \/ Eye.eyeDebOff e = 0%Z)
  /\ (if Eye.eyeClosedDebounced e then (1 <= Eye.eyeRunLenFrames e)%Z
      else Eye.eyeRunLenFrames e = 0%Z)
  /\ (Eye.prolongedEyeActive e = true ->
        Eye.eyeClosedDebounced e = true /\ (FRM_2P5S <= Eye.eyeRunLenFrames e)%Z)
  /\ Nod.stableFrames (nod s) = 0%Z.
Proof.
  intros s e. destruct (runEvents_inv evs) as [_ _ Heye _ _ Hnod _ _ _].
  by destruct Heye.
Qed.

Lemma perclos_table :
  forallb (fun len =>
     forallb (fun k =>
        let q := (JS.Z2F (Z.of_nat k) / JS.Z2F (Z.of_nat len))%float in
        JS.le 0 q && JS.le q 1)
       (seq 0 (S len)))
    (seq 1 PER_30S) = true.
Proof. vm_compute. reflexivity. Qed.

Lemma fraction_range k len :
  1 <= len <= PER_30S -> k <= len ->
  let q := (JS.Z2F (Z.of_nat k) / JS.Z2F (Z.of_nat len))%float in
  JS.le 0 q = true /\ JS.le q 1 = true.
Proof.
  intros Hlen Hk. pose proof perclos_table as Ht.
  rewrite forallb_forall in Ht. specialize (Ht len ltac:(apply in_seq; lia)).
  rewrite forallb_forall in Ht. specialize (Ht k ltac:(apply in_seq; lia)).
  by apply andb_true_iff in Ht.
Qed.

Lemma unit_finite x : JS.le 0 x = true -> JS.le x 1 = true -> JS.isFinite x = true.
Proof.
  rewrite !JS_le_spec. unfold JS.isFinite, is_finite, is_infinity, is_nan.
  rewrite !eqb_spec, abs_spec. unfold SFeqb.
  change (Prim2SF 0) with (S754_zero false).
  change (Prim2SF infinity) with (S754_infinity false).
  assert (H1 : exists m e, Prim2SF 1 = S754_finite false m e)
    by (vm_compute; eauto).
  destruct H1 as (m1 & e1 & ->).
  destruct (Prim2SF x) as [[]|[]| |[] m e]; cbn [SFcompare SFabs];
    rewrite ?Z.compare_refl, ?Pos_compare_cont_Eq, ?Pos.compare_refl;
    intros [?|?] [?|?]; try discriminate; reflexivity.
Qed.

Lemma processTick_perclos {E : Exp} {C : Classifier} (i : Tick) (s : State) :
  SessionInv s ->
  let p := Eye.perclos_30s (eyeOut (processTick i s).2) in
  JS.le 0 p = true /\ JS.le p 1 = true
  /\ rawFeat (processTick i s).2 perclos_30s = p.
Proof.
  intros [_ _ [_ _ _ _ _ _ _ [w Hw] Hcap] _ _ _ _ _ _] p.
  assert (Hp : p = Ring.mean (Ring.push (Eye.rbEyeClosed (eye s))
                                (sample (Eye.closedRaw (unifiedEyeProb i))))) by reflexivity.
  destruct (push_inv _ _ (Eye.closedRaw (unifiedEyeProb i)) Hw) as [Hw' Hn'].
  set (w' := slide _ _ _) in Hw'.
  pose proof (resident_length _ _ Hw') as Hlen.
  assert (Hrange : JS.le 0 p = true /\ JS.le p 1 = true).
  { rewrite Hp. unfold Ring.mean. rewrite (inv_sum _ _ Hw'), <- Hlen.
    assert (Hpos : 1 <= length w').
    { pose proof (inv_cap _ _ Hw) as Hpos0.
      unfold w', slide. destruct (_ <? _)%nat eqn:Hlt.
      - apply Nat.ltb_lt in Hlt. rewrite length_drop.
        rewrite length_app in *. simpl in *. lia.
      - rewrite length_app. simpl. lia. }
    assert (Hcnt : length w' <= PER_30S).
    { rewrite Hlen. destruct Hw' as [_ Hc Hidx _ _]. destruct Hidx as [[? ?]|[? ?]]; lia. }
    destruct (Nat.eqb_spec (length w') 0) as [?|_]; [lia|].
    pose proof (ones_bound w') as Hones.
    replace (ones w') with (Z.of_nat (Z.to_nat (ones w'))) by lia.
    apply fraction_range; lia. }
  destruct Hrange as [H0 H1]. split; [done|]. split; [done|].
  change (rawFeat _ perclos_30s) with (Feat.finiteOr p 0.0).
  unfold Feat.finiteOr. by rewrite unit_finite.
Qed.

(** X23.  PERCLOS is a fraction.  On every frame of every session the
    [perclos_30s] value lies between 0 and 1, and the feature vector
    carries it unchanged. *)
Theorem session_perclos_is_fraction {E : Exp} {T : Trig} {C : Classifier}
    (evs : list Event) (res : option Frame) (out : Output) :
  nextOutput evs res = Some out ->
  let p := Eye.perclos_30s (eyeOut out) in
  JS.le 0 p = true /\ JS.le p 1 = true /\ rawFeat out perclos_30s = p.
Proof.
  unfold nextOutput, onResults. intros Hout.
  destruct (runningFlag (runEvents evs)); cbn [negb] in Hout; [|done].
  destruct res as [fr|]; [|done]. cbv zeta in Hout. cbn [snd] in Hout.
  apply (inj Some) in Hout. rewrite <- Hout.
  apply processTick_perclos, captureBaseline_inv, runEvents_inv.
Qed.

(** X24.  A stopped engine ignores results.  After Stop (and before the first
    Start) any number of FaceMesh results leaves the state as it was and
    produces no output, so no row enters the window; a result without a
    face and a Start without a camera change nothing either. *)
Theorem results_ignored_when_stopped {E : Exp} {T : Trig} {C : Classifier}
    (evs : list Event) (rs : list (option Frame)) (res : option Frame) :
  runEvents (evs ++ Stop :: (Results <$> rs)) = runEvents (evs ++ [Stop])
  /\ nextOutput (evs ++ Stop :: (Results <$> rs)) res = None
  /\ runEvents (Results <$> rs) = loaded
  /\ runEvents (evs ++ [Results None]) = runEvents evs
  /\ runEvents (evs ++ [Start false]) = runEvents evs.
Proof.
  assert (Hstop : forall s, runningFlag s = false ->
            foldl handle s (Results <$> rs) = s).
  { intros s Hs. induction rs as [|r rs IH] using rev_ind; [done|].
    rewrite fmap_app, foldl_app, IH. simpl. unfold onResults. by rewrite Hs. }
  assert (H1 : runEvents (evs ++ Stop :: (Results <$> rs)) = runEvents (evs ++ [Stop])).
  { replace (evs ++ Stop :: (Results <$> rs)) with ((evs ++ [Stop]) ++ (Results <$> rs))
      by (by rewrite <- app_assoc).
    rewrite runEvents_app. apply Hstop. by rewrite runEvents_snoc. }
  split; [done|]. split; [|split; [|split]].
  - unfold nextOutput. rewrite H1, runEvents_snoc. done.
  - unfold runEvents. by apply Hstop.
  - rewrite runEvents_snoc. simpl. unfold onResults.
    by destruct (runningFlag (runEvents evs)).
  - by rewrite runEvents_snoc.
Qed.

(** X25.  [startProcessing] restores the eye, mouth, nod and window blocks.
    Whatever happened before, right after a Start with a camera the eye
    block (its ring included), the mouth block, the nod state and the
    temporal window are exactly as after loading, the calibrator is
    empty and the session runs. *)
Theorem start_restores_fresh_blocks {E : Exp} {T : Trig} {C : Classifier}
    (evs : list Event) :
  let s := runEvents (evs ++ [Start true]) in
  eye s = Eye.init /\ mouth s = Mouth.init /\ nod s = Nod.init
  /\ tcn s = Tcn.init /\ baseline s = None /\ baselineCaptured s = false
  /\ dominantEye s = EyeBoth /\ runningFlag s = true.
Proof.
  intros s. unfold s. rewrite runEvents_snoc. simpl.
  destruct (runEvents_inv evs) as [_ _ Heye _ _ _ _ _ _].
  repeat split. by apply resetEye_init.
Qed.

(** X26.  The baseline is captured once per session.  The first result after
    a Start is handled with the angles of the raw face axes (no baseline
    is held yet); it fixes the baseline and the dominant eye (right above
    10 degrees of raw yaw, left below -10, both otherwise), and no later
    result of the session changes them. *)
Theorem baseline_captured_once {E : Exp} {T : Trig} {C : Classifier}
    (evs : list Event) (fr : Frame) (rs : list (option Frame)) :
  let s0 := runEvents (evs ++ [Start true]) in
  let a := Pose.faceAxesFromLandmarks (lm fr) in
  let rawYawDeg :=
    Pose.toDeg (Math_atan2 (Pose.x (Pose.Z a)) (Pose.z (Pose.Z a))) in
  let s := runEvents (evs ++ Start true :: Results (Some fr) :: (Results <$> rs)) in
  t_yawDeg (poseTick fr s0) = rawYawDeg
  /\ baseline s = Pose.setManualAxes a
  /\ baselineCaptured s = true
  /\ dominantEye s =
       (if JS.gt rawYawDeg 10 then EyeRight
        else if JS.lt rawYawDeg (-10) then EyeLeft else EyeBoth)
  /\ runningFlag s = true.
Proof.
  intros s0 a rawYawDeg s.
  assert (Hs0 : s0 = startProcessing true (runEvents evs)).
  { unfold s0. by rewrite runEvents_snoc. }
  split; [by rewrite Hs0|].
  set (B := Pose.setManualAxes a).
  set (D := if JS.gt rawYawDeg 10 then EyeRight
            else if JS.lt rawYawDeg (-10) then EyeLeft else EyeBoth).
  assert (Hkeep : forall u, runningFlag u = true /\ baselineCaptured u = true
                            /\ baseline u = B /\ dominantEye u = D ->
            let u' := foldl handle u (Results <$> rs) in
            runningFlag u' = true /\ baselineCaptured u' = true
            /\ baseline u' = B /\ dominantEye u' = D).
  { intros u Hu. induction rs as [|r rs IH] using rev_ind; [done|].
    cbv zeta. rewrite fmap_app, foldl_app.
    destruct IH as (I1 & I2 & I3 & I4). simpl. unfold onResults. rewrite I1.
    cbn [negb]. destruct r as [fr'|]; [|done]. cbv zeta. cbn [fst].
    unfold captureBaseline. rewrite I2. done. }
  assert (Hs : s = foldl handle (handle s0 (Results (Some fr))) (Results <$> rs)).
  { unfold s, s0.
    replace (evs ++ Start true :: Results (Some fr) :: (Results <$> rs))
      with ((evs ++ [Start true]) ++ Results (Some fr) :: (Results <$> rs))
      by (by rewrite <- app_assoc).
    by rewrite runEvents_app. }
  rewrite Hs. destruct (Hkeep (handle s0 (Results (Some fr)))) as (H1 & H2 & H3 & H4).
  { by rewrite Hs0. }
  done.
Qed.

Section Normalisation.
Context {E : Exp} {T : Trig} {C : Classifier}.

Lemma tcnPredictIfReady_sim n1 n2 t1 t2 :
  Tcn.featBuf t1 = Tcn.featBuf t2 -> Tcn.tcnIsDrowsy t1 = Tcn.tcnIsDrowsy t2 ->
  Tcn.featBuf (Tcn.tcnPredictIfReady n1 t1).1 = Tcn.featBuf (Tcn.tcnPredictIfReady n2 t2).1
  /\ Tcn.tcnIsDrowsy (Tcn.tcnPredictIfReady n1 t1).1
     = Tcn.tcnIsDrowsy (Tcn.tcnPredictIfReady n2 t2).1
  /\ (Tcn.tcnPredictIfReady n1 t1).2 = (Tcn.tcnPredictIfReady n2 t2).2.
Proof.
  intros Hb Hd. unfold Tcn.tcnPredictIfReady. destruct tcnModel as [predict|]; [|done].
  rewrite Hb, Hd. by destruct (_ <? _)%nat.
Qed.

Lemma processTick_sim i s1 s2 :
  Sim s1 s2 ->
  Sim (processTick i s1).1 (processTick i s2).1
  /\ rawFeat (processTick i s1).2 = rawFeat (processTick i s2).2
  /\ classifierProb (processTick i s1).2 = classifierProb (processTick i s2).2.
Proof.
  intros [H1 H2 H3 H4 H5 H6 H7 H8 H9 H10 M1 S1 M2 S2].
  assert (Hraw : rawFeat (processTick i s1).2 = rawFeat (processTick i s2).2).
  { unfold processTick. cbn [snd rawFeat]. by rewrite H5, H6, H7, H9. }
  destruct (processTick_keeps_stats i s1) as [K1 K2].
  destruct (processTick_keeps_stats i s2) as [K3 K4].
  assert (Hpush :
    Tcn.featBuf (Tcn.pushFrameFeatures (norm (processTick i s1).1)
                   (rawFeat (processTick i s1).2) (tcn s1))
    = Tcn.featBuf (Tcn.pushFrameFeatures (norm (processTick i s2).1)
                   (rawFeat (processTick i s2).2) (tcn s2))).
  { unfold Tcn.pushFrameFeatures. cbn [Tcn.featBuf].
    by rewrite K1, K2, K3, K4, M1, S1, M2, S2, Hraw, H9. }
  destruct (tcnPredictIfReady_sim (norm (processTick i s1).1) (norm (processTick i s2).1)
              _ _ Hpush H10) as (T1 & T2 & T3).
  split; [|split; [done|exact T3]].
  split; try done.
  - change (smooth (processTick i s1).1 = smooth (processTick i s2).1).
    unfold processTick. cbn [fst smooth]. by rewrite H5.
  - rewrite !processTick_eye. by rewrite H6, H9.
  - rewrite !processTick_mouth. by rewrite H7.
  - change (nod (processTick i s1).1 = nod (processTick i s2).1).
    unfold processTick. cbn [fst nod]. by rewrite H6, H8, H9.
  - by rewrite K1.
  - by rewrite K2.
  - by rewrite K3.
  - by rewrite K4.
Qed.

Lemma captureBaseline_sim clock a s1 s2 :
  Sim s1 s2 -> Sim (captureBaseline clock a s1) (captureBaseline clock a s2).
Proof.
  intros Hs. pose proof Hs as [H1 H2 H3 H4 H5 H6 H7 H8 H9 H10 M1 S1 M2 S2].
  unfold captureBaseline. rewrite <- H2. destruct (baselineCaptured s1); [done|].
  destruct (resetNorm_keeps_stats clock (norm s1)) as [K1 K2].
  destruct (resetNorm_keeps_stats clock (norm s2)) as [K3 K4].
  split; simpl; try done; congruence.
Qed.

Lemma poseTick_sim fr s1 s2 : Sim s1 s2 -> poseTick fr s1 = poseTick fr s2.
Proof. intros Hs. unfold poseTick. by rewrite (sim_baseline _ _ Hs). Qed.

Lemma handle_sim s1 s2 ev :
  Sim s1 s2 -> Sim (handle s1 ev) (handle s2 (withoutNormalization ev)).
Proof.
  intros Hs. pose proof Hs as [H1 H2 H3 H4 H5 H6 H7 H8 H9 H10 M1 S1 M2 S2].
  destruct ev as [cam| |b|res]; simpl.
  - unfold startProcessing. destruct cam; [|done].
    split; simpl; try done; congruence.
  - split; simpl; done.
  - split; simpl; done.
  - unfold onResults. rewrite <- H1. destruct (runningFlag s1); cbn [negb]; [|done].
    destruct res as [fr|]; [|done]. cbv zeta. cbn [fst].
    rewrite (poseTick_sim fr s1 s2 Hs).
    by apply processTick_sim, captureBaseline_sim.
Qed.

Lemma runEvents_sim evs : Sim (runEvents evs) (runEvents (withoutNormalization <$> evs)).
Proof.
  induction evs as [|ev evs IH] using rev_ind; [by split|].
  rewrite fmap_app.
  change (withoutNormalization <$> [ev]) with [withoutNormalization ev].
  rewrite !runEvents_snoc. by apply handle_sim.
Qed.

(** X27.  The normalisation switch never reaches the classifier.  Run the
    same events with the switch left off: the rows of the temporal
    window, the eye, mouth, nod and pose state, the displayed drowsy
    state, and on any further result the feature vector and the
    probability obtained from the classifier are the same.  (No
    statistics are ever stored, so every row is pushed unnormalised.) *)
Theorem normalisation_never_changes_rows (evs : list Event) (res : option Frame) :
  let evs' := withoutNormalization <$> evs in
  let s1 := runEvents evs in
  let s2 := runEvents evs' in
  Tcn.featBuf (tcn s1) = Tcn.featBuf (tcn s2)
  /\ Tcn.tcnIsDrowsy (tcn s1) = Tcn.tcnIsDrowsy (tcn s2)
  /\ eye s1 = eye s2 /\ mouth s1 = mouth s2 /\ nod s1 = nod s2
  /\ smooth s1 = smooth s2 /\ baseline s1 = baseline s2
  /\ (rawFeat <$> nextOutput evs res) = (rawFeat <$> nextOutput evs' res)
  /\ (classifierProb <$> nextOutput evs res) = (classifierProb <$> nextOutput evs' res).
Proof.
  intros evs' s1 s2. pose proof (runEvents_sim evs) as Hs.
  fold evs' in Hs. fold s1 s2 in Hs.
  pose proof Hs as [H1 H2 H3 H4 H5 H6 H7 H8 H9 H10 M1 S1 M2 S2].
  repeat (split; [done|]).
  unfold nextOutput, onResults. fold s1 s2. rewrite <- H1.
  destruct (runningFlag s1); cbn [negb]; [|done].
  destruct res as [fr|]; [|done]. cbv zeta. cbn [snd fmap option_fmap option_map].
  rewrite (poseTick_sim fr s1 s2 Hs).
  destruct (processTick_sim (poseTick fr s2) _ _
              (captureBaseline_sim (f_clockReset fr)
                 (Pose.faceAxesFromLandmarks (lm fr)) s1 s2 Hs)) as (_ & Hr & Hc).
  by rewrite Hr, Hc.
Qed.
End Normalisation.

(** X28.  When a collection starts.  The normaliser starts collecting only on
    the result that captures the baseline of a running session, and only
    if normalisation is switched on at that moment; that result is the
    first sample.  Switching normalisation on later in the session starts
    nothing. *)
Theorem collection_starts_only_at_capture {E : Exp} {T : Trig} {C : Classifier}
    (s : State) (ev : Event) :
  Norm.normMode (norm s) = false ->
  Norm.normMode (norm (handle s ev)) = true ->
  runningFlag s = true /\ baselineCaptured s = false
  /\ Norm.normalizationEnabled (norm s) = true
  /\ (exists fr, ev = Results (Some fr))
  /\ baselineCaptured (handle s ev) = true
  /\ Norm.baseCnt (norm (handle s ev)) = 1%Z.
Proof.
  intros Hoff Hon. destruct ev as [cam| |b|res]; cbn [handle] in Hon |- *.
  - unfold startProcessing in Hon. destruct cam; cbn [negb norm] in Hon; congruence.
  - cbn [stopProcessing norm] in Hon. congruence.
  - cbn [setNormalizationEnabled norm Norm.setNormalizationEnabled Norm.normMode] in Hon.
    congruence.
  - unfold onResults in *. destruct (runningFlag s) eqn:Hrun; cbn [negb] in *;
      [|cbn [fst] in Hon; congruence].
    destruct res as [fr|]; [|cbn [fst] in Hon; congruence].
    cbv zeta in *. cbn [fst] in *.
    set (i := poseTick fr s) in *.
    set (u := captureBaseline _ _ s) in *.
    assert (Hn : norm (processTick i u).1
                 = Norm.collect (clockNorm i) (rawFeat (processTick i u).2) (norm u))
      by reflexivity.
    assert (Hb : baselineCaptured (processTick i u).1 = baselineCaptured u)
      by reflexivity.
    rewrite Hn in Hon |- *. rewrite Hb. clear Hn Hb.
    generalize dependent (rawFeat (processTick i u).2). intros raw Hon.
    unfold u, captureBaseline in *. clear u. destruct (baselineCaptured s) eqn:Hcap.
    { unfold Norm.collect in Hon. rewrite Hoff in Hon. congruence. }
    cbn [norm baselineCaptured] in *. unfold Norm.resetNorm in *.
    destruct (Norm.normalizationEnabled (norm s)) eqn:Hen; cbn [negb] in *.
    2:{ unfold Norm.collect in Hon. cbn [Norm.normMode] in Hon. congruence. }
    unfold Norm.collect in *. cbn [Norm.normMode Norm.normT0] in *.
    destruct (JS.ge _ NORM_SECONDS); [simpl in Hon; congruence|].
    repeat split; try done. by exists fr.
Qed.

(** X29.  Only the buttons start and stop a session.  After any events the
    session runs exactly when the last button event was a Start with a
    camera: results, the normalisation switch and a Start without a
    camera never change it. *)
Theorem running_follows_buttons {E : Exp} {T : Trig} {C : Classifier}
    (evs : list Event) :
  runningFlag (runEvents evs) =
    foldl (fun running ev =>
             match ev with
             | Start true => true
             | Stop => false
             | _ => running
             end) false evs.
Proof.
  induction evs as [|ev evs IH] using rev_ind; [done|].
  rewrite runEvents_snoc, foldl_snoc, <- IH.
  destruct ev as [[|]| |b|res]; try done.
  simpl. unfold onResults. destruct (runningFlag (runEvents evs)) eqn:Hr; cbn [negb].
  - destruct res as [fr|]; [|done]. cbv zeta. cbn [fst].
    unfold captureBaseline. by destruct (baselineCaptured (runEvents evs)).
  - done.
Qed.

(** ** The frame rate is capped *)



(** ** The further properties at work *)

(** [closure_length_recorded] at work: a closure of three frames. *)
Lemma closure_length_recorded_witness :
  let cs := [shutFrame 0; shutFrame 1; shutFrame 2] in
  let s1 := @eyeSteps refExp (cs ++ [openFrame 3]) Eye.init in
  let r := @Eye.step refExp 0.9 (4 / 15) 4 s1 in
  Eye.eyeRunLenFrames s1 = 3%Z
  /\ Eye.eyeRuns r.1 =
       Eye.prune (4 / 15 - 30.0) [Eye.run (4 / 15) 3 (JS.Z2F 3 * DT)]
  /\ Eye.blink_state r.2 = true.
Proof.
  intros cs s1 r.
  destruct (@closure_length_recorded refExp cs (openFrame 3) (openFrame 4) Eye.init)
    as (_ & H2 & _ & _ & _ & H6 & H7 & _).
  - reflexivity.
  - reflexivity.
  - reflexivity.
  - unfold cs. repeat constructor.
  - simpl. lia.
  - reflexivity.
  - reflexivity.
  - split; [exact H2|]. split; [exact H6|exact H7].
Defined.

(** [first_prolonged_episode] at work: thirteen frames with the eyes
    shut at the start of a session. *)
Lemma first_prolonged_episode_witness :
  Eye.prolongedEyeActive (@eyeSteps refExp (shutFrame <$> seq 0 13) Eye.init) = true
  /\ Eye.prolongedEyeActive (@eyeSteps refExp (shutFrame <$> seq 0 12) Eye.init) = false
  /\ Eye.lastProlongStartFrame (@eyeSteps refExp (shutFrame <$> seq 0 13) Eye.init) = 12%Z.
Proof.
  destruct (@first_prolonged_episode refExp (shutFrame <$> seq 0 13) Eye.init)
    as [H1 H2]; try reflexivity.
  { unfold BLINK_LOCK_FRM. simpl. lia. }
  { repeat constructor. }
  destruct (@first_prolonged_episode refExp (shutFrame <$> seq 0 12) Eye.init)
    as [H3 _]; try reflexivity.
  { unfold BLINK_LOCK_FRM. simpl. lia. }
  { repeat constructor. }
  split; [exact H1|]. split; [exact H3|exact H2].
Defined.

(** [yawn_event_classification] at work: a mouth open for 25 frames
    closes. *)
Lemma yawn_event_classification_witness :
  let r := @Mouth.step refExp 0.0 10 yawning in
  Mouth.mouthOpen r.1 = false
  /\ Mouth.yawn_event_state r.2 = true
  /\ Mouth.lastYawnEndTime r.1 = 10%float.
Proof.
  intros r.
  destruct (@yawn_event_classification refExp {| m_prob := 0.0; m_now := 10 |} yawning
              eq_refl) as (H & _ & _).
  destruct (H eq_refl eq_refl) as (_ & H2 & H3 & _).
  split; [reflexivity|]. split; [exact H2|exact H3].
Defined.

(** [norm_accumulates_columnwise] at work: two samples. *)
Lemma norm_accumulates_columnwise_witness :
  let n := addNormSamples [replicate F 1%float; replicate F 2%float]
             (Norm.resetNorm 5 (Norm.setNormalizationEnabled true Norm.init)) in
  Norm.baseCnt n = 2%Z
  /\ Norm.baseSum n !! 3%nat = Some 3%float
  /\ Norm.baseSqSum n !! 3%nat = Some 5%float.
Proof.
  intros n.
  destruct (norm_accumulates_columnwise 5
              (Norm.setNormalizationEnabled true Norm.init)
              [replicate F 1%float; replicate F 2%float])
    as (_ & _ & H3 & _ & _ & H6).
  - reflexivity.
  - reflexivity.
  - reflexivity.
  - repeat constructor.
  - destruct (H6 3%nat ltac:(unfold F; simpl; lia)) as [H7 H8].
    split; [exact H3|]. split; [exact H7|exact H8].
Defined.

(** [session_perclos_is_fraction] at work: the first frame of a session,
    with the eyes shut. *)
Lemma session_perclos_is_fraction_witness :
  match refOutput [Start true] (frontalFrame 0.1 0) with
  | Some out =>
      JS.le 0 (Eye.perclos_30s (eyeOut out)) = true
      /\ JS.le (Eye.perclos_30s (eyeOut out)) 1 = true
  | None => False
  end.
Proof.
  unfold refOutput.
  destruct (@nextOutput refExp refTrig perclosClassifier [Start true]
              (frontalFrame 0.1 0)) as [out|] eqn:Ho.
  - destruct (@session_perclos_is_fraction refExp refTrig perclosClassifier
                [Start true] (frontalFrame 0.1 0) out Ho) as (H0 & H1 & _).
    by split.
  - vm_compute in Ho. discriminate.
Defined.

(** [collection_starts_only_at_capture] at work: the first result of a
    session started with normalisation switched on. *)
Lemma collection_starts_only_at_capture_witness :
  let s := refRun [SetNormalization true; Start true] in
  baselineCaptured s = false
  /\ Norm.baseCnt (norm (@handle refExp refTrig perclosClassifier s
                           (resultAt frontal 0.9 0))) = 1%Z.
Proof.
  intros s.
  destruct (@collection_starts_only_at_capture refExp refTrig perclosClassifier s
              (resultAt frontal 0.9 0)) as (_ & H2 & _ & _ & _ & H6).
  - reflexivity.
  - vm_compute. reflexivity.
  - split; [exact H2|exact H6].
Defined.

(** [warm_start_ema] at work: the first frame of a session. *)
Lemma warm_start_ema_witness :
  let i := {| t_yawDeg := 0; t_pitchDeg := 0; t_rollDeg := 0;
              unifiedEyeProb := 0.8; yawnProb := 0.2; nowSec := 1; clockNorm := 1 |} in
  let r := @processTick refExp perclosClassifier i loaded in
  Eye.emaEye1 (eye r.1) = 0.8%float
  /\ rawFeat r.2 eye_open_trend_3s = 0%float
  /\ Mouth.yawnEma1 (mouth r.1) = 0.2%float.
Proof.
  intros i r.
  destruct (@warm_start_ema refExp perclosClassifier i loaded) as [He Hm].
  destruct (He eq_refl eq_refl) as (H1 & _ & _ & _ & _ & H6).
  destruct (Hm eq_refl eq_refl) as (H7 & _).
  split; [exact H1|]. split; [exact H6|exact H7].
Defined.
